(** * imgio: the format registry, the per-texel format engine, the image
    providers and the KTX1 / KTX2 / PNG writers and readers

    A shallow embedding of the parts of imgio that its specification makes
    statements about.  Unsigned C++ integers are [Z] with the wrap-around
    written out, bytes are [Z] in [0, 256), [double] is Rocq's primitive
    binary64 float, and code that throws or reports an error returns an
    [outcome]. *)

From Stdlib Require Import ZArith List Bool Lia Floats.
Import ListNotations.
Open Scope Z_scope.

(** ** Machine integers (fwd.hpp) *)

Definition u8 (x : Z) : Z := x mod 2 ^ 8.
Definition u16 (x : Z) : Z := x mod 2 ^ 16.
Definition u32 (x : Z) : Z := x mod 2 ^ 32.
Definition u64 (x : Z) : Z := x mod 2 ^ 64.

(** Two's complement reading of a [w]-bit pattern. *)
Definition signed (w : Z) (x : Z) : Z :=
  let v := x mod 2 ^ w in
  if v <? 2 ^ (w - 1) then v else v - 2 ^ w.

(** [nytl::Vec3ui]. *)
Record Vec3ui := mkVec3ui { vx : Z; vy : Z; vz : Z }.

(** ** allocation.hpp *)

(** [align(offset, alignment)]; the result is converted to the type of
    [offset] by the caller. *)
Definition align (offset alignment : Z) : Z :=
  if (offset =? 0) || (alignment =? 0) then offset
  else
    let rest := offset mod alignment in
    if rest =? 0 then offset else offset + (alignment - rest).

(** [ceilDivide(num, denom)] on [unsigned]. *)
Definition ceilDivide (num denom : Z) : Z := u32 (num + denom - 1) / denom.

(** [alignPOT(offset, alignment)] at [A = B = unsigned]:
    [(offset + alignment - 1) & ~(alignment - 1)]. *)
Definition alignPOT (offset alignment : Z) : Z :=
  Z.land (u32 (offset + alignment - 1)) (u32 (Z.lnot (u32 (alignment - 1)))).

(** ** The format enumeration (format.hpp)

    [enum class Format : u32]: a format is its 32-bit code, and every
    [u32] converts to a [Format] (as [Format(header.vkFormat)] does).  The
    [KHR] aliases of the header name codes that are already listed. *)

Definition Format := Z.

Definition undefined : Format := 0.
Definition r4g4UnormPack8 : Format := 1.
Definition r4g4b4a4UnormPack16 : Format := 2.
Definition b4g4r4a4UnormPack16 : Format := 3.
Definition r5g6b5UnormPack16 : Format := 4.
Definition b5g6r5UnormPack16 : Format := 5.
Definition r5g5b5a1UnormPack16 : Format := 6.
Definition b5g5r5a1UnormPack16 : Format := 7.
Definition a1r5g5b5UnormPack16 : Format := 8.
Definition r8Unorm : Format := 9.
Definition r8Snorm : Format := 10.
Definition r8Uscaled : Format := 11.
Definition r8Sscaled : Format := 12.
Definition r8Uint : Format := 13.
Definition r8Sint : Format := 14.
Definition r8Srgb : Format := 15.
Definition r8g8Unorm : Format := 16.
Definition r8g8Snorm : Format := 17.
Definition r8g8Uscaled : Format := 18.
Definition r8g8Sscaled : Format := 19.
Definition r8g8Uint : Format := 20.
Definition r8g8Sint : Format := 21.
Definition r8g8Srgb : Format := 22.
Definition r8g8b8Unorm : Format := 23.
Definition r8g8b8Snorm : Format := 24.
Definition r8g8b8Uscaled : Format := 25.
Definition r8g8b8Sscaled : Format := 26.
Definition r8g8b8Uint : Format := 27.
Definition r8g8b8Sint : Format := 28.
Definition r8g8b8Srgb : Format := 29.
Definition b8g8r8Unorm : Format := 30.
Definition b8g8r8Snorm : Format := 31.
Definition b8g8r8Uscaled : Format := 32.
Definition b8g8r8Sscaled : Format := 33.
Definition b8g8r8Uint : Format := 34.
Definition b8g8r8Sint : Format := 35.
Definition b8g8r8Srgb : Format := 36.
Definition r8g8b8a8Unorm : Format := 37.
Definition r8g8b8a8Snorm : Format := 38.
Definition r8g8b8a8Uscaled : Format := 39.
Definition r8g8b8a8Sscaled : Format := 40.
Definition r8g8b8a8Uint : Format := 41.
Definition r8g8b8a8Sint : Format := 42.
Definition r8g8b8a8Srgb : Format := 43.
Definition b8g8r8a8Unorm : Format := 44.
Definition b8g8r8a8Snorm : Format := 45.
Definition b8g8r8a8Uscaled : Format := 46.
Definition b8g8r8a8Sscaled : Format := 47.
Definition b8g8r8a8Uint : Format := 48.
Definition b8g8r8a8Sint : Format := 49.
Definition b8g8r8a8Srgb : Format := 50.
Definition a8b8g8r8UnormPack32 : Format := 51.
Definition a8b8g8r8SnormPack32 : Format := 52.
Definition a8b8g8r8UscaledPack32 : Format := 53.
Definition a8b8g8r8SscaledPack32 : Format := 54.
Definition a8b8g8r8UintPack32 : Format := 55.
Definition a8b8g8r8SintPack32 : Format := 56.
Definition a8b8g8r8SrgbPack32 : Format := 57.
Definition a2r10g10b10UnormPack32 : Format := 58.
Definition a2r10g10b10SnormPack32 : Format := 59.
Definition a2r10g10b10UscaledPack32 : Format := 60.
Definition a2r10g10b10SscaledPack32 : Format := 61.
Definition a2r10g10b10UintPack32 : Format := 62.
Definition a2r10g10b10SintPack32 : Format := 63.
Definition a2b10g10r10UnormPack32 : Format := 64.
Definition a2b10g10r10SnormPack32 : Format := 65.
Definition a2b10g10r10UscaledPack32 : Format := 66.
Definition a2b10g10r10SscaledPack32 : Format := 67.
Definition a2b10g10r10UintPack32 : Format := 68.
Definition a2b10g10r10SintPack32 : Format := 69.
Definition r16Unorm : Format := 70.
Definition r16Snorm : Format := 71.
Definition r16Uscaled : Format := 72.
Definition r16Sscaled : Format := 73.
Definition r16Uint : Format := 74.
Definition r16Sint : Format := 75.
Definition r16Sfloat : Format := 76.
Definition r16g16Unorm : Format := 77.
Definition r16g16Snorm : Format := 78.
Definition r16g16Uscaled : Format := 79.
Definition r16g16Sscaled : Format := 80.
Definition r16g16Uint : Format := 81.
Definition r16g16Sint : Format := 82.
Definition r16g16Sfloat : Format := 83.
Definition r16g16b16Unorm : Format := 84.
Definition r16g16b16Snorm : Format := 85.
Definition r16g16b16Uscaled : Format := 86.
Definition r16g16b16Sscaled : Format := 87.
Definition r16g16b16Uint : Format := 88.
Definition r16g16b16Sint : Format := 89.
Definition r16g16b16Sfloat : Format := 90.
Definition r16g16b16a16Unorm : Format := 91.
Definition r16g16b16a16Snorm : Format := 92.
Definition r16g16b16a16Uscaled : Format := 93.
Definition r16g16b16a16Sscaled : Format := 94.
Definition r16g16b16a16Uint : Format := 95.
Definition r16g16b16a16Sint : Format := 96.
Definition r16g16b16a16Sfloat : Format := 97.
Definition r32Uint : Format := 98.
Definition r32Sint : Format := 99.
Definition r32Sfloat : Format := 100.
Definition r32g32Uint : Format := 101.
Definition r32g32Sint : Format := 102.
Definition r32g32Sfloat : Format := 103.
Definition r32g32b32Uint : Format := 104.
Definition r32g32b32Sint : Format := 105.
Definition r32g32b32Sfloat : Format := 106.
Definition r32g32b32a32Uint : Format := 107.
Definition r32g32b32a32Sint : Format := 108.
Definition r32g32b32a32Sfloat : Format := 109.
Definition r64Uint : Format := 110.
Definition r64Sint : Format := 111.
Definition r64Sfloat : Format := 112.
Definition r64g64Uint : Format := 113.
Definition r64g64Sint : Format := 114.
Definition r64g64Sfloat : Format := 115.
Definition r64g64b64Uint : Format := 116.
Definition r64g64b64Sint : Format := 117.
Definition r64g64b64Sfloat : Format := 118.
Definition r64g64b64a64Uint : Format := 119.
Definition r64g64b64a64Sint : Format := 120.
Definition r64g64b64a64Sfloat : Format := 121.
Definition b10g11r11UfloatPack32 : Format := 122.
Definition e5b9g9r9UfloatPack32 : Format := 123.
Definition d16Unorm : Format := 124.
Definition x8D24UnormPack32 : Format := 125.
Definition d32Sfloat : Format := 126.
Definition s8Uint : Format := 127.
Definition d16UnormS8Uint : Format := 128.
Definition d24UnormS8Uint : Format := 129.
Definition d32SfloatS8Uint : Format := 130.
Definition bc1RgbUnormBlock : Format := 131.
Definition bc1RgbSrgbBlock : Format := 132.
Definition bc1RgbaUnormBlock : Format := 133.
Definition bc1RgbaSrgbBlock : Format := 134.
Definition bc2UnormBlock : Format := 135.
Definition bc2SrgbBlock : Format := 136.
Definition bc3UnormBlock : Format := 137.
Definition bc3SrgbBlock : Format := 138.
Definition bc4UnormBlock : Format := 139.
Definition bc4SnormBlock : Format := 140.
Definition bc5UnormBlock : Format := 141.
Definition bc5SnormBlock : Format := 142.
Definition bc6hUfloatBlock : Format := 143.
Definition bc6hSfloatBlock : Format := 144.
Definition bc7UnormBlock : Format := 145.
Definition bc7SrgbBlock : Format := 146.
Definition etc2R8g8b8UnormBlock : Format := 147.
Definition etc2R8g8b8SrgbBlock : Format := 148.
Definition etc2R8g8b8a1UnormBlock : Format := 149.
Definition etc2R8g8b8a1SrgbBlock : Format := 150.
Definition etc2R8g8b8a8UnormBlock : Format := 151.
Definition etc2R8g8b8a8SrgbBlock : Format := 152.
Definition eacR11UnormBlock : Format := 153.
Definition eacR11SnormBlock : Format := 154.
Definition eacR11g11UnormBlock : Format := 155.
Definition eacR11g11SnormBlock : Format := 156.
Definition astc4x4UnormBlock : Format := 157.
Definition astc4x4SrgbBlock : Format := 158.
Definition astc5x4UnormBlock : Format := 159.
Definition astc5x4SrgbBlock : Format := 160.
Definition astc5x5UnormBlock : Format := 161.
Definition astc5x5SrgbBlock : Format := 162.
Definition astc6x5UnormBlock : Format := 163.
Definition astc6x5SrgbBlock : Format := 164.
Definition astc6x6UnormBlock : Format := 165.
Definition astc6x6SrgbBlock : Format := 166.
Definition astc8x5UnormBlock : Format := 167.
Definition astc8x5SrgbBlock : Format := 168.
Definition astc8x6UnormBlock : Format := 169.
Definition astc8x6SrgbBlock : Format := 170.
Definition astc8x8UnormBlock : Format := 171.
Definition astc8x8SrgbBlock : Format := 172.
Definition astc10x5UnormBlock : Format := 173.
Definition astc10x5SrgbBlock : Format := 174.
Definition astc10x6UnormBlock : Format := 175.
Definition astc10x6SrgbBlock : Format := 176.
Definition astc10x8UnormBlock : Format := 177.
Definition astc10x8SrgbBlock : Format := 178.
Definition astc10x10UnormBlock : Format := 179.
Definition astc10x10SrgbBlock : Format := 180.
Definition astc12x10UnormBlock : Format := 181.
Definition astc12x10SrgbBlock : Format := 182.
Definition astc12x12UnormBlock : Format := 183.
Definition astc12x12SrgbBlock : Format := 184.
Definition g8b8g8r8422Unorm : Format := 1000156000.
Definition b8g8r8g8422Unorm : Format := 1000156001.
Definition g8B8R83plane420Unorm : Format := 1000156002.
Definition g8B8r82plane420Unorm : Format := 1000156003.
Definition g8B8R83plane422Unorm : Format := 1000156004.
Definition g8B8r82plane422Unorm : Format := 1000156005.
Definition g8B8R83plane444Unorm : Format := 1000156006.
Definition r10x6UnormPack16 : Format := 1000156007.
Definition r10x6g10x6Unorm2pack16 : Format := 1000156008.
Definition r10x6g10x6b10x6a10x6Unorm4pack16 : Format := 1000156009.
Definition g10x6b10x6g10x6r10x6422Unorm4pack16 : Format := 1000156010.
Definition b10x6g10x6r10x6g10x6422Unorm4pack16 : Format := 1000156011.
Definition g10x6B10x6R10x63plane420Unorm3pack16 : Format := 1000156012.
Definition g10x6B10x6r10x62plane420Unorm3pack16 : Format := 1000156013.
Definition g10x6B10x6R10x63plane422Unorm3pack16 : Format := 1000156014.
Definition g10x6B10x6r10x62plane422Unorm3pack16 : Format := 1000156015.
Definition g10x6B10x6R10x63plane444Unorm3pack16 : Format := 1000156016.
Definition r12x4UnormPack16 : Format := 1000156017.
Definition r12x4g12x4Unorm2pack16 : Format := 1000156018.
Definition r12x4g12x4b12x4a12x4Unorm4pack16 : Format := 1000156019.
Definition g12x4b12x4g12x4r12x4422Unorm4pack16 : Format := 1000156020.
Definition b12x4g12x4r12x4g12x4422Unorm4pack16 : Format := 1000156021.
Definition g12x4B12x4R12x43plane420Unorm3pack16 : Format := 1000156022.
Definition g12x4B12x4r12x42plane420Unorm3pack16 : Format := 1000156023.
Definition g12x4B12x4R12x43plane422Unorm3pack16 : Format := 1000156024.
Definition g12x4B12x4r12x42plane422Unorm3pack16 : Format := 1000156025.
Definition g12x4B12x4R12x43plane444Unorm3pack16 : Format := 1000156026.
Definition g16b16g16r16422Unorm : Format := 1000156027.
Definition b16g16r16g16422Unorm : Format := 1000156028.
Definition g16B16R163plane420Unorm : Format := 1000156029.
Definition g16B16r162plane420Unorm : Format := 1000156030.
Definition g16B16R163plane422Unorm : Format := 1000156031.
Definition g16B16r162plane422Unorm : Format := 1000156032.
Definition g16B16R163plane444Unorm : Format := 1000156033.
Definition pvrtc12bppUnormBlockIMG : Format := 1000054000.
Definition pvrtc14bppUnormBlockIMG : Format := 1000054001.
Definition pvrtc22bppUnormBlockIMG : Format := 1000054002.
Definition pvrtc24bppUnormBlockIMG : Format := 1000054003.
Definition pvrtc12bppSrgbBlockIMG : Format := 1000054004.
Definition pvrtc14bppSrgbBlockIMG : Format := 1000054005.
Definition pvrtc22bppSrgbBlockIMG : Format := 1000054006.
Definition pvrtc24bppSrgbBlockIMG : Format := 1000054007.
Definition astc4x4SfloatBlockEXT : Format := 1000066000.
Definition astc5x4SfloatBlockEXT : Format := 1000066001.
Definition astc5x5SfloatBlockEXT : Format := 1000066002.
Definition astc6x5SfloatBlockEXT : Format := 1000066003.
Definition astc6x6SfloatBlockEXT : Format := 1000066004.
Definition astc8x5SfloatBlockEXT : Format := 1000066005.
Definition astc8x6SfloatBlockEXT : Format := 1000066006.
Definition astc8x8SfloatBlockEXT : Format := 1000066007.
Definition astc10x5SfloatBlockEXT : Format := 1000066008.
Definition astc10x6SfloatBlockEXT : Format := 1000066009.
Definition astc10x8SfloatBlockEXT : Format := 1000066010.
Definition astc10x10SfloatBlockEXT : Format := 1000066011.
Definition astc12x10SfloatBlockEXT : Format := 1000066012.
Definition astc12x12SfloatBlockEXT : Format := 1000066013.
Definition a4r4g4b4UnormPack16EXT : Format := 1000340000.
Definition a4b4g4r4UnormPack16EXT : Format := 1000340001.

(** A [switch] over format codes: the first case whose label is the
    scrutinee, else the [default] branch. *)
Fixpoint switch {A : Type} (x : Z) (cases : list (Z * A)) (default : A) : A :=
  match cases with
  | [] => default
  | (label, body) :: rest => if x =? label then body else switch x rest default
  end.

(** [enum class FormatAspect : u32]. *)
Definition FormatAspect := Z.
Definition aspect_color : FormatAspect := 0x01.
Definition aspect_depth : FormatAspect := 0x02.
Definition aspect_stencil : FormatAspect := 0x04.
Definition aspect_metadata : FormatAspect := 0x08.
Definition aspect_plane0 : FormatAspect := 0x10.
Definition aspect_plane1 : FormatAspect := 0x20.
Definition aspect_plane2 : FormatAspect := 0x40.

(** ** format_utils.h

    The Vulkan format metadata that format.cpp and ktx2.cpp include; the
    header is not among the sources, so its functions are an interface
    that every definition and theorem below is parametric in. *)
Class FormatUtils := {
  FormatElementSize : Format -> FormatAspect -> Z;
  FormatHasDepth : Format -> bool;
  FormatDepthSize : Format -> Z;
  FormatHasStencil : Format -> bool;
  FormatStencilSize : Format -> Z;
  FormatTexelBlockExtent : Format -> Z * Z * Z;
  FormatIsSRGB : Format -> bool;
  FormatIsCompressed : Format -> bool;
  FormatIsPacked : Format -> bool;
  FormatComponentCount : Format -> Z
}.

(** ** The format registry (format.cpp) *)

Section Registry.
Context {fu : FormatUtils}.

Definition formatElementSize_aspect (format : Format) (aspect : FormatAspect) : Z :=
  FormatElementSize format aspect.

Definition formatElementSize (format : Format) : Z :=
  let ret := FormatElementSize format aspect_color in
  let ret := if FormatHasDepth format then u32 (ret + FormatDepthSize format) else ret in
  let ret := if FormatHasStencil format then u32 (ret + FormatStencilSize format) else ret in
  ret.

Definition blockSize (format : Format) : Vec3ui :=
  let '(w, h, d) := FormatTexelBlockExtent format in
  mkVec3ui w h d.

Definition isSRGB (format : Format) : bool := FormatIsSRGB format.

End Registry.

Definition toggleSRGB (format : Format) : Format :=
  switch format
    [ (r8Srgb, r8Unorm);
      (r8g8Srgb, r8g8Unorm);
      (r8g8b8Srgb, r8g8b8Unorm);
      (r8g8b8a8Srgb, r8g8b8a8Unorm);
      (b8g8r8a8Srgb, b8g8r8a8Unorm);
      (b8g8r8Srgb, b8g8r8Unorm);
      (a8b8g8r8SrgbPack32, a8b8g8r8UnormPack32);

      (r8Unorm, r8Srgb);
      (r8g8Unorm, r8g8Srgb);
      (r8g8b8Unorm, r8g8b8Srgb);
      (r8g8b8a8Unorm, r8g8b8a8Srgb);
      (b8g8r8a8Unorm, b8g8r8a8Srgb);
      (b8g8r8Unorm, b8g8r8Srgb);
      (a8b8g8r8UnormPack32, a8b8g8r8SrgbPack32);

      (bc7UnormBlock, bc7SrgbBlock);
      (bc7SrgbBlock, bc7UnormBlock) ]
    format.


Definition mipSize (size : Vec3ui) (l : Z) : Vec3ui :=
  mkVec3ui (Z.max (Z.shiftr (vx size) l) 1)
           (Z.max (Z.shiftr (vy size) l) 1)
           (Z.max (Z.shiftr (vz size) l) 1).

(** The values [first, first + 1, ..., last - 1] of a counting [for] loop. *)
Definition range (first last : Z) : list Z :=
  map (fun k => first + Z.of_nat k) (seq 0 (Z.to_nat (last - first))).

(** One step of the accumulation loops: [off += ie.x * ie.y * ie.z *
    numLayers], the product in [unsigned], the sum in [u64]. *)
Definition addMipTexels (extent : Vec3ui) (numLayers : Z) (off i : Z) : Z :=
  let ie := mipSize extent i in
  u64 (off + u32 (vx ie * vy ie * vz ie * numLayers)).

Definition tightTexelCount (extent : Vec3ui) (numLayers numMips firstMip : Z) : Z :=
  fold_left (addMipTexels extent numLayers)
            (range firstMip (u32 (firstMip + numMips))) 0.

(** [tightLayerTexelNumber] (format.hpp), on [unsigned], widened on return. *)
Definition tightLayerTexelNumber (extent : Vec3ui) (x y z : Z) : Z :=
  u32 (z * u32 (vy extent * vx extent) + y * vx extent + x).

Definition tightTexelNumber (extent : Vec3ui)
    (numLayers mip layer x y z firstMip : Z) : Z :=
  let off := fold_left (addMipTexels extent numLayers) (range firstMip mip) 0 in
  let ie := mipSize extent mip in
  let ltn := tightLayerTexelNumber extent x y z in
  u64 (off + u32 (layer * vx ie * vy ie * vz ie) + ltn).

Section SizeBytes.
Context {fu : FormatUtils}.

Definition sizeBytes (size : Vec3ui) (mip : Z) (fmt : Format) : Z :=
  let w := Z.max (Z.shiftr (vx size) mip) 1 in
  let h := Z.max (Z.shiftr (vy size) mip) 1 in
  let d := Z.max (Z.shiftr (vz size) mip) 1 in
  let b := blockSize fmt in
  let w := ceilDivide w (vx b) in
  let h := ceilDivide h (vy b) in
  let d := ceilDivide d (vz b) in
  u32 (w * h * d * formatElementSize fmt).

End SizeBytes.

(** ** IEEE arithmetic of the format engine

    [double] is binary64, as Rocq's primitive floats are.  Conversions go
    through the specification floats of the standard library, whose
    [binary_round] rounds to nearest, ties to even. *)

Definition double := float.

(** An integer converted to [double]. *)
Definition double_of_Z (z : Z) : double :=
  SF2Prim (binary_normalize 53 1024 z 0 false).

(** A [double] converted to an integer type truncates toward zero.  The
    conversion is undefined in C++ when the truncated value does not fit
    the target and for a NaN or an infinity; a NaN and an infinity are 0
    here, and the callers wrap. *)
Definition Ztrunc (x : double) : Z :=
  match Prim2SF x with
  | S754_finite s m e =>
      let v := Z.shiftl (Zpos m) e in
      if s then - v else v
  | _ => 0
  end.

(** [std::floor] followed by the conversion to [int]. *)
Definition Zfloor (x : double) : Z :=
  match Prim2SF x with
  | S754_finite s m e =>
      if s then Z.shiftl (Zneg m) e else Z.shiftl (Zpos m) e
  | _ => 0
  end.

(** [std::exp2] at an integer: a power of two, exact in [double]. *)
Definition exp2 (k : Z) : double := Z.ldexp 1%float k.

(** A [float] (binary32) is its bit pattern. *)
Definition f32 := Z.

Definition sign_bit (w : Z) (s : bool) : Z := if s then 2 ^ (w - 1) else 0.

(** The bits of a binary float with [mw] fraction bits and [w] bits in
    all, and back. *)
Definition SF_of_bits (w mw : Z) (bits : Z) : spec_float :=
  let ew := w - 1 - mw in
  let s := Z.testbit bits (w - 1) in
  let E := Z.land (Z.shiftr bits mw) (2 ^ ew - 1) in
  let M := Z.land bits (2 ^ mw - 1) in
  let bias := 2 ^ (ew - 1) - 1 in
  if E =? 2 ^ ew - 1 then (if M =? 0 then S754_infinity s else S754_nan)
  else if E =? 0 then
    match M with Zpos m => S754_finite s m (1 - bias - mw) | _ => S754_zero s end
  else
    match M + 2 ^ mw with
    | Zpos m => S754_finite s m (E - bias - mw)
    | _ => S754_nan
    end.

Definition bits_of_SF (w mw : Z) (x : spec_float) : Z :=
  let ew := w - 1 - mw in
  let bias := 2 ^ (ew - 1) - 1 in
  match x with
  | S754_zero s => sign_bit w s
  | S754_infinity s => sign_bit w s + (2 ^ ew - 1) * 2 ^ mw
  | S754_nan => (2 ^ ew - 1) * 2 ^ mw + 2 ^ (mw - 1)
  | S754_finite s m e =>
      sign_bit w s +
      (if Zpos m <? 2 ^ mw then Zpos m
       else (e + bias + mw) * 2 ^ mw + (Zpos m - 2 ^ mw))
  end.

(** [double(x)] of a [float] is exact. *)
Definition f32_val (x : f32) : double := SF2Prim (SF_of_bits 32 23 x).

(** [float(x)] of a [double] rounds to binary32. *)
Definition f32_of_double (x : double) : f32 :=
  bits_of_SF 32 23
    (match Prim2SF x with
     | S754_finite s m e => binary_round 24 128 s m e
     | sf => sf
     end).

Definition f64_val (bits : Z) : double := SF2Prim (SF_of_bits 64 52 bits).
Definition f64_bits (x : double) : Z := bits_of_SF 64 52 (Prim2SF x).

(** What the engine takes from outside the sources: [std::pow], and the
    half-float type of f16.hpp (a 16-bit pattern, converted to and from
    [double]). *)
Class EngineLib := {
  pow : double -> double -> double;
  f16_val : Z -> double;
  f16_of_double : double -> Z
}.

(** ** The format engine (format.cpp) *)

(** [Vec4d]. *)
Record Vec4d := mkVec4d { c0 : double; c1 : double; c2 : double; c3 : double }.

Definition Vec4d_zero : Vec4d := mkVec4d 0%float 0%float 0%float 0%float.

Definition vget (v : Vec4d) (i : nat) : double :=
  match i with
  | 0%nat => c0 v
  | 1%nat => c1 v
  | 2%nat => c2 v
  | _ => c3 v
  end.

Definition vset (v : Vec4d) (i : nat) (x : double) : Vec4d :=
  match i with
  | 0%nat => mkVec4d x (c1 v) (c2 v) (c3 v)
  | 1%nat => mkVec4d (c0 v) x (c2 v) (c3 v)
  | 2%nat => mkVec4d (c0 v) (c1 v) x (c3 v)
  | _ => mkVec4d (c0 v) (c1 v) (c2 v) x
  end.

Definition vmap (f : double -> double) (v : Vec4d) : Vec4d :=
  mkVec4d (f (c0 v)) (f (c1 v)) (f (c2 v)) (f (c3 v)).

(** A [Vec<N, double>] widened to [Vec4d]: the missing components are 0. *)
Definition Vec4d_of_list (l : list double) : Vec4d :=
  mkVec4d (nth 0 l 0%float) (nth 1 l 0%float) (nth 2 l 0%float) (nth 3 l 0%float).

(** Little-endian values in a byte span. *)
Definition le_value (bytes : list Z) : Z :=
  fold_right (fun b acc => b + 256 * acc) 0 bytes.

Definition le_bytes (n : nat) (v : Z) : list Z :=
  map (fun k => Z.shiftr v (8 * Z.of_nat k) mod 256) (seq 0 n).

(** [nytl::read<T>(span)]: the first [n] bytes and the advanced span;
    [None] when the span is shorter (nytl is not among the sources). *)
Definition take (n : nat) (span : list Z) : option (list Z * list Z) :=
  if (n <=? length span)%nat then Some (firstn n span, skipn n span) else None.

Definition read_uint (n : nat) (span : list Z) : option (Z * list Z) :=
  match take n span with
  | Some (bytes, rest) => Some (le_value bytes, rest)
  | None => None
  end.

(** The component types [T] of [iofmt<W, N, T, Fac, SRGB>]. *)
Inductive CompType := U8 | U16 | U32 | U64 | I8 | I16 | I32 | I64 | F16 | F32 | F64.

Definition sizeofT (T : CompType) : nat :=
  match T with
  | U8 | I8 => 1
  | U16 | I16 | F16 => 2
  | U32 | I32 | F32 => 4
  | U64 | I64 | F64 => 8
  end.

(** [FORMAT_NUMERICAL_TYPE], as far as [iopack] is instantiated. *)
Inductive FORMAT_NUMERICAL_TYPE := UNORM | SNORM | UINT | SINT | USCALED | SSCALED | SRGB.

(** The body that [ioFormat] selects for a format. *)
Inductive Codec :=
| Plain (N : nat) (T : CompType) (Fac : Z) (srgb : bool)
| Pack (type : FORMAT_NUMERICAL_TYPE) (Bits : list Z)
| D16S8
| D24S8
| X8D24
| D32S8
| E5B9G9R9
| NotSupported.

Definition ioFormat_case (format : Format) : Codec :=
  switch format
    [
      (r16Sfloat, Plain 1 F16 1 false);
      (r16g16Sfloat, Plain 2 F16 1 false);
      (r16g16b16Sfloat, Plain 3 F16 1 false);
      (r16g16b16a16Sfloat, Plain 4 F16 1 false);
      (r32Sfloat, Plain 1 F32 1 false);
      (r32g32Sfloat, Plain 2 F32 1 false);
      (r32g32b32Sfloat, Plain 3 F32 1 false);
      (r32g32b32a32Sfloat, Plain 4 F32 1 false);
      (r64Sfloat, Plain 1 F64 1 false);
      (r64g64Sfloat, Plain 2 F64 1 false);
      (r64g64b64Sfloat, Plain 3 F64 1 false);
      (r64g64b64a64Sfloat, Plain 4 F64 1 false);
      (r8Unorm, Plain 1 U8 255 false);
      (r8g8Unorm, Plain 2 U8 255 false);
      (b8g8r8Unorm, Plain 3 U8 255 false);
      (r8g8b8Unorm, Plain 3 U8 255 false);
      (r8g8b8a8Unorm, Plain 4 U8 255 false);
      (b8g8r8a8Unorm, Plain 4 U8 255 false);
      (r8Srgb, Plain 1 U8 255 true);
      (r8g8Srgb, Plain 2 U8 255 true);
      (b8g8r8Srgb, Plain 3 U8 255 true);
      (r8g8b8Srgb, Plain 3 U8 255 true);
      (r8g8b8a8Srgb, Plain 4 U8 255 true);
      (b8g8r8a8Srgb, Plain 4 U8 255 true);
      (r16Unorm, Plain 1 U16 65535 false);
      (r16g16Unorm, Plain 2 U16 65535 false);
      (r16g16b16Unorm, Plain 3 U16 65535 false);
      (r16g16b16a16Unorm, Plain 4 U16 65535 false);
      (r8Snorm, Plain 1 I8 127 false);
      (r8g8Snorm, Plain 2 I8 127 false);
      (b8g8r8Snorm, Plain 3 I8 127 false);
      (r8g8b8Snorm, Plain 3 I8 127 false);
      (r8g8b8a8Snorm, Plain 4 I8 127 false);
      (b8g8r8a8Snorm, Plain 4 I8 127 false);
      (r16Snorm, Plain 1 I16 32767 false);
      (r16g16Snorm, Plain 2 I16 32767 false);
      (r16g16b16Snorm, Plain 3 I16 32767 false);
      (r16g16b16a16Snorm, Plain 4 I16 32767 false);
      (r8Uscaled, Plain 1 U8 1 false);
      (r8Uint, Plain 1 U8 1 false);
      (r8g8Uscaled, Plain 2 U8 1 false);
      (r8g8Uint, Plain 2 U8 1 false);
      (r8g8b8Uscaled, Plain 3 U8 1 false);
      (r8g8b8Uint, Plain 3 U8 1 false);
      (b8g8r8Uscaled, Plain 3 U8 1 false);
      (b8g8r8Uint, Plain 3 U8 1 false);
      (r8g8b8a8Uscaled, Plain 4 U8 1 false);
      (r8g8b8a8Uint, Plain 4 U8 1 false);
      (b8g8r8a8Uscaled, Plain 4 U8 1 false);
      (b8g8r8a8Uint, Plain 4 U8 1 false);
      (r16Uscaled, Plain 1 U16 1 false);
      (r16Uint, Plain 1 U16 1 false);
      (r16g16Uscaled, Plain 2 U16 1 false);
      (r16g16Uint, Plain 2 U16 1 false);
      (r16g16b16Uscaled, Plain 3 U16 1 false);
      (r16g16b16Uint, Plain 3 U16 1 false);
      (r16g16b16a16Uscaled, Plain 4 U16 1 false);
      (r16g16b16a16Uint, Plain 4 U16 1 false);
      (r32Uint, Plain 1 U32 1 false);
      (r32g32Uint, Plain 2 U32 1 false);
      (r32g32b32Uint, Plain 3 U32 1 false);
      (r32g32b32a32Uint, Plain 4 U32 1 false);
      (r8Sscaled, Plain 1 I8 1 false);
      (r8Sint, Plain 1 I8 1 false);
      (r8g8Sscaled, Plain 2 I8 1 false);
      (r8g8Sint, Plain 2 I8 1 false);
      (r8g8b8Sscaled, Plain 3 I8 1 false);
      (r8g8b8Sint, Plain 3 I8 1 false);
      (b8g8r8Sscaled, Plain 3 I8 1 false);
      (b8g8r8Sint, Plain 3 I8 1 false);
      (r8g8b8a8Sscaled, Plain 4 I8 1 false);
      (r8g8b8a8Sint, Plain 4 I8 1 false);
      (b8g8r8a8Sscaled, Plain 4 I8 1 false);
      (b8g8r8a8Sint, Plain 4 I8 1 false);
      (r16Sscaled, Plain 1 I16 1 false);
      (r16Sint, Plain 1 I16 1 false);
      (r16g16Sscaled, Plain 2 I16 1 false);
      (r16g16Sint, Plain 2 I16 1 false);
      (r16g16b16Sscaled, Plain 3 I16 1 false);
      (r16g16b16Sint, Plain 3 I16 1 false);
      (r16g16b16a16Sscaled, Plain 4 I16 1 false);
      (r16g16b16a16Sint, Plain 4 I16 1 false);
      (r32Sint, Plain 1 I32 1 false);
      (r32g32Sint, Plain 2 I32 1 false);
      (r32g32b32Sint, Plain 3 I32 1 false);
      (r32g32b32a32Sint, Plain 4 I32 1 false);
      (r64Uint, Plain 1 U64 1 false);
      (r64g64Uint, Plain 2 U64 1 false);
      (r64g64b64Uint, Plain 3 U64 1 false);
      (r64g64b64a64Uint, Plain 4 U64 1 false);
      (r64Sint, Plain 1 I64 1 false);
      (r64g64Sint, Plain 2 I64 1 false);
      (r64g64b64Sint, Plain 3 I64 1 false);
      (r64g64b64a64Sint, Plain 4 I64 1 false);
      (r4g4UnormPack8, Pack UNORM [4; 4]);
      (a1r5g5b5UnormPack16, Pack UNORM [5; 5; 5; 1]);
      (b5g5r5a1UnormPack16, Pack UNORM [5; 5; 5; 1]);
      (r5g5b5a1UnormPack16, Pack UNORM [5; 5; 5; 1]);
      (b5g6r5UnormPack16, Pack UNORM [5; 6; 5]);
      (r5g6b5UnormPack16, Pack UNORM [5; 6; 5]);
      (b4g4r4a4UnormPack16, Pack UNORM [4; 4; 4; 4]);
      (r4g4b4a4UnormPack16, Pack UNORM [4; 4; 4; 4]);
      (a8b8g8r8SintPack32, Pack SINT [8; 8; 8; 8]);
      (a8b8g8r8SrgbPack32, Pack SRGB [8; 8; 8; 8]);
      (a8b8g8r8UintPack32, Pack UINT [8; 8; 8; 8]);
      (a8b8g8r8UnormPack32, Pack UNORM [8; 8; 8; 8]);
      (a8b8g8r8SnormPack32, Pack SNORM [8; 8; 8; 8]);
      (a8b8g8r8SscaledPack32, Pack SSCALED [8; 8; 8; 8]);
      (a8b8g8r8UscaledPack32, Pack USCALED [8; 8; 8; 8]);
      (a2b10g10r10SnormPack32, Pack SNORM [2; 10; 10; 10]);
      (a2r10g10b10SnormPack32, Pack SNORM [2; 10; 10; 10]);
      (a2b10g10r10UnormPack32, Pack UNORM [2; 10; 10; 10]);
      (a2r10g10b10UnormPack32, Pack UNORM [2; 10; 10; 10]);
      (a2b10g10r10UintPack32, Pack UINT [2; 10; 10; 10]);
      (a2r10g10b10UintPack32, Pack UINT [2; 10; 10; 10]);
      (a2b10g10r10SintPack32, Pack SINT [2; 10; 10; 10]);
      (a2r10g10b10SintPack32, Pack SINT [2; 10; 10; 10]);
      (a2b10g10r10UscaledPack32, Pack USCALED [2; 10; 10; 10]);
      (a2r10g10b10UscaledPack32, Pack USCALED [2; 10; 10; 10]);
      (a2b10g10r10SscaledPack32, Pack SSCALED [2; 10; 10; 10]);
      (a2r10g10b10SscaledPack32, Pack SSCALED [2; 10; 10; 10]);
      (s8Uint, Plain 1 U8 1 false);
      (d16Unorm, Plain 1 U16 65535 false);
      (d16UnormS8Uint, D16S8);
      (d24UnormS8Uint, D24S8);
      (x8D24UnormPack32, X8D24);
      (d32Sfloat, Plain 1 F32 1 false);
      (d32SfloatS8Uint, D32S8);
      (e5b9g9r9UfloatPack32, E5B9G9R9)
    ]
    NotSupported.

(** The permutation [formatSwizzle] selects, if any. *)
Definition formatSwizzle_case (format : Format) : option (nat * nat * nat * nat) :=
  switch (A := option (nat * nat * nat * nat)) format
    (map (fun c => (fst c, Some (snd c)))
    [
      (b8g8r8a8Unorm, (2, 1, 0, 3)%nat);
      (b8g8r8a8Srgb, (2, 1, 0, 3)%nat);
      (b8g8r8a8Sint, (2, 1, 0, 3)%nat);
      (b8g8r8a8Uint, (2, 1, 0, 3)%nat);
      (b8g8r8a8Sscaled, (2, 1, 0, 3)%nat);
      (b8g8r8a8Uscaled, (2, 1, 0, 3)%nat);
      (b8g8r8Unorm, (2, 1, 0, 3)%nat);
      (b8g8r8Srgb, (2, 1, 0, 3)%nat);
      (b8g8r8Sint, (2, 1, 0, 3)%nat);
      (b8g8r8Uint, (2, 1, 0, 3)%nat);
      (b8g8r8Sscaled, (2, 1, 0, 3)%nat);
      (b8g8r8Uscaled, (2, 1, 0, 3)%nat);
      (b5g5r5a1UnormPack16, (2, 1, 0, 3)%nat);
      (b5g6r5UnormPack16, (2, 1, 0, 3)%nat);
      (b4g4r4a4UnormPack16, (2, 1, 0, 3)%nat);
      (a8b8g8r8SintPack32, (3, 2, 1, 0)%nat);
      (a8b8g8r8SrgbPack32, (3, 2, 1, 0)%nat);
      (a8b8g8r8UintPack32, (3, 2, 1, 0)%nat);
      (a8b8g8r8UnormPack32, (3, 2, 1, 0)%nat);
      (a8b8g8r8SnormPack32, (3, 2, 1, 0)%nat);
      (a8b8g8r8SscaledPack32, (3, 2, 1, 0)%nat);
      (a8b8g8r8UscaledPack32, (3, 2, 1, 0)%nat);
      (a2b10g10r10SnormPack32, (3, 2, 1, 0)%nat);
      (a2b10g10r10UnormPack32, (3, 2, 1, 0)%nat);
      (a2b10g10r10UintPack32, (3, 2, 1, 0)%nat);
      (a2b10g10r10SintPack32, (3, 2, 1, 0)%nat);
      (a2b10g10r10UscaledPack32, (3, 2, 1, 0)%nat);
      (a2b10g10r10SscaledPack32, (3, 2, 1, 0)%nat);
      (a2r10g10b10SintPack32, (1, 2, 3, 0)%nat);
      (a2r10g10b10UintPack32, (1, 2, 3, 0)%nat);
      (a2r10g10b10UnormPack32, (1, 2, 3, 0)%nat);
      (a2r10g10b10SnormPack32, (1, 2, 3, 0)%nat);
      (a2r10g10b10UscaledPack32, (1, 2, 3, 0)%nat);
      (a2r10g10b10SscaledPack32, (1, 2, 3, 0)%nat)
    ])
    None.

(** [swizzle<Reverse, A, B, C, D>]. *)
Definition swizzle (Reverse : bool) (A B C D : nat) (x : Vec4d) : Vec4d :=
  if Reverse then
    let ret := Vec4d_zero in
    let ret := vset ret A (vget x 0) in
    let ret := vset ret B (vget x 1) in
    let ret := vset ret C (vget x 2) in
    let ret := vset ret D (vget x 3) in
    ret
  else mkVec4d (vget x A) (vget x B) (vget x C) (vget x D).

Definition formatSwizzle (W : bool) (format : Format) (x : Vec4d) : Vec4d :=
  match formatSwizzle_case format with
  | Some (A, B, C, D) => swizzle W A B C D x
  | None => x
  end.

(** [float] arithmetic: the operation in [double], rounded to binary32
    (for one multiplication or division this is the correctly rounded
    binary32 result). *)
Definition f32_of_Z (z : Z) : f32 := f32_of_double (double_of_Z z).
Definition f32_mul (a b : f32) : f32 := f32_of_double (f32_val a * f32_val b)%float.
Definition f32_div (a b : f32) : f32 := f32_of_double (f32_val a / f32_val b)%float.

(** [Vec3f]. *)
Record Vec3f := mkVec3f { fr : f32; fg : f32; fb : f32 }.

(** *** The shared-exponent format *)

Module e5b9g9r9.

Definition expBias : Z := 15.
Definition maxBiasedExp : Z := 32.
Definition maxExp : Z := maxBiasedExp - expBias.
Definition mantissaValues : Z := Z.shiftl 1 9.
Definition maxMantissa : Z := mantissaValues - 1.
Definition max : f32 :=
  f32_mul (f32_div (f32_of_Z maxMantissa) (f32_of_Z mantissaValues))
          (f32_of_Z (Z.shiftl 1 maxExp)).

Definition clamp (x : f32) : f32 :=
  if (0 <? f32_val x)%float then
    (if (f32_val max <? f32_val x)%float then max else x)
  else f32_of_double 0%float.

Definition floorLog2 (x : f32) : Z :=
  Z.land (Z.shiftr x 23) 255 - 127.

(** [std::max] on [float]. *)
Definition fmax (a b : f32) : f32 :=
  if (f32_val a <? f32_val b)%float then b else a.

(** The values [e5b9g9r9FromRgb] packs: the shared exponent and the three
    mantissas. *)
Record Fields := mkFields { expShared : Z; rm : Z; gm : Z; bm : Z }.

Definition mantissa (c : f32) (denom : double) : Z :=
  Zfloor (f32_val c / denom + 0.5)%float.

Definition fields (rgb : Vec3f) : Fields :=
  let rc := clamp (fr rgb) in
  let gc := clamp (fg rgb) in
  let bc := clamp (fb rgb) in
  let maxrgb := fmax rc (fmax gc bc) in
  let expShared := Z.max 0 (floorLog2 maxrgb + 1 + expBias) in
  let denom := exp2 (expShared - expBias - 9) in
  let maxm := mantissa maxrgb denom in
  let '(denom, expShared) :=
    if maxm =? maxMantissa + 1 then ((denom * 2)%float, expShared + 1)
    else (denom, expShared) in
  mkFields expShared (mantissa rc denom) (mantissa gc denom) (mantissa bc denom).

End e5b9g9r9.

(** [(expShared << 27) | (bm << 18) | (gm << 9) | rm], an [int]
    expression returned as [u32].  For [expShared = 32] the shift leaves
    the range of [int]; the low 32 bits are kept, as the shift
    instruction does. *)
Definition e5b9g9r9FromRgb (rgb : Vec3f) : Z :=
  let f := e5b9g9r9.fields rgb in
  u32 (Z.lor (Z.lor (Z.lor (Z.shiftl (e5b9g9r9.expShared f) 27)
                           (Z.shiftl (e5b9g9r9.bm f) 18))
                    (Z.shiftl (e5b9g9r9.gm f) 9))
             (e5b9g9r9.rm f)).

Section Engine.
Context {lib : EngineLib}.

Definition e5b9g9r9ToRgb (ebgr : Z) : Vec3f :=
  let exponent := Z.shiftr ebgr 27 - e5b9g9r9.expBias - 9 in
  let scale := f32_of_double (pow 2%float (double_of_Z exponent)) in
  mkVec3f (f32_mul scale (f32_of_Z (Z.land ebgr 511)))
          (f32_mul scale (f32_of_Z (Z.land (Z.shiftr ebgr 9) 511)))
          (f32_mul scale (f32_of_Z (Z.land (Z.shiftr ebgr 18) 511))).

(** *** sRGB transfer

    The decimal constants denote the nearest [double], as they do in the
    source. *)

#[local] Set Warnings "-inexact-float".

Definition linearToSRGB (linear : double) : double :=
  if (linear <? 0.0031308)%float then (12.92 * linear)%float
  else (1.055 * pow linear (1 / 2.4) - 0.055)%float.

Definition srgbToLinear (srgb : double) : double :=
  if (srgb <? 0.04045)%float then (srgb / 12.92)%float
  else pow ((srgb + 0.055) / 1.055)%float 2.4%float.

Definition linearToSRGB_vec (v : Vec4d) : Vec4d :=
  mkVec4d (linearToSRGB (c0 v)) (linearToSRGB (c1 v)) (linearToSRGB (c2 v)) (c3 v).

Definition srgbToLinear_vec (v : Vec4d) : Vec4d :=
  mkVec4d (srgbToLinear (c0 v)) (srgbToLinear (c1 v)) (srgbToLinear (c2 v)) (c3 v).

End Engine.

Section Components.
Context {lib : EngineLib}.

(** A component of type [T], read as a bit pattern, converted to [double]. *)
Definition comp_to_double (T : CompType) (raw : Z) : double :=
  match T with
  | U8 | U16 | U32 | U64 => double_of_Z raw
  | I8 => double_of_Z (signed 8 raw)
  | I16 => double_of_Z (signed 16 raw)
  | I32 => double_of_Z (signed 32 raw)
  | I64 => double_of_Z (signed 64 raw)
  | F16 => f16_val raw
  | F32 => f32_val raw
  | F64 => f64_val raw
  end.

(** [T(x)] for a [double] [x], as the bit pattern that is written. *)
Definition double_to_comp (T : CompType) (x : double) : Z :=
  match T with
  | F16 => f16_of_double x
  | F32 => f32_of_double x
  | F64 => f64_bits x
  | _ => Ztrunc x mod 2 ^ (8 * Z.of_nat (sizeofT T))
  end.

(** [read<Vec<N, T>>(src)]. *)
Fixpoint read_comps (N : nat) (T : CompType) (src : list Z)
  : option (list double * list Z) :=
  match N with
  | O => Some ([], src)
  | S N' =>
      match read_uint (sizeofT T) src with
      | Some (raw, src) =>
          match read_comps N' T src with
          | Some (rest, src) => Some (comp_to_double T raw :: rest, src)
          | None => None
          end
      | None => None
      end
  end.

End Components.

Module FormatReader.
Section Reader.
Context {lib : EngineLib}.

(** [FormatReader::call<N, T, Fac, SRGB>]. *)
Definition call (N : nat) (T : CompType) (Fac : Z) (srgb : bool)
    (src : list Z) : option (Vec4d * list Z) :=
  match read_comps N T src with
  | Some (ret, src) =>
      let dst := vmap (fun c => (c / double_of_Z Fac)%float) (Vec4d_of_list ret) in
      Some (if srgb then srgbToLinear_vec dst else dst, src)
  | None => None
  end.

(** [FormatReader::unpack<Norm, Signed, FirstBits, Rest...>]: the rest of
    the fields first, then this one from the low bits that remain. *)
Fixpoint unpack (Norm Signed : bool) (Bits : list Z) (src : Z) (dst : Vec4d)
    (id : nat) : Z * Vec4d :=
  match Bits with
  | [] => (src, dst)
  | FirstBits :: Rest =>
      let '(src, dst) := unpack Norm Signed Rest src dst (S id) in
      let limit := u32 (Z.shiftl 1 FirstBits) in
      let mask := u32 (limit - 1) in
      let valUint := Z.land src mask in
      let converted := double_of_Z valUint in
      let halfLimit := limit / 2 in
      let converted :=
        if Signed then (converted - double_of_Z halfLimit)%float else converted in
      let mask := if Signed then u32 (halfLimit - 1) else mask in
      let converted :=
        if Norm then (converted / double_of_Z mask)%float else converted in
      (Z.shiftr src FirstBits, vset dst id converted)
  end.

(** The width of the packed word: [u8], [u16] or [u32]. *)
Definition packedBytes (Bits : list Z) : nat :=
  let numBits := fold_right Z.add 0 Bits in
  if numBits =? 8 then 1%nat else if numBits =? 16 then 2%nat else 4%nat.

(** [FormatReader::callPack<Norm, Signed, SRGB, Bits...>]. *)
Definition callPack (Norm Signed srgb : bool) (Bits : list Z)
    (src : list Z) (dst : Vec4d) : option (Vec4d * list Z) :=
  match read_uint (packedBytes Bits) src with
  | Some (packed, src) =>
      let '(_, dst) := unpack Norm Signed Bits packed dst 0 in
      Some (if srgb then srgbToLinear_vec dst else dst, src)
  | None => None
  end.

End Reader.
End FormatReader.

Module FormatWriter.
Section Writer.
Context {lib : EngineLib}.

(** [FormatWriter::call<N, T, Fac, SRGB>]: the bytes written. *)
Definition call (N : nat) (T : CompType) (Fac : Z) (srgb : bool)
    (src : Vec4d) : list Z :=
  let src := if srgb then linearToSRGB_vec src else src in
  flat_map
    (fun i => le_bytes (sizeofT T)
                (double_to_comp T (double_of_Z Fac * vget src i)%float))
    (seq 0 N).

(** [FormatWriter::pack<Norm, Signed, FirstBits, Rest...>]. *)
Fixpoint pack (Norm Signed : bool) (Bits : list Z) (dst : Z) (src : Vec4d)
    (id : nat) : Z :=
  match Bits with
  | [] => dst
  | FirstBits :: Rest =>
      let converted := vget src id in
      let limit := u32 (Z.shiftl 1 FirstBits) in
      let mask := u32 (limit - 1) in
      let converted :=
        if Norm then (converted * double_of_Z mask)%float else converted in
      let signFac := if Norm then 0.5%float else 1%float in
      let converted :=
        if Signed then
          (signFac * converted + double_of_Z (Z.shiftr limit 1))%float
        else converted in
      let valUint := u32 (Ztrunc converted) in
      let dst := Z.lor (u32 (Z.shiftl dst FirstBits)) (Z.land valUint mask) in
      pack Norm Signed Rest dst src (S id)
  end.

(** [FormatWriter::callPack<Norm, Signed, SRGB, Bits...>]. *)
Definition callPack (Norm Signed srgb : bool) (Bits : list Z)
    (src : Vec4d) : list Z :=
  let src := if srgb then linearToSRGB_vec src else src in
  let packed := pack Norm Signed Bits 0 src 0 in
  le_bytes (FormatReader.packedBytes Bits) packed.

End Writer.
End FormatWriter.

(** The flags [iopack<Write, type, Bits...>] derives from the numerical
    type: [Norm], [Signed], [SRGB]. *)
Definition packNorm (type : FORMAT_NUMERICAL_TYPE) : bool :=
  match type with UNORM | SRGB | SNORM => true | _ => false end.
Definition packSigned (type : FORMAT_NUMERICAL_TYPE) : bool :=
  match type with SNORM | SINT | SSCALED => true | _ => false end.
Definition packSRGB (type : FORMAT_NUMERICAL_TYPE) : bool :=
  match type with SRGB => true | _ => false end.

Section FormatIO.
Context {lib : EngineLib}.

(** [ioFormat<false>]: the vector read and the advanced span. *)
Definition ioFormat_read (format : Format) (span : list Z) (vec : Vec4d)
  : option (Vec4d * list Z) :=
  match ioFormat_case format with
  | Plain N T Fac srgb => FormatReader.call N T Fac srgb span
  | Pack type Bits =>
      FormatReader.callPack (packNorm type) (packSigned type) (packSRGB type)
        Bits span vec
  | D16S8 =>
      match read_uint 2 span with
      | Some (d, span) =>
          match read_uint 1 span with
          | Some (s, span) =>
              Some (mkVec4d (double_of_Z d / 65535)%float (double_of_Z s)
                            0%float 0%float, span)
          | None => None
          end
      | None => None
      end
  | D24S8 =>
      match take 3 span with
      | Some (d, span) =>
          match read_uint 1 span with
          | Some (s, span) =>
              let v := Z.lor (Z.lor (Z.shiftl (nth 0 d 0) 16)
                                    (Z.shiftl (nth 1 d 0) 8)) (nth 2 d 0) in
              Some (mkVec4d (double_of_Z v / 16777215)%float (double_of_Z s)
                            0%float 0%float, span)
          | None => None
          end
      | None => None
      end
  | X8D24 =>
      match read_uint 4 span with
      | Some (d, span) =>
          let mask := u32 (Z.shiftl 1 24 - 1) in
          Some (mkVec4d (double_of_Z (Z.land d mask) / double_of_Z mask)%float
                        0%float 0%float 0%float, span)
      | None => None
      end
  | D32S8 =>
      match read_uint 4 span with
      | Some (d, span) =>
          match read_uint 1 span with
          | Some (s, span) =>
              Some (mkVec4d (f32_val d) (double_of_Z s) 0%float 0%float, span)
          | None => None
          end
      | None => None
      end
  | E5B9G9R9 =>
      match read_uint 4 span with
      | Some (w, span) =>
          let rgb := e5b9g9r9ToRgb w in
          Some (mkVec4d (f32_val (fr rgb)) (f32_val (fg rgb)) (f32_val (fb rgb))
                        0%float, span)
      | None => None
      end
  | NotSupported => Some (vec, span)
  end.

(** [ioFormat<true>]: the bytes written to the front of the span. *)
Definition ioFormat_write (format : Format) (vec : Vec4d) : list Z :=
  match ioFormat_case format with
  | Plain N T Fac srgb => FormatWriter.call N T Fac srgb vec
  | Pack type Bits =>
      FormatWriter.callPack (packNorm type) (packSigned type) (packSRGB type)
        Bits vec
  | D16S8 =>
      le_bytes 2 (u16 (Ztrunc (c0 vec * 65535)%float))
      ++ le_bytes 1 (u8 (Ztrunc (c1 vec)))
  | D24S8 =>
      let d := u32 (Ztrunc (16777215 * c0 vec)%float) in
      [u8 (Z.land (Z.shiftr d 16) 255); u8 (Z.land (Z.shiftr d 8) 255);
       u8 (Z.land d 255); u8 (Ztrunc (c1 vec))]
  | X8D24 =>
      let fac := u32 (Z.shiftl 1 24 - 1) in
      le_bytes 4 (u32 (Ztrunc (double_of_Z fac * c0 vec)%float))
  | D32S8 =>
      le_bytes 4 (f32_of_double (c0 vec)) ++ le_bytes 1 (u8 (Ztrunc (c1 vec)))
  | E5B9G9R9 =>
      le_bytes 4 (e5b9g9r9FromRgb
                    (mkVec3f (f32_of_double (c0 vec)) (f32_of_double (c1 vec))
                             (f32_of_double (c2 vec))))
  | NotSupported => []
  end.

(** [read(srcFormat, src)]. *)
Definition read (srcFormat : Format) (src : list Z) : option (Vec4d * list Z) :=
  match ioFormat_read srcFormat src Vec4d_zero with
  | Some (ret, src) => Some (formatSwizzle false srcFormat ret, src)
  | None => None
  end.

(** [write(dstFormat, dst, color)]: the bytes stored at the front of
    [dst]. *)
Definition write (dstFormat : Format) (color : Vec4d) : list Z :=
  let sc := formatSwizzle true dstFormat color in
  ioFormat_write dstFormat sc.

(** [convert(dstFormat, dst, srcFormat, src)]. *)
Definition convert (dstFormat srcFormat : Format) (src : list Z)
  : option (list Z * list Z) :=
  match read srcFormat src with
  | Some (col, src) => Some (write dstFormat col, src)
  | None => None
  end.

End FormatIO.

(** ** Streams (stream.hpp) *)

(** The exceptions the sources throw. *)
Inductive exn := out_of_range | runtime_error | logic_error.

(** The result of a call: a value, an exception, undefined behaviour (a
    read outside a buffer), or a call that leaves the embedded sources
    (zlib). *)
Inductive outcome (A : Type) :=
| Ok (a : A)
| Throw (e : exn)
| Undefined
| External.
Arguments Ok {A} a.
Arguments Throw {A} e.
Arguments Undefined {A}.
Arguments External {A}.

Definition bind {A B : Type} (x : outcome A) (f : A -> outcome B) : outcome B :=
  match x with
  | Ok a => f a
  | Throw e => Throw e
  | Undefined => Undefined
  | External => External
  end.

Notation "x <- c ;; k" := (bind c (fun x => k))
  (at level 61, c at next level, right associativity).

Inductive Origin := set | curr | endo.

(** [std::clamp(v, lo, hi)]. *)
Definition clamp (v lo hi : Z) : Z :=
  if v <? lo then lo else if hi <? v then hi else v.

Module MemoryRead.

Record t := mk { buf_ : list Z; at_ : Z }.

Definition open (buf : list Z) : t := mk buf 0.

(** [readPartial(buf, size)]: the bytes copied, and the stream after. *)
Definition readPartial (s : t) (size : Z) : list Z * t :=
  let read :=
    clamp (signed 64 (Z.of_nat (length (buf_ s))) - signed 64 (at_ s))
          0 (signed 64 size) in
  (firstn (Z.to_nat read) (skipn (Z.to_nat (at_ s)) (buf_ s)),
   mk (buf_ s) (u64 (at_ s + read))).

(** [Read::read(buf, size)] throws unless [size] bytes were read. *)
Definition read (s : t) (size : Z) : outcome (list Z) * t :=
  let '(bytes, s') := readPartial s size in
  if Z.of_nat (length bytes) =? signed 64 size then (Ok bytes, s')
  else (Throw out_of_range, s').

Definition seek (s : t) (offset : Z) (origin : Origin) : t :=
  match origin with
  | set => mk (buf_ s) (u64 offset)
  | curr => mk (buf_ s) (u64 (at_ s + offset))
  | endo => mk (buf_ s) (u64 (Z.of_nat (length (buf_ s)) + offset))
  end.

Definition address (s : t) : Z := at_ s.


(** [readPartial(T& val)] for an object of [size] bytes: the bytes when
    the object was filled completely. *)
Definition readObject (s : t) (size : Z) : option (list Z) * t :=
  let '(bytes, s') := readPartial s size in
  if Z.of_nat (length bytes) =? signed 64 size then (Some bytes, s')
  else (None, s').

End MemoryRead.

(** A [Write] over a growing byte buffer, as a file opened for writing
    is: a write at the current address replaces what is there, extends the
    buffer, and never comes short. *)
Module Write.

Record t := mk { data : list Z; at_ : Z }.

Definition empty : t := mk [] 0.

Definition write (w : t) (bytes : list Z) : t :=
  let pos := Z.to_nat (at_ w) in
  let n := length bytes in
  let before := firstn pos (data w) in
  let gap := repeat 0 (pos - length (data w)) in
  mk (before ++ gap ++ bytes ++ skipn (pos + n) (data w))
     (at_ w + Z.of_nat n).

Definition seek (w : t) (offset : Z) (origin : Origin) : t :=
  match origin with
  | set => mk (data w) offset
  | curr => mk (data w) (at_ w + offset)
  | endo => mk (data w) (Z.of_nat (length (data w)) + offset)
  end.

Definition address (w : t) : Z := at_ w.

End Write.

(** ** Image providers (image.hpp, image.cpp) *)

Inductive ReadError :=
| ReadError_none
| ReadError_cantOpen
| ReadError_invalidType
| ReadError_internal
| ReadError_unexpectedEnd
| ReadError_invalidEndianess
| ReadError_unsupportedFormat
| ReadError_cantRepresent
| ReadError_empty.

Inductive WriteError :=
| WriteError_none
| WriteError_cantOpen
| WriteError_cantWrite
| WriteError_readError
| WriteError_unsupportedFormat
| WriteError_internal.

(** [class ImageProvider]: the span-returning [read] gives the bytes of
    the span, whose length is the span's size. *)
Module ImageProvider.

Record t := mk {
  size : Vec3ui;
  format : Format;
  layers : Z;
  mipLevels : Z;
  cubemap : bool;
  read : Z -> Z -> outcome (list Z)
}.

End ImageProvider.

(** A pointer into a byte buffer. *)
Record ptr := mkPtr { mem : list Z; off : Z }.

(** The span [{p, p + n}], undefined when it leaves the buffer. *)
Definition spanAt (p : ptr) (n : Z) : outcome (list Z) :=
  if (0 <=? off p) && (off p + n <=? Z.of_nat (length (mem p))) then
    Ok (firstn (Z.to_nat n) (skipn (Z.to_nat (off p)) (mem p)))
  else Undefined.

Module MemImageProvider.
Section Mem.
Context {fu : FormatUtils}.

Record t := mk {
  data_ : list ptr;
  cubemap_ : bool;
  layers_ : Z;
  mips_ : Z;
  size_ : Vec3ui;
  format_ : Format
}.

Definition faceSize (p : t) (mip : Z) : Z :=
  let w := Z.max (Z.shiftr (vx (size_ p)) mip) 1 in
  let h := Z.max (Z.shiftr (vy (size_ p)) mip) 1 in
  let d := Z.max (Z.shiftr (vz (size_ p)) mip) 1 in
  u32 (w * h * d * formatElementSize (format_ p)).

Definition read (p : t) (mip layer : Z) : outcome (list Z) :=
  let id := u32 (mip * layers_ p + layer) in
  match nth_error (data_ p) (Z.to_nat id) with
  | Some ref => spanAt ref (faceSize p mip)
  | None => Undefined
  end.

Definition provider (p : t) : ImageProvider.t :=
  ImageProvider.mk (size_ p) (format_ p) (layers_ p) (mips_ p) (cubemap_ p)
                   (read p).

End Mem.
End MemImageProvider.

Section Wrap.
Context {fu : FormatUtils}.

(** [wrapImage(size, format, span)]. *)
Definition wrapImage (size : Vec3ui) (format : Format) (span : list Z)
  : MemImageProvider.t :=
  MemImageProvider.mk [mkPtr span 0] false 1 1 size format.

(** [wrapImage(size, format, mips, layers, data, cubemap)] for one buffer
    per face (owned buffers or borrowed pointers), in the order of
    [data]. *)
Definition wrapImage_faces (size : Vec3ui) (format : Format) (mips layers : Z)
    (data : list (list Z)) (cubemap : bool) : MemImageProvider.t :=
  MemImageProvider.mk (map (fun d => mkPtr d 0) data) cubemap layers mips
                      size format.

(** [wrapImage(size, format, mips, layers, data, cubemap)] for one blob
    in the tight linear layout. *)
Definition wrapImage_tight (size : Vec3ui) (format : Format) (mips layers : Z)
    (data : list Z) (cubemap : bool) : MemImageProvider.t :=
  let fmtSize := formatElementSize format in
  MemImageProvider.mk
    (flat_map
       (fun m =>
          map (fun l =>
                 mkPtr data
                   (u64 (fmtSize * tightTexelNumber size layers m l 0 0 0 0)))
              (range 0 layers))
       (range 0 mips))
    cubemap layers mips size format.

End Wrap.

(** ** KTX1 (ktx.cpp) *)

(** The OpenGL enumerators that the format table names.  gl.hpp is not
    among the sources: their 32-bit values are an interface the codec is
    parametric in. *)
Inductive GLenum :=
  | GL_R8 | GL_RED | GL_UNSIGNED_BYTE | GL_RG8 | GL_RG | GL_RGB8 | GL_RGB
  | GL_RGBA8 | GL_RGBA | GL_SR8 | GL_SRGB8 | GL_SRGB8_ALPHA8 | GL_R8_SNORM
  | GL_BYTE | GL_RG8_SNORM | GL_RGB8_SNORM | GL_RGBA8_SNORM | GL_R8I
  | GL_RED_INTEGER | GL_RG8I | GL_RG_INTEGER | GL_RGB8I | GL_RGB_INTEGER
  | GL_RGBA8I | GL_RGBA_INTEGER | GL_R8UI | GL_RG8UI | GL_RGB8UI
  | GL_RGBA8UI | GL_R16 | GL_UNSIGNED_SHORT | GL_RG16 | GL_RGB16 | GL_RGBA16
  | GL_R16F | GL_HALF_FLOAT | GL_RG16F | GL_RGB16F | GL_RGBA16F
  | GL_R16_SNORM | GL_SHORT | GL_RG16_SNORM | GL_RGB16_SNORM | GL_R16I
  | GL_RG16I | GL_RGB16I | GL_RGBA16I | GL_R16UI | GL_RG16UI | GL_RGB16UI
  | GL_RGBA16UI | GL_R32F | GL_FLOAT | GL_RG32F | GL_RGBA32F | GL_R32I
  | GL_INT | GL_RG32I | GL_RGB32I | GL_RGBA32I | GL_R32UI | GL_UNSIGNED_INT
  | GL_RG32UI | GL_RGB32UI | GL_RGBA32UI | GL_RGB9_E5
  | GL_UNSIGNED_INT_5_9_9_9_REV | GL_COMPRESSED_RGBA_BPTC_UNORM
  | GL_COMPRESSED_SRGB_ALPHA_BPTC_UNORM.

Class GLValues := { gl : GLenum -> Z }.

Record FormatEntry := mkFormatEntry {
  glFormat : Z;
  glPixelFormat : Z;
  glPixelType : Z;
  vkFormat : Format
}.

Section FormatMap.
Context {glv : GLValues}.

Definition formatMap : list FormatEntry :=
  [
    mkFormatEntry (gl GL_R8) (gl GL_RED) (gl GL_UNSIGNED_BYTE) r8Unorm;
    mkFormatEntry (gl GL_RG8) (gl GL_RG) (gl GL_UNSIGNED_BYTE) r8g8Unorm;
    mkFormatEntry (gl GL_RGB8) (gl GL_RGB) (gl GL_UNSIGNED_BYTE) r8g8b8Unorm;
    mkFormatEntry (gl GL_RGBA8) (gl GL_RGBA) (gl GL_UNSIGNED_BYTE) r8g8b8a8Unorm;
    mkFormatEntry (gl GL_SR8) (gl GL_RED) (gl GL_UNSIGNED_BYTE) r8Srgb;
    mkFormatEntry (gl GL_SRGB8) (gl GL_RGB) (gl GL_UNSIGNED_BYTE) r8g8b8Srgb;
    mkFormatEntry (gl GL_SRGB8_ALPHA8) (gl GL_RGBA) (gl GL_UNSIGNED_BYTE) r8g8b8a8Srgb;
    mkFormatEntry (gl GL_R8_SNORM) (gl GL_RED) (gl GL_BYTE) r8Snorm;
    mkFormatEntry (gl GL_RG8_SNORM) (gl GL_RED) (gl GL_BYTE) r8g8Snorm;
    mkFormatEntry (gl GL_RGB8_SNORM) (gl GL_RED) (gl GL_BYTE) r8g8b8Snorm;
    mkFormatEntry (gl GL_RGBA8_SNORM) (gl GL_RED) (gl GL_BYTE) r8g8b8a8Snorm;
    mkFormatEntry (gl GL_R8I) (gl GL_RED_INTEGER) (gl GL_BYTE) r8Sint;
    mkFormatEntry (gl GL_RG8I) (gl GL_RG_INTEGER) (gl GL_BYTE) r8g8Sint;
    mkFormatEntry (gl GL_RGB8I) (gl GL_RGB_INTEGER) (gl GL_BYTE) r8g8b8Sint;
    mkFormatEntry (gl GL_RGBA8I) (gl GL_RGBA_INTEGER) (gl GL_BYTE) r8g8b8a8Sint;
    mkFormatEntry (gl GL_R8UI) (gl GL_RED_INTEGER) (gl GL_UNSIGNED_BYTE) r8Uint;
    mkFormatEntry (gl GL_RG8UI) (gl GL_RG_INTEGER) (gl GL_UNSIGNED_BYTE) r8g8Uint;
    mkFormatEntry (gl GL_RGB8UI) (gl GL_RGB_INTEGER) (gl GL_UNSIGNED_BYTE) r8g8b8Uint;
    mkFormatEntry (gl GL_RGBA8UI) (gl GL_RGBA_INTEGER) (gl GL_UNSIGNED_BYTE) r8g8b8a8Uint;
    mkFormatEntry (gl GL_R16) (gl GL_RED) (gl GL_UNSIGNED_SHORT) r16Unorm;
    mkFormatEntry (gl GL_RG16) (gl GL_RG) (gl GL_UNSIGNED_SHORT) r16g16Unorm;
    mkFormatEntry (gl GL_RGB16) (gl GL_RGB) (gl GL_UNSIGNED_SHORT) r16g16b16Unorm;
    mkFormatEntry (gl GL_RGBA16) (gl GL_RGBA) (gl GL_UNSIGNED_SHORT) r16g16b16a16Unorm;
    mkFormatEntry (gl GL_R16F) (gl GL_RED) (gl GL_HALF_FLOAT) r16Sfloat;
    mkFormatEntry (gl GL_RG16F) (gl GL_RG) (gl GL_HALF_FLOAT) r16g16Sfloat;
    mkFormatEntry (gl GL_RGB16F) (gl GL_RGB) (gl GL_HALF_FLOAT) r16g16b16Sfloat;
    mkFormatEntry (gl GL_RGBA16F) (gl GL_RGBA) (gl GL_HALF_FLOAT) r16g16b16a16Sfloat;
    mkFormatEntry (gl GL_R16_SNORM) (gl GL_RED) (gl GL_SHORT) r16Snorm;
    mkFormatEntry (gl GL_RG16_SNORM) (gl GL_RG) (gl GL_SHORT) r16g16Snorm;
    mkFormatEntry (gl GL_RGB16_SNORM) (gl GL_RGBA) (gl GL_SHORT) r16g16b16Snorm;
    mkFormatEntry (gl GL_R16I) (gl GL_RED_INTEGER) (gl GL_SHORT) r16Sint;
    mkFormatEntry (gl GL_RG16I) (gl GL_RG_INTEGER) (gl GL_SHORT) r16g16Sint;
    mkFormatEntry (gl GL_RGB16I) (gl GL_RGB_INTEGER) (gl GL_SHORT) r16g16b16Sint;
    mkFormatEntry (gl GL_RGBA16I) (gl GL_RGBA_INTEGER) (gl GL_SHORT) r16g16b16a16Sint;
    mkFormatEntry (gl GL_R16UI) (gl GL_RED_INTEGER) (gl GL_UNSIGNED_SHORT) r16Uint;
    mkFormatEntry (gl GL_RG16UI) (gl GL_RG_INTEGER) (gl GL_UNSIGNED_SHORT) r16g16Uint;
    mkFormatEntry (gl GL_RGB16UI) (gl GL_RGB_INTEGER) (gl GL_UNSIGNED_SHORT) r16g16b16Uint;
    mkFormatEntry (gl GL_RGBA16UI) (gl GL_RGBA_INTEGER) (gl GL_UNSIGNED_SHORT) r16g16b16a16Uint;
    mkFormatEntry (gl GL_R32F) (gl GL_RED) (gl GL_FLOAT) r32Sfloat;
    mkFormatEntry (gl GL_RG32F) (gl GL_RG) (gl GL_FLOAT) r32g32Sfloat;
    mkFormatEntry (gl GL_RGBA32F) (gl GL_RGBA) (gl GL_FLOAT) r32g32b32a32Sfloat;
    mkFormatEntry (gl GL_R32I) (gl GL_RED_INTEGER) (gl GL_INT) r32Sint;
    mkFormatEntry (gl GL_RG32I) (gl GL_RG_INTEGER) (gl GL_INT) r32g32Sint;
    mkFormatEntry (gl GL_RGB32I) (gl GL_RGB_INTEGER) (gl GL_INT) r32g32b32Sint;
    mkFormatEntry (gl GL_RGBA32I) (gl GL_RGBA_INTEGER) (gl GL_INT) r32g32b32a32Sint;
    mkFormatEntry (gl GL_R32UI) (gl GL_RED_INTEGER) (gl GL_UNSIGNED_INT) r32Uint;
    mkFormatEntry (gl GL_RG32UI) (gl GL_RG_INTEGER) (gl GL_UNSIGNED_INT) r32g32Uint;
    mkFormatEntry (gl GL_RGB32UI) (gl GL_RGB_INTEGER) (gl GL_UNSIGNED_INT) r32g32b32Uint;
    mkFormatEntry (gl GL_RGBA32UI) (gl GL_RGBA_INTEGER) (gl GL_UNSIGNED_INT) r32g32b32a32Uint;
    mkFormatEntry (gl GL_RGB9_E5) (gl GL_RGB) (gl GL_UNSIGNED_INT_5_9_9_9_REV) e5b9g9r9UfloatPack32;
    mkFormatEntry (gl GL_COMPRESSED_RGBA_BPTC_UNORM) (gl GL_RGBA) (0) bc7UnormBlock;
    mkFormatEntry (gl GL_COMPRESSED_SRGB_ALPHA_BPTC_UNORM) (gl GL_RGBA) (0) bc7SrgbBlock
  ].

Definition vulkanFromGLFormat (glFormat_ : Z) : Format :=
  match find (fun entry => glFormat entry =? glFormat_) formatMap with
  | Some entry => vkFormat entry
  | None => undefined
  end.

End FormatMap.

Definition ktxEndianess : Z := 0x04030201.
Definition ktxIdentifier : list Z :=
  [0xAB; 0x4B; 0x54; 0x58; 0x20; 0x31; 0x31; 0xBB; 0x0D; 0x0A; 0x1A; 0x0A].

Record KtxHeader := mkKtxHeader {
  endianness : Z;
  glType : Z;
  glTypeSize : Z;
  glFormat_ : Z;
  glInternalFormat : Z;
  glBaseInternalFormat : Z;
  pixelWidth : Z;
  pixelHeight : Z;
  pixelDepth : Z;
  numberArrayElements : Z;
  numberFaces : Z;
  numberMipmapLevels : Z;
  bytesKeyValueData : Z
}.

(** The object representation of a header: thirteen little-endian [u32]. *)
Definition KtxHeader_bytes (h : KtxHeader) : list Z :=
  flat_map (le_bytes 4)
    [endianness h; glType h; glTypeSize h; glFormat_ h; glInternalFormat h;
     glBaseInternalFormat h; pixelWidth h; pixelHeight h; pixelDepth h;
     numberArrayElements h; numberFaces h; numberMipmapLevels h;
     bytesKeyValueData h].

(** The [k]-th [u32] of an object representation. *)
Definition u32_at (bytes : list Z) (k : nat) : Z :=
  le_value (firstn 4 (skipn (4 * k) bytes)).

Definition KtxHeader_of_bytes (b : list Z) : KtxHeader :=
  mkKtxHeader (u32_at b 0) (u32_at b 1) (u32_at b 2) (u32_at b 3) (u32_at b 4)
              (u32_at b 5) (u32_at b 6) (u32_at b 7) (u32_at b 8) (u32_at b 9)
              (u32_at b 10) (u32_at b 11) (u32_at b 12).

Fixpoint list_eqb (a b : list Z) : bool :=
  match a, b with
  | [], [] => true
  | x :: a', y :: b' => (x =? y) && list_eqb a' b'
  | _, _ => false
  end.

Module KtxReader.
Section Reader.
Context {fu : FormatUtils}.

Record t := mk {
  format_ : Format;
  size_ : Vec3ui;
  mipLevels_ : Z;
  faces_ : Z;
  arrayElements_ : Z;
  dataBegin_ : Z;
  stream_ : MemoryRead.t
}.

Definition faceSize (r : t) (mip : Z) : Z := sizeBytes (size_ r) mip (format_ r).

Definition layers (r : t) : Z :=
  Z.max (u32 (faces_ r * Z.max (arrayElements_ r) 1)) 1.

Definition cubemap (r : t) : bool := faces_ r =? 6.

(** [offset(mip, layer)]; the build does not define [IMGIO_DEBUG], so the
    blocks that re-read the [imageSize] fields are not compiled. *)
Definition offset (r : t) (mip layer : Z) : Z :=
  let address :=
    fold_left
      (fun address i =>
         let faceSize := faceSize r i in
         let mipSize := u64 (layers r * u64 (align faceSize 4)) in
         let mipSize := u64 (align mipSize 4) in
         u64 (u64 (address + 4) + mipSize))
      (range 0 mip) (dataBegin_ r) in
  let byteSize := faceSize r mip in
  let faceSize := u64 (align byteSize 4) in
  let address := u64 (address + 4) in
  u64 (address + u64 (layer * faceSize)).

(** [read(mip, layer)]: the scratch buffer filled from the stream. *)
Definition read (r : t) (mip layer : Z) : outcome (list Z) :=
  let byteSize := faceSize r mip in
  let address := offset r mip layer in
  let s := MemoryRead.seek (stream_ r) address set in
  fst (MemoryRead.read s byteSize).

Definition provider (r : t) : ImageProvider.t :=
  ImageProvider.mk (size_ r) (format_ r) (layers r) (mipLevels_ r) (cubemap r)
                   (read r).

End Reader.
End KtxReader.

(** The [dlg_check] loop of [loadKtx] over the key/value pairs. *)
Inductive KeyValues :=
| kv_read (s : MemoryRead.t)
| kv_unexpectedEnd
| kv_rounds.

(** Every round reads at least four bytes or leaves the loop, so a loop
    over a buffer of [n] bytes takes fewer than [n + 1] rounds:
    [kv_rounds], the result of a loop cut short, does not occur with that
    many, as is proved below. *)
Fixpoint keyValues (rounds : nat) (s : MemoryRead.t) (bytesRead total : Z)
  : KeyValues :=
  match rounds with
  | O => kv_rounds
  | S rounds' =>
      if bytesRead <? total then
        match MemoryRead.readObject s 4 with
        | (Some b, s) =>
            let byteSize := le_value b in
            let bytesRead := u32 (bytesRead + u32 (align byteSize 4)) in
            match MemoryRead.readObject s byteSize with
            | (Some _, s) => keyValues rounds' s bytesRead total
            | (None, _) => kv_unexpectedEnd
            end
        | (None, _) => kv_unexpectedEnd
        end
      else kv_read s
  end.

Section Ktx.
Context {fu : FormatUtils} {glv : GLValues}.

(** Whether dlg compiles the [dlg_check] blocks. *)
Variable DLG_CHECK : bool.

(** [loadKtx(stream, reader)]; the provider is handed out on
    [ReadError::none] only. *)
Definition loadKtx (stream : MemoryRead.t) : ReadError * option KtxReader.t :=
  match MemoryRead.readObject stream 12 with
  | (None, _) => (ReadError_unexpectedEnd, None)
  | (Some identifier, stream) =>
  if negb (list_eqb identifier ktxIdentifier) then (ReadError_invalidType, None)
  else
  match MemoryRead.readObject stream 52 with
  | (None, _) => (ReadError_unexpectedEnd, None)
  | (Some hb, stream) =>
  let header := KtxHeader_of_bytes hb in
  if negb (endianness header =? ktxEndianess) then
    (ReadError_invalidEndianess, None)
  else if (1 <? pixelDepth header)
          && ((1 <? numberFaces header) || (1 <? numberArrayElements header))
  then (ReadError_cantRepresent, None)
  else if pixelWidth header =? 0 then (ReadError_empty, None)
  else
  let arrayElements := numberArrayElements header in
  let faces := Z.max (numberFaces header) 1 in
  let mipLevels := Z.max (numberMipmapLevels header) 1 in
  let size := mkVec3ui (pixelWidth header)
                       (Z.max (pixelHeight header) 1)
                       (Z.max (pixelDepth header) 1) in
  let format := vulkanFromGLFormat (glInternalFormat header) in
  if format =? undefined then (ReadError_unsupportedFormat, None)
  else
  let keysPos := MemoryRead.address stream in
  let checked :=
    if DLG_CHECK then
      keyValues (S (length (MemoryRead.buf_ stream))) stream 0
                (bytesKeyValueData header)
    else kv_read stream in
  match checked with
  | kv_read stream =>
      let dataBegin := u64 (keysPos + bytesKeyValueData header) in
      (ReadError_none,
       Some (KtxReader.mk format size mipLevels faces arrayElements dataBegin
                          stream))
  | _ => (ReadError_unexpectedEnd, None)
  end
  end
  end.

End Ktx.

(** How a statement of a writer ends: it goes on with a new state, the
    function returns an error code, or an exception leaves it. *)
Inductive step (S : Type) :=
| Continue (s : S)
| Return (e : WriteError)
| Raise (x : outcome WriteError).
Arguments Continue {S} s.
Arguments Return {S} e.
Arguments Raise {S} x.

(** The writers' running state: the stream and the byte count [off]. *)
Record wstate := mkW { out : Write.t; woff : Z }.

(** A counting loop whose body may return or throw; the state at the
    point of leaving is kept (the stream holds what was written). *)
Fixpoint loop {A : Type} (body : A -> wstate -> step wstate * wstate)
    (xs : list A) (st : wstate) : step wstate * wstate :=
  match xs with
  | [] => (Continue st, st)
  | x :: xs' =>
      match body x st with
      | (Continue st', _) => loop body xs' st'
      | stop => stop
      end
  end.

(** [write.write(zeroBytes, padding)] for [padding = align(off, 4u) - off]. *)
Definition padTo4 (st : wstate) : wstate :=
  let padding := u32 (u64 (align (woff st) 4) - woff st) in
  if 0 <? padding then
    mkW (Write.write (out st) (repeat 0 (Z.to_nat padding)))
        (u64 (woff st + padding))
  else st.

(** The faces [(l, f)] in the order of the nested loops. *)
Definition layerFaces (layers faces : Z) : list (Z * Z) :=
  flat_map (fun l => map (fun f => (l, f)) (range 0 faces)) (range 0 layers).

Section KtxWrite.
Context {fu : FormatUtils} {glv : GLValues}.

(** One face of [writeKtxThrow]: read, check the size, write, pad. *)
Definition writeKtxFace (image : ImageProvider.t) (m faces faceSize : Z)
    (lf : Z * Z) (st : wstate) : step wstate * wstate :=
  let '(l, f) := lf in
  match ImageProvider.read image m (u32 (l * faces + f)) with
  | Ok span =>
      if negb (Z.of_nat (length span) =? faceSize) then
        (Return WriteError_readError, st)
      else
        let st := mkW (Write.write (out st) span)
                      (u64 (woff st + Z.of_nat (length span))) in
        let st := padTo4 st in
        (Continue st, st)
  | other => (Raise (bind other (fun _ => Ok WriteError_none)), st)
  end.

(** One mip level of [writeKtxThrow]. *)
Definition writeKtxMip (image : ImageProvider.t) (size : Vec3ui)
    (layers faces fmtSize numberArrayElements_ : Z)
    (m : Z) (st : wstate) : step wstate * wstate :=
  let msize := mipSize size m in
  let faceSize := u32 (vx msize * vy msize * vz msize * fmtSize) in
  let metaSize :=
    if (numberArrayElements_ =? 0) && ImageProvider.cubemap image then faceSize
    else u32 (u32 (align faceSize 4) * layers * faces) in
  let st := mkW (Write.write (out st) (le_bytes 4 metaSize))
                (u64 (woff st + 4)) in
  match loop (writeKtxFace image m faces faceSize) (layerFaces layers faces) st with
  | (Continue st, _) => let st := padTo4 st in (Continue st, st)
  | stop => stop
  end.

(** [writeKtxThrow(write, image)]: the result and the stream after. *)
Definition writeKtxThrow (write : Write.t) (image : ImageProvider.t)
  : outcome WriteError * Write.t :=
  let write := Write.write write ktxIdentifier in
  let fmt := ImageProvider.format image in
  let size := ImageProvider.size image in
  let mips := Z.max (ImageProvider.mipLevels image) 1 in
  let layers := Z.max (ImageProvider.layers image) 1 in
  let fmtSize := formatElementSize fmt in
  let faces := if ImageProvider.cubemap image then 6 else 1 in
  let layers := if ImageProvider.cubemap image then layers / 6 else layers in
  let numberArrayElements_ := if 1 <? layers then layers else 0 in
  match find (fun ientry => vkFormat ientry =? fmt) formatMap with
  | None => (Ok WriteError_unsupportedFormat, write)
  | Some entry =>
      let header :=
        mkKtxHeader
          ktxEndianess
          (glPixelType entry)
          fmtSize
          (if glPixelType entry =? 0 then 0 else glPixelFormat entry)
          (glFormat entry)
          (glPixelFormat entry)
          (vx size)
          (if 1 <? vy size then vy size else 0)
          (if 1 <? vz size then vz size else 0)
          numberArrayElements_
          faces
          mips
          0 in
      let write := Write.write write (KtxHeader_bytes header) in
      let st := mkW write (Z.of_nat (length ktxIdentifier) + 52) in
      match loop (writeKtxMip image size layers faces fmtSize numberArrayElements_)
                 (range 0 mips) st with
      | (Continue st, _) => (Ok WriteError_none, out st)
      | (Return e, st) => (Ok e, out st)
      | (Raise x, st) => (x, out st)
      end
  end.

(** [writeKtx(write, img)]: a [std::runtime_error] becomes [cantWrite];
    any other exception leaves the function. *)
Definition writeKtx (write : Write.t) (img : ImageProvider.t)
  : outcome WriteError * Write.t :=
  match writeKtxThrow write img with
  | (Throw runtime_error, w) => (Ok WriteError_cantWrite, w)
  | r => r
  end.

End KtxWrite.

(** ** KTX2 (ktx2.cpp) *)

Record Ktx2Header := mkKtx2Header {
  vkFormat_ : Z;
  typeSize_ : Z;
  pixelWidth2 : Z;
  pixelHeight2 : Z;
  pixelDepth2 : Z;
  layerCount : Z;
  faceCount : Z;
  levelCount : Z;
  supercompression : Z;
  dfdByteOffset : Z;
  dfdByteLength : Z;
  kvdByteOffset : Z;
  kvdByteLength : Z;
  sgdByteOffset : Z;
  sgdByteLength : Z
}.

Definition Ktx2Header_bytes (h : Ktx2Header) : list Z :=
  flat_map (le_bytes 4)
    [vkFormat_ h; typeSize_ h; pixelWidth2 h; pixelHeight2 h; pixelDepth2 h;
     layerCount h; faceCount h; levelCount h; supercompression h;
     dfdByteOffset h; dfdByteLength h; kvdByteOffset h; kvdByteLength h;
     sgdByteOffset h; sgdByteLength h].

Definition Ktx2Header_of_bytes (b : list Z) : Ktx2Header :=
  mkKtx2Header (u32_at b 0) (u32_at b 1) (u32_at b 2) (u32_at b 3) (u32_at b 4)
               (u32_at b 5) (u32_at b 6) (u32_at b 7) (u32_at b 8) (u32_at b 9)
               (u32_at b 10) (u32_at b 11) (u32_at b 12) (u32_at b 13)
               (u32_at b 14).

(** [Ktx2LevelInfo]: three [u64]. *)
Record Ktx2LevelInfo := mkLevel {
  lvl_offset : Z;
  lvl_length : Z;
  lvl_uncompressedLength : Z
}.

Definition Ktx2LevelInfo_bytes (i : Ktx2LevelInfo) : list Z :=
  le_bytes 8 (lvl_offset i) ++ le_bytes 8 (lvl_length i)
  ++ le_bytes 8 (lvl_uncompressedLength i).

Definition Ktx2LevelInfo_of_bytes (b : list Z) : Ktx2LevelInfo :=
  mkLevel (le_value (firstn 8 b)) (le_value (firstn 8 (skipn 8 b)))
          (le_value (firstn 8 (skipn 16 b))).

Definition ktx2Identifier : list Z :=
  [0xAB; 0x4B; 0x54; 0x58; 0x20; 0x32; 0x30; 0xBB; 0x0D; 0x0A; 0x1A; 0x0A].

Module Ktx2Reader.
Section Reader.
Context {fu : FormatUtils}.

Record t := mk {
  format_ : Format;
  size_ : Vec3ui;
  faces_ : Z;
  layerCount_ : Z;
  levels_ : list Ktx2LevelInfo;
  initialOffset_ : Z;
  zlib_ : bool;
  stream_ : MemoryRead.t
}.

Definition faceSize (r : t) (mip : Z) : Z := sizeBytes (size_ r) mip (format_ r).

Definition mipLevels (r : t) : Z := u32 (Z.of_nat (length (levels_ r))).

Definition layers (r : t) : Z :=
  Z.max (u32 (faces_ r * Z.max (layerCount_ r) 1)) 1.

Definition cubemap (r : t) : bool := faces_ r =? 6.

(** [offset(mip, layer)]; [levels_[mip]] outside the vector is undefined. *)
Definition offset (r : t) (mip layer : Z) : outcome Z :=
  match nth_error (levels_ r) (Z.to_nat mip) with
  | Some lvl =>
      let byteSize := faceSize r mip in
      Ok (u64 (initialOffset_ r + lvl_offset lvl + u64 (byteSize * layer)))
  | None => Undefined
  end.

(** [read(mip, layer)]; a zlib-compressed file is decoded by zlib. *)
Definition read (r : t) (mip layer : Z) : outcome (list Z) :=
  if zlib_ r then External
  else
    let byteSize := faceSize r mip in
    address <- offset r mip layer ;;
    fst (MemoryRead.read (MemoryRead.seek (stream_ r) address set) byteSize).

Definition provider (r : t) : ImageProvider.t :=
  ImageProvider.mk (size_ r) (format_ r) (layers r) (mipLevels r) (cubemap r)
                   (read r).

End Reader.
End Ktx2Reader.

(** The level index of [loadKtx2]: [count] entries, each read whole. *)
Fixpoint readLevels (count : nat) (stream : MemoryRead.t)
  : option (list Ktx2LevelInfo * MemoryRead.t) :=
  match count with
  | O => Some ([], stream)
  | S count' =>
      match MemoryRead.readObject stream 24 with
      | (Some b, stream) =>
          match readLevels count' stream with
          | Some (rest, stream) => Some (Ktx2LevelInfo_of_bytes b :: rest, stream)
          | None => None
          end
      | (None, _) => None
      end
  end.

Section Ktx2.
Context {fu : FormatUtils}.

Definition loadKtx2 (stream : MemoryRead.t) : ReadError * option Ktx2Reader.t :=
  let initialOffset := MemoryRead.address stream in
  match MemoryRead.readObject stream 12 with
  | (None, _) => (ReadError_unexpectedEnd, None)
  | (Some identifier, stream) =>
  if negb (list_eqb identifier ktx2Identifier) then (ReadError_invalidType, None)
  else
  match MemoryRead.readObject stream 60 with
  | (None, _) => (ReadError_unexpectedEnd, None)
  | (Some hb, stream) =>
  let header := Ktx2Header_of_bytes hb in
  let format := vkFormat_ header in
  if format =? undefined then (ReadError_unsupportedFormat, None)
  else if pixelWidth2 header =? 0 then (ReadError_empty, None)
  else if negb (supercompression header =? 3)
          && negb (supercompression header =? 0)
  then (ReadError_unsupportedFormat, None)
  else
  let zlib := supercompression header =? 3 in
  let faceCount_ := if faceCount header =? 0 then 1 else faceCount header in
  match readLevels (Z.to_nat (levelCount header)) stream with
  | None => (ReadError_unexpectedEnd, None)
  | Some (levels, stream) =>
      (ReadError_none,
       Some (Ktx2Reader.mk format
               (mkVec3ui (pixelWidth2 header)
                         (Z.max (pixelHeight2 header) 1)
                         (Z.max (pixelDepth2 header) 1))
               faceCount_ (layerCount header) levels initialOffset zlib stream))
  end
  end
  end.

(** [typeSize(fmt)]. *)
Definition typeSize (fmt : Format) : Z :=
  if FormatIsCompressed fmt || (fmt =? undefined) then 1
  else if FormatIsPacked fmt then formatElementSize fmt
  else formatElementSize fmt / FormatComponentCount fmt.

(** The level index [writeKtx2Throw] writes first: every level right
    after the one before. *)
Definition writeLevelIndex (size : Vec3ui) (format : Format)
    (numLayers numFaces : Z) (m : Z) (st : wstate) : wstate :=
  let faceSize := sizeBytes size m format in
  let len := u64 (u64 (faceSize * numLayers) * numFaces) in
  let info := mkLevel (woff st) len len in
  mkW (Write.write (out st) (Ktx2LevelInfo_bytes info)) (u64 (woff st + len)).

(** One face of the uncompressed branch. *)
Definition writeKtx2Face (img : ImageProvider.t) (m numFaces faceSize : Z)
    (lf : Z * Z) (st : wstate) : step wstate * wstate :=
  let '(l, f) := lf in
  match ImageProvider.read img m (u32 (l * numFaces + f)) with
  | Ok span =>
      if negb (Z.of_nat (length span) =? faceSize) then
        (Return WriteError_readError, st)
      else
        let st := mkW (Write.write (out st) span)
                      (u64 (woff st + Z.of_nat (length span))) in
        (Continue st, st)
  | other => (Raise (bind other (fun _ => Ok WriteError_none)), st)
  end.

(** One mip level of the data loop: pad to [align(fmtSize, 4u)], then
    the faces; the zlib branch calls the compressor. *)
Definition writeKtx2Mip (img : ImageProvider.t) (size : Vec3ui) (format : Format)
    (numLayers numFaces fmtSize : Z) (useZlib : bool)
    (m : Z) (st : wstate) : step wstate * wstate :=
  let faceSize := sizeBytes size m format in
  let alignment := u32 (align fmtSize 4) in
  let padding := u32 (u64 (align (woff st) alignment) - woff st) in
  let st :=
    if 0 <? padding then
      mkW (Write.write (out st) (repeat 0 (Z.to_nat padding)))
          (u64 (woff st + padding))
    else st in
  if useZlib then (Raise External, st)
  else loop (writeKtx2Face img m numFaces faceSize)
            (layerFaces numLayers numFaces) st.

Definition writeKtx2Throw (write : Write.t) (img : ImageProvider.t)
    (useZlib : bool) : outcome WriteError * Write.t :=
  let write := Write.write write ktx2Identifier in
  let size := ImageProvider.size img in
  let format := ImageProvider.format img in
  let numMips := ImageProvider.mipLevels img in
  let numLayers := ImageProvider.layers img in
  let fmtSize := formatElementSize format in
  let numFaces := if ImageProvider.cubemap img then 6 else 1 in
  let numLayers := if ImageProvider.cubemap img then numLayers / 6 else numLayers in
  let header :=
    mkKtx2Header
      (u32 format)
      (typeSize format)
      (vx size)
      (if 1 <? vy size then vy size else 0)
      (if 1 <? vz size then vz size else 0)
      (if 1 <? numLayers then numLayers else 0)
      numFaces
      numMips
      (if useZlib then 3 else 0)
      0 0 0 0 0 0 in
  let write := Write.write write (Ktx2Header_bytes header) in
  let mipIndexStart := Z.of_nat (length ktx2Identifier) + 60 in
  let dataStart := u64 (mipIndexStart + 24 * numMips) in
  let st :=
    fold_left
      (fun st m => writeLevelIndex size format numLayers numFaces m st)
      (range 0 numMips) (mkW write dataStart) in
  let st := mkW (out st) dataStart in
  match loop (writeKtx2Mip img size format numLayers numFaces fmtSize useZlib)
             (range 0 numMips) st with
  | (Continue st, _) => (Ok WriteError_none, out st)
  | (Return e, st) => (Ok e, out st)
  | (Raise x, st) => (x, out st)
  end.

Definition writeKtx2 (write : Write.t) (img : ImageProvider.t) (useZlib : bool)
  : outcome WriteError * Write.t :=
  match writeKtx2Throw write img useZlib with
  | (Throw runtime_error, w) => (Ok WriteError_cantWrite, w)
  | r => r
  end.

End Ktx2.

(** ** PNG (png.cpp)

    libpng is outside the sources: [writePngThrow] is embedded as the
    calls it makes into libpng, on the path where libpng creates its
    structures and reports no error. *)

Inductive PNG_COLOR_TYPE :=
| PNG_COLOR_TYPE_GRAY
| PNG_COLOR_TYPE_RGB
| PNG_COLOR_TYPE_RGBA.

(** [PNG_COLOR_TYPE_RGB_ALPHA] is libpng's other name for
    [PNG_COLOR_TYPE_RGBA]. *)
Definition PNG_COLOR_TYPE_RGB_ALPHA : PNG_COLOR_TYPE := PNG_COLOR_TYPE_RGBA.

Inductive PngCall :=
| png_set_IHDR (width height bitDepth : Z) (type : PNG_COLOR_TYPE)
| png_write_info
| png_write_image (rows : list Z)
| png_write_end.

(** The colour type, bit depth and component count chosen for a format. *)
Definition pngLayout (fmt : Format) : option (PNG_COLOR_TYPE * Z * Z) :=
  if (fmt =? r8Unorm) || (fmt =? r8Srgb) then Some (PNG_COLOR_TYPE_GRAY, 8, 1)
  else if (fmt =? r8g8b8Unorm) || (fmt =? r8g8b8Srgb) then
    Some (PNG_COLOR_TYPE_RGB, 8, 3)
  else if (fmt =? r8g8b8a8Unorm) || (fmt =? r8g8b8a8Srgb) then
    Some (PNG_COLOR_TYPE_RGBA, 8, 4)
  else if fmt =? r16Unorm then Some (PNG_COLOR_TYPE_GRAY, 16, 1)
  else if fmt =? r16g16b16Unorm then Some (PNG_COLOR_TYPE_GRAY, 16, 3)
  else if fmt =? r16g16b16a16Unorm then Some (PNG_COLOR_TYPE_GRAY, 16, 4)
  else None.

Definition writePngThrow (img : ImageProvider.t)
  : outcome WriteError * list PngCall :=
  match pngLayout (ImageProvider.format img) with
  | None => (Ok WriteError_unsupportedFormat, [])
  | Some (type, bitDepth, comps) =>
      let s := ImageProvider.size img in
      let calls := [png_set_IHDR (vx s) (vy s) bitDepth type; png_write_info] in
      match ImageProvider.read img 0 0 with
      | Ok data =>
          if negb (Z.of_nat (length data) =? u32 (vx s * vy s * comps)) then
            (Ok WriteError_readError, calls)
          else
            let rows := map (fun y => u32 (y * vx s * comps)) (range 0 (vy s)) in
            (Ok WriteError_none, calls ++ [png_write_image rows; png_write_end])
      | other => (bind other (fun _ => Ok WriteError_none), calls)
      end
  end.

Definition writePng (img : ImageProvider.t) : outcome WriteError * list PngCall :=
  match writePngThrow img with
  | (Throw runtime_error, calls) => (Ok WriteError_cantWrite, calls)
  | r => r
  end.

(** The colour type of the IHDR that was set, if one was. *)
Definition ihdrColorType (calls : list PngCall) : option PNG_COLOR_TYPE :=
  match calls with
  | png_set_IHDR _ _ _ type :: _ => Some type
  | _ => None
  end.

(** ** Concrete instances of the parameters *)

(** The Vulkan metadata of the formats that the statements at concrete
    inputs use; format_utils.h itself is not among the sources.  A format
    outside the table is answered as one unknown to the format table
    (size 0, no extent). *)
Definition sampleElementSize : list (Format * Z) :=
  [ (r8Unorm, 1); (r8g8b8a8Unorm, 4); (r16g16b16Unorm, 6);
    (r16g16b16a16Unorm, 8); (bc1RgbSrgbBlock, 8); (bc7UnormBlock, 16) ].

Definition sampleBlockExtent : list (Format * (Z * Z * Z)) :=
  [ (r8Unorm, (1, 1, 1)); (r8g8b8a8Unorm, (1, 1, 1));
    (r16g16b16Unorm, (1, 1, 1)); (r16g16b16a16Unorm, (1, 1, 1));
    (bc1RgbSrgbBlock, (4, 4, 1)); (bc7UnormBlock, (4, 4, 1)) ].

Definition sampleUtils : FormatUtils := {|
  FormatElementSize f _ := switch f sampleElementSize 0;
  FormatHasDepth _ := false;
  FormatDepthSize _ := 0;
  FormatHasStencil _ := false;
  FormatStencilSize _ := 0;
  FormatTexelBlockExtent f := switch f sampleBlockExtent (0, 0, 0);
  FormatIsSRGB f := f =? bc1RgbSrgbBlock;
  FormatIsCompressed f := (f =? bc1RgbSrgbBlock) || (f =? bc7UnormBlock);
  FormatIsPacked _ := false;
  FormatComponentCount f :=
    switch f [(r8Unorm, 1); (r16g16b16Unorm, 3)] 4
|}.

(** The values the OpenGL registry gives the enumerators. *)
Definition registryValues : GLValues := {|
  gl e :=
    match e with
    | GL_R8 => 0x8229 | GL_RED => 0x1903 | GL_UNSIGNED_BYTE => 0x1401
    | GL_RG8 => 0x822B | GL_RG => 0x8227 | GL_RGB8 => 0x8051
    | GL_RGB => 0x1907 | GL_RGBA8 => 0x8058 | GL_RGBA => 0x1908
    | GL_SR8 => 0x8FBD | GL_SRGB8 => 0x8C41 | GL_SRGB8_ALPHA8 => 0x8C43
    | GL_R8_SNORM => 0x8F94 | GL_BYTE => 0x1400 | GL_RG8_SNORM => 0x8F95
    | GL_RGB8_SNORM => 0x8F96 | GL_RGBA8_SNORM => 0x8F97 | GL_R8I => 0x8231
    | GL_RED_INTEGER => 0x8D94 | GL_RG8I => 0x8237 | GL_RG_INTEGER => 0x8228
    | GL_RGB8I => 0x8D8F | GL_RGB_INTEGER => 0x8D98 | GL_RGBA8I => 0x8D8E
    | GL_RGBA_INTEGER => 0x8D99 | GL_R8UI => 0x8232 | GL_RG8UI => 0x8238
    | GL_RGB8UI => 0x8D7D | GL_RGBA8UI => 0x8D7C | GL_R16 => 0x822A
    | GL_UNSIGNED_SHORT => 0x1403 | GL_RG16 => 0x822C | GL_RGB16 => 0x8054
    | GL_RGBA16 => 0x805B | GL_R16F => 0x822D | GL_HALF_FLOAT => 0x140B
    | GL_RG16F => 0x822F | GL_RGB16F => 0x881B | GL_RGBA16F => 0x881A
    | GL_R16_SNORM => 0x8F98 | GL_SHORT => 0x1402 | GL_RG16_SNORM => 0x8F99
    | GL_RGB16_SNORM => 0x8F9A | GL_R16I => 0x8233 | GL_RG16I => 0x8239
    | GL_RGB16I => 0x8D89 | GL_RGBA16I => 0x8D88 | GL_R16UI => 0x8234
    | GL_RG16UI => 0x823A | GL_RGB16UI => 0x8D77 | GL_RGBA16UI => 0x8D76
    | GL_R32F => 0x822E | GL_FLOAT => 0x1406 | GL_RG32F => 0x8230
    | GL_RGBA32F => 0x8814 | GL_R32I => 0x8235 | GL_INT => 0x1404
    | GL_RG32I => 0x823B | GL_RGB32I => 0x8D83 | GL_RGBA32I => 0x8D82
    | GL_R32UI => 0x8236 | GL_UNSIGNED_INT => 0x1405 | GL_RG32UI => 0x823C
    | GL_RGB32UI => 0x8D71 | GL_RGBA32UI => 0x8D70 | GL_RGB9_E5 => 0x8C3D
    | GL_UNSIGNED_INT_5_9_9_9_REV => 0x8C3E
    | GL_COMPRESSED_RGBA_BPTC_UNORM => 0x8E8C
    | GL_COMPRESSED_SRGB_ALPHA_BPTC_UNORM => 0x8E8D
    end
|}.

(** The half type as IEEE binary16.  [std::pow] is not computed: no
    statement at a concrete input reaches it. *)
Definition sampleLib : EngineLib := {|
  pow _ _ := nan;
  f16_val bits := SF2Prim (SF_of_bits 16 10 bits);
  f16_of_double x :=
    bits_of_SF 16 10
      (match Prim2SF x with
       | S754_finite s m e => binary_round 11 16 s m e
       | sf => sf
       end)
|}.

(** ** The vocabulary of the statements *)

(** The block-compressed sRGB formats other than bc7. *)
Definition blockSrgbFormats : list Format :=
  [ bc1RgbSrgbBlock; bc1RgbaSrgbBlock; bc2SrgbBlock; bc3SrgbBlock;
    etc2R8g8b8SrgbBlock; etc2R8g8b8a1SrgbBlock; etc2R8g8b8a8SrgbBlock;
    astc4x4SrgbBlock; astc5x4SrgbBlock; astc5x5SrgbBlock; astc6x5SrgbBlock;
    astc6x6SrgbBlock; astc8x5SrgbBlock; astc8x6SrgbBlock; astc8x8SrgbBlock;
    astc10x5SrgbBlock; astc10x6SrgbBlock; astc10x8SrgbBlock;
    astc10x10SrgbBlock; astc12x10SrgbBlock; astc12x12SrgbBlock;
    pvrtc12bppSrgbBlockIMG; pvrtc14bppSrgbBlockIMG; pvrtc22bppSrgbBlockIMG;
    pvrtc24bppSrgbBlockIMG ].

Definition isByte (x : Z) : Prop := 0 <= x < 256.

(** The bytes a stream has left. *)
Definition remaining (s : MemoryRead.t) : Z :=
  Z.of_nat (length (skipn (Z.to_nat (MemoryRead.at_ s)) (MemoryRead.buf_ s))).

Definition KtxHeader_fields (h : KtxHeader) : list Z :=
  [endianness h; glType h; glTypeSize h; glFormat_ h; glInternalFormat h;
   glBaseInternalFormat h; pixelWidth h; pixelHeight h; pixelDepth h;
   numberArrayElements h; numberFaces h; numberMipmapLevels h;
   bytesKeyValueData h].

(** Every field of the header is a [u32]. *)
Definition KtxHeader_wf (h : KtxHeader) : Prop :=
  Forall (fun v => 0 <= v < 2 ^ 32) (KtxHeader_fields h).

(** The header passes the checks of [loadKtx]. *)
Definition KtxHeader_accepted {glv : GLValues} (h : KtxHeader) : Prop :=
  endianness h = ktxEndianess
  /\ ~ (1 < pixelDepth h /\ (1 < numberFaces h \/ 1 < numberArrayElements h))
  /\ pixelWidth h <> 0
  /\ vulkanFromGLFormat (glInternalFormat h) <> undefined.

(** A KTX1 file: identifier, header, and what follows the header. *)
Definition ktxFile (h : KtxHeader) (rest : list Z) : list Z :=
  ktxIdentifier ++ KtxHeader_bytes h ++ rest.

(** The key/value check of [loadKtx] on a file, where dlg compiles it,
    reads on to the stream [s]. *)
Definition keyValuesAccepted (DLG_CHECK : bool) (file : list Z) (h : KtxHeader)
    (s : MemoryRead.t) : Prop :=
  (if DLG_CHECK then
     keyValues (S (length file)) (MemoryRead.mk file 64) 0 (bytesKeyValueData h)
   else kv_read (MemoryRead.mk file 64))
  = kv_read s.

(** The reader that [loadKtx] fills from an accepted header [h], with
    the stream [s] the key/value check leaves. *)
Definition loadedReader {glv : GLValues} (h : KtxHeader) (s : MemoryRead.t)
  : KtxReader.t :=
  KtxReader.mk (vulkanFromGLFormat (glInternalFormat h))
               (mkVec3ui (pixelWidth h) (Z.max (pixelHeight h) 1)
                         (Z.max (pixelDepth h) 1))
               (Z.max (numberMipmapLevels h) 1)
               (Z.max (numberFaces h) 1)
               (numberArrayElements h)
               (64 + bytesKeyValueData h)
               s.

(** One key/value pair as the KTX1 format lays it out: the size field 8
    and the eight bytes [k\0v\0\0\0\0\0]; twelve bytes of key/value
    data. *)
Definition keyValue10 : list Z := le_bytes 4 8 ++ [107; 0; 118; 0; 0; 0; 0; 0].

(** The 1x1 RGBA8 image of the KTX1 scenario, and the header
    [writeKtxThrow] builds for it. *)
Definition face6 : list Z := [0x11; 0x22; 0x33; 0x44].

Definition provider6 {fu : FormatUtils} : ImageProvider.t :=
  MemImageProvider.provider (wrapImage (mkVec3ui 1 1 1) r8g8b8a8Unorm face6).

Definition header6 {glv : GLValues} : KtxHeader :=
  mkKtxHeader ktxEndianess (gl GL_UNSIGNED_BYTE) 4
              (if gl GL_UNSIGNED_BYTE =? 0 then 0 else gl GL_RGBA)
              (gl GL_RGBA8) (gl GL_RGBA) 1 0 0 0 1 1 0.

(** The same header with twelve bytes of key/value data. *)
Definition header10 {glv : GLValues} : KtxHeader :=
  mkKtxHeader ktxEndianess (gl GL_UNSIGNED_BYTE) 4
              (if gl GL_UNSIGNED_BYTE =? 0 then 0 else gl GL_RGBA)
              (gl GL_RGBA8) (gl GL_RGBA) 1 0 0 0 1 1 12.

(** A 2x1 [r8Unorm] image with two mip levels, the header
    [writeKtx2Throw] builds for it, and the file it writes: the level
    index places level 1 at byte 122, the data loop writes it at byte
    124. *)
Definition provider3 {fu : FormatUtils} : ImageProvider.t :=
  MemImageProvider.provider
    (wrapImage_faces (mkVec3ui 2 1 1) r8Unorm 2 1 [[1; 2]; [3]] false).

Definition header3 {fu : FormatUtils} : Ktx2Header :=
  mkKtx2Header r8Unorm (typeSize r8Unorm) 2 0 0 0 1 2 0 0 0 0 0 0 0.

Definition file3 {fu : FormatUtils} : list Z :=
  ktx2Identifier ++ Ktx2Header_bytes header3
  ++ Ktx2LevelInfo_bytes (mkLevel 120 2 2)
  ++ Ktx2LevelInfo_bytes (mkLevel 122 1 1)
  ++ [1; 2] ++ [0; 0] ++ [3].

(** A 1x1 [r16g16b16Unorm] image with its six bytes. *)
Definition provider8 {fu : FormatUtils} : ImageProvider.t :=
  MemImageProvider.provider
    (wrapImage (mkVec3ui 1 1 1) r16g16b16Unorm [1; 2; 3; 4; 5; 6]).

(** A 1x1 image of a format the KTX1 table does not list. *)
Definition provider9 {fu : FormatUtils} : ImageProvider.t :=
  MemImageProvider.provider (wrapImage (mkVec3ui 1 1 1) d16Unorm [0; 0]).

(** ** The format engine, component by component *)

(** A component [raw] of type [T], divided by [Fac] as
    [FormatReader::call] does and converted back as [FormatWriter::call]
    does. *)
Definition plainComponent {lib : EngineLib} (T : CompType) (Fac : Z) (raw : Z) : Z :=
  double_to_comp T
    (double_of_Z Fac * (comp_to_double T raw / double_of_Z Fac))%float.

(** A field of [FirstBits] bits as [unpack] converts it, and a component
    as [pack] converts it to the field it ors in. *)
Definition unpackField (Norm Signed : bool) (FirstBits : Z) (valUint : Z) : double :=
  let limit := u32 (Z.shiftl 1 FirstBits) in
  let mask := u32 (limit - 1) in
  let converted := double_of_Z valUint in
  let halfLimit := limit / 2 in
  let converted :=
    if Signed then (converted - double_of_Z halfLimit)%float else converted in
  let mask := if Signed then u32 (halfLimit - 1) else mask in
  if Norm then (converted / double_of_Z mask)%float else converted.

Definition packField (Norm Signed : bool) (FirstBits : Z) (converted : double) : Z :=
  let limit := u32 (Z.shiftl 1 FirstBits) in
  let mask := u32 (limit - 1) in
  let converted :=
    if Norm then (converted * double_of_Z mask)%float else converted in
  let signFac := if Norm then 0.5%float else 1%float in
  let converted :=
    if Signed then
      (signFac * converted + double_of_Z (Z.shiftr limit 1))%float
    else converted in
  Z.land (u32 (Ztrunc converted)) mask.

(** The values [v, v + 1, ..., v + n - 1] all pass [p]. *)
Fixpoint belowFrom (p : Z -> bool) (n : nat) (v : Z) : bool :=
  match n with
  | O => true
  | S n' => p v && belowFrom p n' (v + 1)
  end.

(** The values [0 .. n - 1] all pass [p]. *)
Definition below (n : Z) (p : Z -> bool) : bool := belowFrom p (Z.to_nat n) 0.

(** Every value of a field of [bits] bits is converted back to itself. *)
Definition fieldExact (Norm Signed : bool) (bits : Z) : bool :=
  below (2 ^ bits)
    (fun v => packField Norm Signed bits (unpackField Norm Signed bits v) =? v).

Definition sumBits (Bits : list Z) : Z := fold_right Z.add 0 Bits.

(** The codecs with one-byte components, and the packed codecs; sRGB and
    packed SNORM apart. *)
Definition byteOrPacked (c : Codec) : bool :=
  match c with
  | Plain _ (U8 | I8) _ srgb => negb srgb
  | Pack (UNORM | UINT | SINT | USCALED | SSCALED) _ => true
  | _ => false
  end.

(** The bytes of a texel. *)
Definition texelBytes (c : Codec) : nat :=
  match c with
  | Plain N T _ _ => (N * sizeofT T)%nat
  | Pack _ Bits => FormatReader.packedBytes Bits
  | D16S8 => 3
  | D24S8 | X8D24 | E5B9G9R9 => 4
  | D32S8 => 5
  | NotSupported => 0
  end.

(** The widths of the fields of the packed formats. *)
Definition fieldWidths : list Z := [1; 2; 4; 5; 6; 8; 10].

(** What the round trip takes from the table of [ioFormat]: at most four
    components or fields; [u8] components with the factor 255 or 1 and
    [i8] components with the factor 127 or 1; fields of the widths above
    that fill the packed word. *)
Definition exactCodec (c : Codec) : bool :=
  match c with
  | Plain N T Fac srgb =>
      negb srgb && (N <=? 4)%nat
      && match T with
         | U8 => (Fac =? 255) || (Fac =? 1)
         | I8 => (Fac =? 127) || (Fac =? 1)
         | _ => false
         end
  | Pack type Bits =>
      negb (packSRGB type) && negb (packNorm type && packSigned type)
      && (length Bits <=? 4)%nat
      && (8 * Z.of_nat (FormatReader.packedBytes Bits) =? sumBits Bits)
      && forallb (fun b => existsb (Z.eqb b) fieldWidths) Bits
  | _ => false
  end.

(** Whether [(A, B, C, D)] is a permutation of the four indices. *)
Definition swizzlePermutes (s : option (nat * nat * nat * nat)) : bool :=
  match s with
  | None => true
  | Some (A, B, C, D) =>
      forallb (fun i => existsb (Nat.eqb i) [A; B; C; D]) [0; 1; 2; 3]%nat
  end.

(** ** The tight layout, in sums *)

(** The texels of one mip level of all layers, as the loops of
    [tightTexelCount] and [tightTexelNumber] compute them (in
    [unsigned]), and their sum over a list of levels, not wrapped. *)
Definition mipTexels (extent : Vec3ui) (numLayers i : Z) : Z :=
  let ie := mipSize extent i in
  u32 (vx ie * vy ie * vz ie * numLayers).

Definition texelSum (extent : Vec3ui) (numLayers : Z) (mips : list Z) : Z :=
  fold_right (fun i acc => mipTexels extent numLayers i + acc) 0 mips.

(** ** The layout of a KTX1 file, in sums *)

(** The bytes of mip level [i] in a KTX1 file as [KtxReader] expects
    them: the [imageSize] field and the faces, each padded to four
    bytes. *)
Definition ktxLevelBytes {fu : FormatUtils} (r : KtxReader.t) (i : Z) : Z :=
  4 + KtxReader.layers r * align (KtxReader.faceSize r i) 4.

(** Where the face [(mip, layer)] begins, not wrapped. *)
Definition ktxFaceOffset {fu : FormatUtils} (r : KtxReader.t) (mip layer : Z) : Z :=
  KtxReader.dataBegin_ r
  + fold_right (fun i acc => ktxLevelBytes r i + acc) 0 (range 0 mip)
  + 4 + layer * align (KtxReader.faceSize r mip) 4.

(** A writer that stands at the end of what it has written, as one that
    was only written to does, and whose byte count is the address. *)
Definition atEnd (st : wstate) : Prop :=
  Write.at_ (out st) = Z.of_nat (length (Write.data (out st)))
  /\ woff st = Z.of_nat (length (Write.data (out st))).

(** The bytes [span] stand at [pos] in [data]. *)
Definition placed (data : list Z) (pos : Z) (span : list Z) : Prop :=
  firstn (length span) (skipn (Z.to_nat pos) data) = span.

(** A state that a writer reaches from another by writing at the end. *)
Definition extends (st st' : wstate) : Prop :=
  Write.at_ (out st) = Z.of_nat (length (Write.data (out st))) ->
  Write.at_ (out st') = Z.of_nat (length (Write.data (out st')))
  /\ exists more, Write.data (out st') = Write.data (out st) ++ more.

(** The size of a face of mip level [m] as [writeKtxThrow] computes it,
    and the bytes the level takes in the file. *)
Definition writtenFaceSize (size : Vec3ui) (fmtSize m : Z) : Z :=
  let msize := mipSize size m in
  u32 (vx msize * vy msize * vz msize * fmtSize).

Definition writtenLevelBytes (size : Vec3ui) (fmtSize count m : Z) : Z :=
  4 + count * align (writtenFaceSize size fmtSize m) 4.

(** Whether the numbers of a list are pairwise distinct. *)
Fixpoint distinct (l : list Z) : bool :=
  match l with
  | [] => true
  | x :: l' => negb (existsb (Z.eqb x) l') && distinct l'
  end.

(** A loop of a writer that was left early was left with an error. *)
Definition failed (r : step wstate) : Prop :=
  match r with
  | Continue _ => True
  | Return e => e <> WriteError_none
  | Raise x => forall e, x <> Ok e
  end.

(** Whether the first component that [read] gives for the one-byte texel
    [b] of format [f] lies within [lo] and [hi]. *)
Definition redWithin {lib : EngineLib} (f : Format) (lo hi : double) (b : Z) : bool :=
  match read f [b] with
  | Some (v, []) => PrimFloat.leb lo (c0 v) && PrimFloat.leb (c0 v) hi
  | _ => false
  end.

(** ** The layout of a KTX2 file, in sums *)

(** The length [writeKtx2Throw] enters for mip level [m] in the level
    index. *)
Definition ktx2LevelLength {fu : FormatUtils} (size : Vec3ui) (format : Format)
    (numLayers numFaces m : Z) : Z :=
  u64 (u64 (sizeBytes size m format * numLayers) * numFaces).

(** The level index [writeKtx2Throw] writes for the levels [ms] when the
    first of them is to begin at [off]. *)
Fixpoint levelIndex {fu : FormatUtils} (size : Vec3ui) (format : Format)
    (numLayers numFaces : Z) (ms : list Z) (off : Z) : list Ktx2LevelInfo :=
  match ms with
  | [] => []
  | m :: ms' =>
      let len := ktx2LevelLength size format numLayers numFaces m in
      mkLevel off len len
      :: levelIndex size format numLayers numFaces ms' (u64 (off + len))
  end.

(** Every field of the header is a [u32]. *)
Definition Ktx2Header_wf (h : Ktx2Header) : Prop :=
  Forall (fun v => 0 <= v < 2 ^ 32)
    [vkFormat_ h; typeSize_ h; pixelWidth2 h; pixelHeight2 h; pixelDepth2 h;
     layerCount h; faceCount h; levelCount h; supercompression h;
     dfdByteOffset h; dfdByteLength h; kvdByteOffset h; kvdByteLength h;
     sgdByteOffset h; sgdByteLength h].

(** Every field of a level of the index is a [u64]. *)
Definition Ktx2LevelInfo_wf (i : Ktx2LevelInfo) : Prop :=
  0 <= lvl_offset i < 2 ^ 64
  /\ 0 <= lvl_length i < 2 ^ 64
  /\ 0 <= lvl_uncompressedLength i < 2 ^ 64.


(** The texels of the mip levels [mips] of all layers, not wrapped. *)
Definition texelsExact (extent : Vec3ui) (numLayers : Z) (mips : list Z) : Z :=
  fold_right
    (fun i acc =>
       vx (mipSize extent i) * vy (mipSize extent i) * vz (mipSize extent i)
       * numLayers + acc)
    0 mips.

(** ** Integers, bytes and streams *)

Lemma u32_range (x : Z) : 0 <= u32 x < 2 ^ 32.
Proof. unfold u32. apply Z.mod_pos_bound. reflexivity. Qed.

Lemma u64_range (x : Z) : 0 <= u64 x < 2 ^ 64.
Proof. unfold u64. apply Z.mod_pos_bound. reflexivity. Qed.

Lemma u64_small (x : Z) : 0 <= x < 2 ^ 64 -> u64 x = x.
Proof. intros H. unfold u64. apply Z.mod_small. exact H. Qed.

Lemma u32_small (x : Z) : 0 <= x < 2 ^ 32 -> u32 x = x.
Proof. intros H. unfold u32. apply Z.mod_small. exact H. Qed.

Lemma signed64_small (x : Z) : 0 <= x < 2 ^ 63 -> signed 64 x = x.
Proof.
  intros H. unfold signed. rewrite Z.mod_small by lia.
  change (64 - 1) with 63.
  destruct (Z.ltb_spec x (2 ^ 63)); [ reflexivity | lia ].
Qed.

(** A [u32] is the value of its four little-endian bytes. *)
Lemma le_value_le_bytes4 (v : Z) :
  0 <= v < 2 ^ 32 -> le_value (le_bytes 4 v) = v.
Proof.
  intros H. cbv [le_bytes le_value map seq fold_right].
  change (8 * Z.of_nat 0) with 0. change (8 * Z.of_nat 1) with 8.
  change (8 * Z.of_nat 2) with 16. change (8 * Z.of_nat 3) with 24.
  rewrite !Z.shiftr_div_pow2 by lia.
  change (2 ^ 0) with 1. change (2 ^ 8) with 256.
  change (2 ^ 16) with 65536. change (2 ^ 24) with 16777216.
  change (2 ^ 32) with 4294967296 in H.
  rewrite Z.div_1_r.
  pose proof (Z.div_mod v 256 ltac:(lia)).
  pose proof (Z.mod_pos_bound v 256 ltac:(lia)).
  pose proof (Z.div_mod (v / 256) 256 ltac:(lia)).
  pose proof (Z.mod_pos_bound (v / 256) 256 ltac:(lia)).
  pose proof (Z.div_mod (v / 256 / 256) 256 ltac:(lia)).
  pose proof (Z.mod_pos_bound (v / 256 / 256) 256 ltac:(lia)).
  replace (v / 65536) with (v / 256 / 256) by (rewrite Z.div_div by lia; reflexivity).
  replace (v / 16777216) with (v / 256 / 256 / 256)
    by (rewrite !Z.div_div by lia; reflexivity).
  assert (0 <= v / 256 / 256 / 256 < 256).
  { split.
    - apply Z.div_pos; [ apply Z.div_pos; [ apply Z.div_pos |] |]; lia.
    - apply Z.div_lt_upper_bound; [ lia |].
      apply Z.div_lt_upper_bound; [ lia |].
      apply Z.div_lt_upper_bound; lia. }
  rewrite (Z.mod_small (v / 256 / 256 / 256) 256) by lia.
  lia.
Qed.

Lemma length_le_bytes (n : nat) (v : Z) : length (le_bytes n v) = n.
Proof. unfold le_bytes. rewrite length_map, length_seq. reflexivity. Qed.

Lemma le_value_range (b : list Z) :
  Forall isByte b -> 0 <= le_value b < 256 ^ Z.of_nat (length b).
Proof.
  induction 1 as [| x b Hx _ IH]; cbn [le_value fold_right length].
  - change (256 ^ Z.of_nat 0) with 1. lia.
  - fold (le_value b). rewrite Nat2Z.inj_succ, Z.pow_succ_r by lia.
    unfold isByte in Hx. nia.
Qed.

Lemma list_eqb_refl (l : list Z) : list_eqb l l = true.
Proof.
  induction l as [| x l IH]; simpl; [ reflexivity | ].
  rewrite Z.eqb_refl. exact IH.
Qed.

Lemma Forall_firstn_skipn {A : Type} (P : A -> Prop) (l : list A) (i j : nat) :
  Forall P l -> Forall P (firstn i (skipn j l)).
Proof.
  intros H.
  assert (Hs : Forall P (skipn j l)).
  { revert j. induction H as [| x l Hx Hl IH]; intros [| j]; cbn [skipn];
      [ constructor | constructor | constructor; assumption | apply IH ]. }
  clear H. revert i.
  induction Hs as [| x l' Hx _ IH]; intros [| i]; cbn [firstn];
    [ constructor | constructor | constructor | constructor; [ exact Hx | apply IH ] ].
Qed.

(** Reading an object that the buffer holds in full. *)
Lemma readObject_full (buf : list Z) (at_ n : Z) :
  0 <= at_ -> 0 <= n ->
  at_ + n <= Z.of_nat (length buf) ->
  Z.of_nat (length buf) < 2 ^ 63 ->
  MemoryRead.readObject (MemoryRead.mk buf at_) n
  = (Some (firstn (Z.to_nat n) (skipn (Z.to_nat at_) buf)),
     MemoryRead.mk buf (at_ + n)).
Proof.
  intros Hat Hn Hfit Hlen.
  unfold MemoryRead.readObject, MemoryRead.readPartial.
  cbn [MemoryRead.buf_ MemoryRead.at_].
  rewrite !signed64_small by lia.
  unfold clamp.
  destruct (Z.ltb_spec (Z.of_nat (length buf) - at_) 0); [ lia | ].
  assert (Hlen' : length (firstn (Z.to_nat n) (skipn (Z.to_nat at_) buf)) = Z.to_nat n).
  { rewrite length_firstn, length_skipn. lia. }
  destruct (Z.ltb_spec n (Z.of_nat (length buf) - at_)).
  - rewrite Hlen'. rewrite Z2Nat.id by lia. rewrite Z.eqb_refl.
    rewrite u64_small by (change (2 ^ 64) with (2 * 2 ^ 63); lia). reflexivity.
  - assert (Heq : Z.of_nat (length buf) - at_ = n) by lia.
    rewrite Heq. rewrite Hlen'. rewrite Z2Nat.id by lia. rewrite Z.eqb_refl.
    rewrite u64_small by (change (2 ^ 64) with (2 * 2 ^ 63); lia). reflexivity.
Qed.


(** No read changes the buffer of a stream. *)
Lemma readObject_buf (s s' : MemoryRead.t) (n : Z) (r : option (list Z)) :
  MemoryRead.readObject s n = (r, s') -> MemoryRead.buf_ s' = MemoryRead.buf_ s.
Proof.
  unfold MemoryRead.readObject, MemoryRead.readPartial.
  destruct (_ =? _); intros H; inversion H; reflexivity.
Qed.

(** A successful read of an object advances the stream by its size. *)
Lemma readObject_advances (s s' : MemoryRead.t) (n : Z) (b : list Z) :
  0 <= MemoryRead.at_ s < 2 ^ 63 ->
  Z.of_nat (length (MemoryRead.buf_ s)) < 2 ^ 63 ->
  0 <= n < 2 ^ 63 ->
  MemoryRead.readObject s n = (Some b, s') ->
  b = firstn (Z.to_nat n) (skipn (Z.to_nat (MemoryRead.at_ s)) (MemoryRead.buf_ s))
  /\ Z.of_nat (length b) = n
  /\ 0 <= MemoryRead.at_ s' < 2 ^ 63
  /\ remaining s' = remaining s - n.
Proof.
  intros Hat Hlen Hn.
  unfold MemoryRead.readObject, MemoryRead.readPartial, remaining.
  destruct s as [buf at_]. cbn [MemoryRead.buf_ MemoryRead.at_] in *.
  rewrite (signed64_small n) by lia.
  rewrite (signed64_small (Z.of_nat (length buf))) by lia.
  rewrite (signed64_small at_) by lia.
  set (read := clamp (Z.of_nat (length buf) - at_) 0 n).
  assert (Hread : 0 <= read <= n).
  { subst read. unfold clamp.
    destruct (Z.ltb_spec (Z.of_nat (length buf) - at_) 0); [ lia | ].
    destruct (Z.ltb_spec n (Z.of_nat (length buf) - at_)); lia. }
  destruct (Z.eqb_spec
              (Z.of_nat (length (firstn (Z.to_nat read) (skipn (Z.to_nat at_) buf)))) n)
    as [Heq | Hne]; [ | discriminate ].
  intros Hres. inversion Hres; subst b s'. clear Hres.
  cbn [MemoryRead.buf_ MemoryRead.at_].
  pose proof Heq as Heq'.
  rewrite length_firstn, length_skipn in Heq'.
  assert (Hr : read = n) by lia.
  rewrite Hr in *.
  assert (Hfit : n = 0 \/ at_ + n <= Z.of_nat (length buf)) by lia.
  rewrite u64_small by (change (2 ^ 64) with (2 * 2 ^ 63); lia).
  rewrite !length_skipn. repeat split; try lia; try reflexivity.
Qed.

(** ** The memory stream *)

(** [readPartial] reads what is asked for or what is left. *)
Lemma readPartial_min (buf : list Z) (at_ n : Z) :
  0 <= at_ < 2 ^ 63 ->
  0 <= n < 2 ^ 63 ->
  Z.of_nat (length buf) < 2 ^ 63 ->
  let got := Z.min n (Z.max (Z.of_nat (length buf) - at_) 0) in
  let bytes := firstn (Z.to_nat got) (skipn (Z.to_nat at_) buf) in
  MemoryRead.readPartial (MemoryRead.mk buf at_) n
  = (bytes, MemoryRead.mk buf (at_ + got))
  /\ Z.of_nat (length bytes) = got.
Proof.
  intros Hat Hn Hlen.
  assert (Hclamp : clamp (Z.of_nat (length buf) - at_) 0 n
                   = Z.min n (Z.max (Z.of_nat (length buf) - at_) 0)).
  { unfold clamp.
    destruct (Z.ltb_spec (Z.of_nat (length buf) - at_) 0); [ lia | ].
    destruct (Z.ltb_spec n (Z.of_nat (length buf) - at_)); lia. }
  cbv zeta. split.
  - unfold MemoryRead.readPartial. cbn [MemoryRead.buf_ MemoryRead.at_].
    rewrite !signed64_small by lia.
    rewrite Hclamp.
    rewrite u64_small by (change (2 ^ 64) with (2 * 2 ^ 63); lia).
    reflexivity.
  - rewrite length_firstn, length_skipn. lia.
Qed.


(** ** The key/value loop *)


(** X3: the loop over the key/value pairs ends within the rounds that
    [loadKtx] gives it: every round that goes on has read four bytes, so
    on a buffer of bytes with fewer than [4 * rounds] bytes left the
    result is never [kv_rounds]. *)
Theorem keyValues_rounds (rounds : nat) (s : MemoryRead.t) (bytesRead total : Z) :
  Forall isByte (MemoryRead.buf_ s) ->
  0 <= MemoryRead.at_ s < 2 ^ 63 ->
  Z.of_nat (length (MemoryRead.buf_ s)) < 2 ^ 63 ->
  remaining s < 4 * Z.of_nat rounds ->
  keyValues rounds s bytesRead total <> kv_rounds.
Proof.
  revert s bytesRead.
  induction rounds as [| rounds IH]; intros s bytesRead Hbytes Hat Hlen Hrem.
  - unfold remaining in Hrem. lia.
  - cbn [keyValues].
    destruct (bytesRead <? total); [ | discriminate ].
    destruct (MemoryRead.readObject s 4) as [[b | ] s1] eqn:H1; [ | discriminate ].
    pose proof (readObject_buf _ _ _ _ H1) as Hb1.
    destruct (readObject_advances s s1 4 b Hat Hlen ltac:(lia) H1)
      as (Hbv & Hbl & Ha1 & Hr1).
    assert (Hsz : 0 <= le_value b < 2 ^ 63).
    { pose proof (le_value_range b) as Hrng.
      rewrite Hbl in Hrng. change (256 ^ 4) with (2 ^ 32) in Hrng.
      assert (Hfb : Forall isByte b)
        by (rewrite Hbv; apply Forall_firstn_skipn; exact Hbytes).
      specialize (Hrng Hfb). change (2 ^ 63) with (2 ^ 32 * 2 ^ 31). lia. }
    destruct (MemoryRead.readObject s1 (le_value b)) as [[b2 | ] s2] eqn:H2;
      [ | discriminate ].
    pose proof (readObject_buf _ _ _ _ H2) as Hb2.
    destruct (readObject_advances s1 s2 (le_value b) b2 Ha1
                ltac:(rewrite Hb1; exact Hlen) Hsz H2)
      as (_ & _ & Ha2 & Hr2).
    apply IH.
    + rewrite Hb2, Hb1. exact Hbytes.
    + exact Ha2.
    + rewrite Hb2, Hb1. exact Hlen.
    + lia.
Qed.

(** ** The format registry *)

(** X1: [toggleSRGB] is an involution on every format code: it swaps the
    two formats of each pair it lists and returns any other code as it
    is. *)
Theorem toggleSRGB_involutive (f : Format) : toggleSRGB (toggleSRGB f) = f.
Proof.
  unfold toggleSRGB.
  cbv [switch].
  repeat match goal with
         | |- context [ f =? ?k ] =>
             destruct (Z.eqb_spec f k) as [-> | ?]; [ vm_compute; reflexivity | ]
         end.
  repeat match goal with
         | |- context [ f =? ?k ] =>
             destruct (Z.eqb_spec f k) as [-> | ?]; [ contradiction | ]
         end.
  reflexivity.
Qed.

(** C5: [toggleSRGB] has no case for the block-compressed sRGB formats
    other than bc7 (bc1, bc2, bc3, etc2, astc, pvrtc): each of them is
    returned unchanged, so [isSRGB] of the result is [isSRGB] of the
    format, which for these formats is not [false]. *)
Theorem toggleSRGB_block_srgb_unchanged (fu : FormatUtils) :
  Forall (fun f => toggleSRGB f = f /\ isSRGB (toggleSRGB f) = isSRGB f)
         blockSrgbFormats.
Proof.
  assert (H : Forall (fun f => toggleSRGB f = f) blockSrgbFormats).
  { repeat constructor. }
  eapply Forall_impl; [ | exact H ].
  intros f Hf. split; [ exact Hf | rewrite Hf; reflexivity ].
Qed.

Lemma tightLayerTexelNumber_origin (extent : Vec3ui) :
  tightLayerTexelNumber extent 0 0 0 = 0.
Proof. unfold tightLayerTexelNumber. rewrite !Z.mul_0_l. reflexivity. Qed.


(** X6: in mip level 0, counted from mip level 0, the texel number is
    [layer * w * h * d + z * h * w + y * w + x] with the dimensions of the
    image: there the pitch of the level is the pitch of the image. *)
Theorem tightTexelNumber_level0 (extent : Vec3ui) (numLayers layer x y z : Z) :
  0 <= layer ->
  0 <= x < vx extent ->
  0 <= y < vy extent ->
  0 <= z < vz extent ->
  (layer + 1) * (vx extent * vy extent * vz extent) < 2 ^ 32 ->
  tightTexelNumber extent numLayers 0 layer x y z 0
  = layer * (vx extent * vy extent * vz extent)
    + z * (vy extent * vx extent) + y * vx extent + x.
Proof.
  intros Hlayer Hx Hy Hz Hfit.
  destruct extent as [w h d]. cbn [vx vy vz] in *.
  assert (Hwh : 0 < w * h) by nia.
  assert (Hin : 0 <= z * (h * w) + y * w + x < w * h * d).
  { split; [ nia | ].
    assert (y * w + x < h * w) by nia.
    assert (z * (h * w) + h * w <= d * (h * w)) by nia.
    nia. }
  assert (Hwhd : 0 < w * h * d < 2 ^ 32) by nia.
  assert (Hl : 0 <= layer * (w * h * d)) by nia.
  unfold tightTexelNumber, tightLayerTexelNumber, mipSize.
  change (range 0 0) with (@nil Z). cbn [fold_left vx vy vz].
  rewrite !Z.shiftr_0_r, !Z.max_l by lia.
  rewrite (u32_small (h * w)) by nia.
  rewrite (u32_small (z * (h * w) + y * w + x)) by nia.
  replace (layer * w * h * d) with (layer * (w * h * d)) by ring.
  rewrite (u32_small (layer * (w * h * d))) by nia.
  rewrite u64_small by (change (2 ^ 64) with (2 ^ 32 * 2 ^ 32); nia).
  ring.
Qed.

(** C1: [tightTexelNumber((4,4,1), 2, mip=1, layer=1, x=1, y=1, z=0)]
    is 41 and not 39: the term inside the level is [y * 4 + x] with the
    width of level 0, not [y * 2 + x] with the width of level 1.  With
    that pitch two texels of mip level 1 get one number: [(1, 1)] of
    layer 0 and [(1, 0)] of layer 1 are both 37. *)
Theorem tightTexelNumber_mip1_example :
  tightTexelNumber (mkVec3ui 4 4 1) 2 1 1 1 1 0 0 = 41
  /\ tightTexelNumber (mkVec3ui 4 4 1) 2 1 1 1 1 0 0 <> 39
  /\ tightLayerTexelNumber (mkVec3ui 4 4 1) 1 1 0 = 5
  /\ tightLayerTexelNumber (mipSize (mkVec3ui 4 4 1) 1) 1 1 0 = 3
  /\ tightTexelNumber (mkVec3ui 4 4 1) 2 1 0 1 1 0 0 = 37
  /\ tightTexelNumber (mkVec3ui 4 4 1) 2 1 1 1 0 0 0 = 37.
Proof.
  repeat split; try (vm_compute; reflexivity).
  vm_compute. discriminate.
Qed.

(** ** Alignment and mip levels *)


Lemma land_high_mask (x k : Z) :
  0 <= k < 32 -> 0 <= x < 2 ^ 32 ->
  Z.land x (u32 (Z.lnot (u32 (2 ^ k - 1)))) = x - x mod 2 ^ k.
Proof.
  intros Hk Hx.
  assert (H2k : 0 < 2 ^ k <= 2 ^ 31).
  { split; [ apply Z.pow_pos_nonneg; lia | apply Z.pow_le_mono_r; lia ]. }
  change (2 ^ 31) with 2147483648 in H2k.
  rewrite (u32_small (2 ^ k - 1)) by (change (2 ^ 32) with 4294967296; lia).
  replace (2 ^ k - 1) with (Z.ones k) by (rewrite Z.ones_equiv; lia).
  assert (Hgoal : Z.land x (u32 (Z.lnot (Z.ones k))) = Z.ldiff x (Z.ones k)).
  { apply Z.bits_inj'. intros n Hn.
    unfold u32. rewrite Z.land_spec, Z.ldiff_spec.
    destruct (Z.lt_ge_cases n 32) as [Hlt | Hge].
    - rewrite Z.mod_pow2_bits_low by lia. rewrite Z.lnot_spec by lia. reflexivity.
    - rewrite Z.mod_pow2_bits_high by lia.
      rewrite (Z.bits_above_log2 x n); [ reflexivity | lia | ].
      destruct (Z.eq_dec x 0) as [-> | Hx0]; [ cbn; lia | ].
      apply Z.lt_le_trans with 32; [ | lia ].
      apply Z.log2_lt_pow2; lia. }
  rewrite Hgoal, Z.ldiff_ones_r by lia.
  rewrite Z.shiftr_div_pow2, Z.shiftl_mul_pow2 by lia.
  pose proof (Z.div_mod x (2 ^ k) ltac:(lia)). lia.
Qed.

(** X10: for an alignment that is a power of two, [alignPOT] is [align],
    as long as [offset + alignment] fits the type. *)
Theorem alignPOT_align (offset k : Z) :
  0 <= k < 32 ->
  0 <= offset ->
  offset + 2 ^ k <= 2 ^ 32 ->
  alignPOT offset (2 ^ k) = align offset (2 ^ k).
Proof.
  intros Hk Hoff Hfit.
  assert (H2k : 0 < 2 ^ k) by (apply Z.pow_pos_nonneg; lia).
  unfold alignPOT.
  rewrite (u32_small (offset + 2 ^ k - 1)) by lia.
  rewrite land_high_mask by lia.
  unfold align.
  destruct (Z.eqb_spec offset 0) as [-> | Hne]; cbn [orb].
  - rewrite Z.add_0_l. rewrite Z.mod_small by lia. lia.
  - destruct (Z.eqb_spec (2 ^ k) 0) as [H0 | _]; [ lia | ].
    pose proof (Z.div_mod offset (2 ^ k) ltac:(lia)) as Hdm.
    pose proof (Z.mod_pos_bound offset (2 ^ k) H2k) as Hrest.
    destruct (Z.eqb_spec (offset mod 2 ^ k) 0) as [Hz | Hnz].
    + assert (Hm : (offset + 2 ^ k - 1) mod 2 ^ k = 2 ^ k - 1).
      { replace (offset + 2 ^ k - 1)
          with ((2 ^ k - 1) + (offset / 2 ^ k) * 2 ^ k) by lia.
        rewrite Z.mod_add by lia. apply Z.mod_small. lia. }
      lia.
    + assert (Hm : (offset + 2 ^ k - 1) mod 2 ^ k = offset mod 2 ^ k - 1).
      { replace (offset + 2 ^ k - 1)
          with ((offset mod 2 ^ k - 1) + (offset / 2 ^ k + 1) * 2 ^ k) by lia.
        rewrite Z.mod_add by lia. apply Z.mod_small. lia. }
      lia.
Qed.

(** X11: [ceilDivide(num, denom)] is the ceiling of [num / denom] as long
    as [num + denom - 1] fits [unsigned]; past that the sum wraps and the
    result is too small. *)
Theorem ceilDivide_ceiling (num denom : Z) :
  0 <= num ->
  0 < denom ->
  (num + denom <= 2 ^ 32 ->
   num <= ceilDivide num denom * denom < num + denom)
  /\ (2 ^ 32 < num + denom -> num < 2 ^ 32 -> denom < 2 ^ 32 ->
      ceilDivide num denom * denom < num).
Proof.
  intros Hnum Hden. unfold ceilDivide. split.
  - intros Hfit. rewrite u32_small by lia.
    pose proof (Z.div_mod (num + denom - 1) denom ltac:(lia)) as Hdm.
    pose proof (Z.mod_pos_bound (num + denom - 1) denom Hden) as Hrest.
    nia.
  - intros Hwrap Hn Hd. unfold u32.
    replace ((num + denom - 1) mod 2 ^ 32) with (num + denom - 1 - 2 ^ 32).
    + pose proof (Z.div_mod (num + denom - 1 - 2 ^ 32) denom ltac:(lia)) as Hdm.
      pose proof (Z.mod_pos_bound (num + denom - 1 - 2 ^ 32) denom Hden) as Hrest.
      nia.
    + symmetry. replace (num + denom - 1) with ((num + denom - 1 - 2 ^ 32) + 1 * 2 ^ 32) at 1 by ring.
      rewrite Z.mod_add by lia. apply Z.mod_small. lia.
Qed.



(** ** The tight layout *)

Lemma range_nil (a b : Z) : b <= a -> range a b = [].
Proof.
  intros H. unfold range. replace (Z.to_nat (b - a)) with 0%nat by lia.
  reflexivity.
Qed.

Lemma range_cons (a b : Z) : a < b -> range a b = a :: range (a + 1) b.
Proof.
  intros H. unfold range.
  replace (Z.to_nat (b - a)) with (S (Z.to_nat (b - (a + 1)))) by lia.
  cbn [seq map]. f_equal; [ lia | ].
  rewrite <- seq_shift, map_map. apply map_ext. intros k. lia.
Qed.

Lemma range_app (a b c : Z) : a <= b <= c -> range a c = range a b ++ range b c.
Proof.
  remember (Z.to_nat (b - a)) as n eqn:Hn. revert a Hn.
  induction n as [| n IH]; intros a Hn H.
  - assert (a = b) by lia. subst a. rewrite (range_nil b b) by lia. reflexivity.
  - rewrite (range_cons a c), (range_cons a b) by lia.
    cbn [app]. f_equal. apply IH; lia.
Qed.

Lemma length_range (a b : Z) : length (range a b) = Z.to_nat (b - a).
Proof. unfold range. rewrite length_map, length_seq. reflexivity. Qed.

Lemma nth_range (a b d : Z) (k : nat) :
  (k < Z.to_nat (b - a))%nat -> nth k (range a b) d = a + Z.of_nat k.
Proof.
  intros H. unfold range.
  set (f := fun k : nat => a + Z.of_nat k).
  rewrite (nth_indep _ d (f 0%nat))
    by (rewrite length_map, length_seq; exact H).
  rewrite map_nth, seq_nth by exact H. reflexivity.
Qed.

Lemma mipTexels_range (extent : Vec3ui) (numLayers i : Z) :
  0 <= mipTexels extent numLayers i < 2 ^ 32.
Proof. apply u32_range. Qed.

Lemma texelSum_nonneg (extent : Vec3ui) (numLayers : Z) (mips : list Z) :
  0 <= texelSum extent numLayers mips.
Proof.
  induction mips as [| i mips IH]; [ cbn; lia | ].
  cbn [texelSum fold_right]. fold (texelSum extent numLayers mips).
  pose proof (mipTexels_range extent numLayers i). lia.
Qed.

Lemma texelSum_app (extent : Vec3ui) (numLayers : Z) (a b : list Z) :
  texelSum extent numLayers (a ++ b)
  = texelSum extent numLayers a + texelSum extent numLayers b.
Proof.
  induction a as [| i a IH]; [ reflexivity | ].
  cbn [app texelSum fold_right]. fold (texelSum extent numLayers (a ++ b)).
  fold (texelSum extent numLayers a). rewrite IH. ring.
Qed.

(** The accumulation loop adds the sum of the levels, modulo [2^64]. *)
Lemma addMipTexels_fold (extent : Vec3ui) (numLayers : Z) (mips : list Z)
    (off : Z) :
  0 <= off < 2 ^ 64 ->
  fold_left (addMipTexels extent numLayers) mips off
  = u64 (off + texelSum extent numLayers mips).
Proof.
  revert off. induction mips as [| i mips IH]; intros off Hoff.
  - cbn [fold_left texelSum fold_right]. rewrite Z.add_0_r, u64_small; lia.
  - cbn [fold_left texelSum fold_right]. fold (texelSum extent numLayers mips).
    rewrite IH by (unfold addMipTexels; apply u64_range).
    unfold addMipTexels. fold (mipTexels extent numLayers i).
    unfold u64. rewrite Z.add_mod_idemp_l by lia. f_equal. ring.
Qed.

(** X13: the texel number of the origin of a mip level is the number of
    texels of the levels before it. *)
Theorem tightTexelNumber_origin_count (extent : Vec3ui)
    (numLayers mip firstMip : Z) :
  0 <= firstMip <= mip ->
  mip < 2 ^ 32 ->
  tightTexelNumber extent numLayers mip 0 0 0 0 firstMip
  = tightTexelCount extent numLayers (mip - firstMip) firstMip.
Proof.
  intros Hmip Hfit. unfold tightTexelNumber, tightTexelCount.
  rewrite tightLayerTexelNumber_origin.
  replace (firstMip + (mip - firstMip)) with mip by ring.
  rewrite (u32_small mip) by lia.
  rewrite !Z.mul_0_l. change (u32 0) with 0. rewrite !Z.add_0_r.
  rewrite addMipTexels_fold by (change (2 ^ 64) with 18446744073709551616; lia).
  unfold u64. apply Z.mod_mod. lia.
Qed.

(** X14: the texels of [n + m] levels are those of the first [n] and
    those of the next [m]. *)
Theorem tightTexelCount_split (extent : Vec3ui) (numLayers n m firstMip : Z) :
  0 <= firstMip -> 0 <= n -> 0 <= m ->
  firstMip + n + m < 2 ^ 32 ->
  tightTexelCount extent numLayers (n + m) firstMip
  = u64 (tightTexelCount extent numLayers n firstMip
         + tightTexelCount extent numLayers m (firstMip + n)).
Proof.
  intros Hf Hn Hm Hfit. unfold tightTexelCount.
  rewrite !u32_small by lia.
  rewrite !addMipTexels_fold by (change (2 ^ 64) with 18446744073709551616; lia).
  rewrite !Z.add_0_l.
  rewrite (range_app firstMip (firstMip + n) (firstMip + (n + m))) by lia.
  rewrite texelSum_app.
  replace (firstMip + n + m) with (firstMip + (n + m)) by ring.
  unfold u64. rewrite <- Z.add_mod by lia. reflexivity.
Qed.

(** X15: in the tight layout the faces follow one another: the next
    layer of a mip level begins where the layer ends, and the next mip
    level begins where the last layer of the level ends. *)
Theorem tightTexelNumber_faces_adjacent (extent : Vec3ui)
    (numLayers mip layer firstMip : Z) :
  0 <= firstMip <= mip ->
  mip + 1 < 2 ^ 32 ->
  0 <= layer ->
  0 <= numLayers ->
  (layer + 1) * (vx (mipSize extent mip) * vy (mipSize extent mip)
                 * vz (mipSize extent mip)) < 2 ^ 32 ->
  numLayers * (vx (mipSize extent mip) * vy (mipSize extent mip)
               * vz (mipSize extent mip)) < 2 ^ 32 ->
  1 <= vx extent -> 1 <= vy extent -> 1 <= vz extent ->
  tightTexelNumber extent numLayers mip (layer + 1) 0 0 0 firstMip
  = u64 (tightTexelNumber extent numLayers mip layer 0 0 0 firstMip
         + vx (mipSize extent mip) * vy (mipSize extent mip)
           * vz (mipSize extent mip))
  /\ tightTexelNumber extent numLayers (mip + 1) 0 0 0 0 firstMip
     = u64 (tightTexelNumber extent numLayers mip 0 0 0 0 firstMip
            + numLayers * (vx (mipSize extent mip) * vy (mipSize extent mip)
                           * vz (mipSize extent mip))).
Proof.
  intros Hmip Hfit Hlayer HL Hface Hall Hx Hy Hz.
  set (t := vx (mipSize extent mip) * vy (mipSize extent mip)
            * vz (mipSize extent mip)) in *.
  assert (Ht : 1 <= t).
  { subst t. unfold mipSize. cbn [vx vy vz]. nia. }
  unfold tightTexelNumber.
  rewrite tightLayerTexelNumber_origin, !Z.add_0_r.
  rewrite !addMipTexels_fold by (change (2 ^ 64) with 18446744073709551616; lia).
  rewrite !Z.add_0_l.
  fold t.
  replace ((layer + 1) * vx (mipSize extent mip) * vy (mipSize extent mip)
           * vz (mipSize extent mip)) with ((layer + 1) * t) by (subst t; ring).
  replace (layer * vx (mipSize extent mip) * vy (mipSize extent mip)
           * vz (mipSize extent mip)) with (layer * t) by (subst t; ring).
  replace (0 * vx (mipSize extent (mip + 1)) * vy (mipSize extent (mip + 1))
           * vz (mipSize extent (mip + 1))) with 0 by ring.
  replace (0 * vx (mipSize extent mip) * vy (mipSize extent mip)
           * vz (mipSize extent mip)) with 0 by ring.
  rewrite (u32_small ((layer + 1) * t)) by nia.
  rewrite (u32_small (layer * t)) by nia.
  split.
  - unfold u64. symmetry. rewrite Z.add_mod_idemp_l by lia. f_equal. ring.
  - rewrite (range_app firstMip mip (mip + 1)) by lia.
    rewrite texelSum_app, (range_cons mip (mip + 1)),
      (range_nil (mip + 1) (mip + 1)) by lia.
    cbn [texelSum fold_right]. unfold mipTexels. fold t.
    rewrite (Z.mul_comm t numLayers), Z.add_0_r.
    rewrite (u32_small (numLayers * t)) by nia.
    unfold u64. rewrite !Z.mod_mod by lia.
    rewrite Z.add_mod_idemp_l by lia. reflexivity.
Qed.

(** ** The format engine *)

(** C2: the texel [{0x01, 0x80, 0x80, 0x80}] of [a8b8g8r8SnormPack32]
    reads as [(-1, 0, 0, 0)] and is written back as
    [{0x00, 0x80, 0x80, 0x80}]: the bytes are not reproduced. *)
Theorem packed_snorm_roundtrip_differs (lib : EngineLib) :
  option_map (fun r => (fst r, write a8b8g8r8SnormPack32 (fst r)))
             (read a8b8g8r8SnormPack32 [1; 128; 128; 128])
  = Some (mkVec4d (-1)%float 0%float 0%float 0%float, [0; 128; 128; 128]).
Proof. vm_compute. reflexivity. Qed.

(** C7: for the input [(65536.0f, 0, 0)], which the clamp leaves as it
    is, the shared exponent is 32 and the red mantissa 256.  No 32-bit
    word has 32 in its bits [31:27]; the word that is returned is 256,
    whose bits [31:27] are 0: the exponent is not in the word. *)
Theorem e5b9g9r9_exponent_overflow :
  f32_val 0x47800000 = 65536%float
  /\ e5b9g9r9.clamp 0x47800000 = 0x47800000
  /\ e5b9g9r9.fields (mkVec3f 0x47800000 0 0) = e5b9g9r9.mkFields 32 256 0 0
  /\ (forall word,
        0 <= word < 2 ^ 32 ->
        Z.shiftr word 27
        <> e5b9g9r9.expShared (e5b9g9r9.fields (mkVec3f 0x47800000 0 0)))
  /\ e5b9g9r9FromRgb (mkVec3f 0x47800000 0 0) = 256
  /\ Z.shiftr (e5b9g9r9FromRgb (mkVec3f 0x47800000 0 0)) 27 = 0.
Proof.
  assert (Hf : e5b9g9r9.fields (mkVec3f 0x47800000 0 0)
               = e5b9g9r9.mkFields 32 256 0 0) by (vm_compute; reflexivity).
  split; [ vm_compute; reflexivity | ].
  split; [ vm_compute; reflexivity | ].
  split; [ exact Hf | ].
  split.
  - intros word Hword. rewrite Hf. cbn [e5b9g9r9.expShared].
    rewrite Z.shiftr_div_pow2 by lia.
    assert (word / 2 ^ 27 < 32)
      by (apply Z.div_lt_upper_bound; [ lia | change (2 ^ 27 * 32) with (2 ^ 32); lia ]).
    lia.
  - split; vm_compute; reflexivity.
Qed.

(** ** Round trips of the format engine *)

Lemma belowFrom_spec (p : Z -> bool) (n : nat) (start v : Z) :
  belowFrom p n start = true -> start <= v < start + Z.of_nat n -> p v = true.
Proof.
  revert start. induction n as [| n IH]; intros start H Hv; [ lia | ].
  cbn [belowFrom] in H. apply andb_prop in H. destruct H as [Hp Hrest].
  destruct (Z.eq_dec v start) as [-> | Hne]; [ exact Hp | ].
  apply (IH (start + 1)); [ exact Hrest | lia ].
Qed.

Lemma below_spec (n : Z) (p : Z -> bool) (v : Z) :
  below n p = true -> 0 <= v < n -> p v = true.
Proof.
  unfold below. intros H Hv. apply (belowFrom_spec p (Z.to_nat n) 0); [ exact H | lia ].
Qed.

Lemma switch_Forall {A : Type} (P : A -> Prop) (x : Z) (cases : list (Z * A))
    (default : A) :
  P default -> Forall (fun c => P (snd c)) cases -> P (switch x cases default).
Proof.
  intros Hd Hc. induction Hc as [| [label body] rest Hb _ IH]; [ exact Hd | ].
  cbn [switch]. destruct (x =? label); [ exact Hb | exact IH ].
Qed.

Lemma le_bytes_S (n : nat) (v : Z) :
  le_bytes (S n) v = v mod 256 :: le_bytes n (Z.shiftr v 8).
Proof.
  unfold le_bytes. cbn [seq map]. f_equal.
  rewrite <- seq_shift, map_map. apply map_ext. intros k.
  rewrite Z.shiftr_shiftr by lia. f_equal. f_equal. lia.
Qed.

Lemma le_bytes_le_value (bytes : list Z) :
  Forall isByte bytes -> le_bytes (length bytes) (le_value bytes) = bytes.
Proof.
  induction 1 as [| b bytes Hb _ IH]; [ reflexivity | ].
  cbn [length]. rewrite le_bytes_S.
  change (le_value (b :: bytes)) with (b + 256 * le_value bytes).
  unfold isByte in Hb.
  replace (b + 256 * le_value bytes) with (b + le_value bytes * 256) by lia.
  f_equal.
  - rewrite Z.mod_add by lia. apply Z.mod_small. exact Hb.
  - rewrite Z.shiftr_div_pow2 by lia. change (2 ^ 8) with 256.
    rewrite Z.div_add by lia.
    rewrite (Z.div_small b) by lia. exact IH.
Qed.

Lemma le_value_bound (bytes : list Z) :
  Forall isByte bytes -> 0 <= le_value bytes < 2 ^ (8 * Z.of_nat (length bytes)).
Proof.
  induction 1 as [| b bytes Hb _ IH]; [ cbn; lia | ].
  change (le_value (b :: bytes)) with (b + 256 * le_value bytes).
  cbn [length]. rewrite Nat2Z.inj_succ.
  replace (8 * Z.succ (Z.of_nat (length bytes)))
    with (8 + 8 * Z.of_nat (length bytes)) by lia.
  rewrite Z.pow_add_r by lia. change (2 ^ 8) with 256.
  unfold isByte in Hb. nia.
Qed.

(** *** Swizzles *)

Lemma vget_vset_same (v : Vec4d) (i : nat) (x : double) : vget (vset v i x) i = x.
Proof. destruct i as [| [| [| i]]]; reflexivity. Qed.

Lemma vget_vset_other (v : Vec4d) (i j : nat) (x : double) :
  (i < j <= 3)%nat -> vget (vset v i x) j = vget v j.
Proof.
  intros H. destruct i as [| [| [| i]]]; destruct j as [| [| [| [| j]]]];
    try reflexivity; lia.
Qed.

Lemma swizzle_reverse (A B C D : nat) (x : Vec4d) :
  swizzlePermutes (Some (A, B, C, D)) = true ->
  swizzle true A B C D (swizzle false A B C D x) = x.
Proof.
  intros H. destruct x as [x0 x1 x2 x3].
  destruct A as [| [| [| [| A]]]]; try discriminate H;
    destruct B as [| [| [| [| B]]]]; try discriminate H;
    destruct C as [| [| [| [| C]]]]; try discriminate H;
    destruct D as [| [| [| [| D]]]]; try discriminate H;
    reflexivity.
Qed.

Lemma formatSwizzle_permutes (f : Format) :
  swizzlePermutes (formatSwizzle_case f) = true.
Proof.
  unfold formatSwizzle_case.
  apply (switch_Forall (fun s => swizzlePermutes s = true)); [ reflexivity | ].
  repeat constructor.
Qed.

Lemma formatSwizzle_reverse (f : Format) (x : Vec4d) :
  formatSwizzle true f (formatSwizzle false f x) = x.
Proof.
  pose proof (formatSwizzle_permutes f) as H.
  unfold formatSwizzle.
  destruct (formatSwizzle_case f) as [[[[A B] C] D] | ]; [ | reflexivity ].
  apply swizzle_reverse. exact H.
Qed.

(** *** Components of one byte *)

Section PlainBytes.
Context {lib : EngineLib}.

Lemma vget_Vec4d_of_list (l : list double) (i : nat) :
  (i <= 3)%nat -> vget (Vec4d_of_list l) i = nth i l 0%float.
Proof. intros H. destruct i as [| [| [| [| i]]]]; try reflexivity; lia. Qed.

Lemma vget_vmap (g : double -> double) (v : Vec4d) (i : nat) :
  vget (vmap g v) i = g (vget v i).
Proof. destruct i as [| [| [| i]]]; reflexivity. Qed.

Lemma read_comps_bytes (T : CompType) (texel : list Z) :
  sizeofT T = 1%nat ->
  read_comps (length texel) T texel = Some (map (comp_to_double T) texel, []).
Proof.
  intros HT. induction texel as [| b texel IH]; [ reflexivity | ].
  cbn [length read_comps]. rewrite HT.
  change (read_uint 1 (b :: texel)) with (Some (le_value [b], texel)).
  cbv iota beta. rewrite IH.
  change (le_value [b]) with (b + 256 * 0). rewrite Z.mul_0_r, Z.add_0_r.
  reflexivity.
Qed.

Lemma flat_map_seq_nth (l : list Z) (g : Z -> list Z) (d : Z) (h : nat -> list Z) :
  (forall i, (i < length l)%nat -> h i = g (nth i l d)) ->
  flat_map h (seq 0 (length l)) = flat_map g l.
Proof.
  revert h. induction l as [| b l IH]; intros h Hh; [ reflexivity | ].
  cbn [length seq flat_map].
  rewrite (Hh 0%nat) by (cbn [length]; lia). cbn [nth]. f_equal.
  rewrite <- seq_shift, flat_map_concat_map, map_map, <- flat_map_concat_map.
  apply IH. intros i Hi. apply (Hh (S i)). cbn [length]. lia.
Qed.

(** Every byte is converted back to itself. *)
Lemma plainComponent_exact (T : CompType) (Fac : Z) (raw : Z) :
  match T with
  | U8 => (Fac =? 255) || (Fac =? 1)
  | I8 => (Fac =? 127) || (Fac =? 1)
  | _ => false
  end = true ->
  isByte raw ->
  plainComponent T Fac raw = raw.
Proof.
  intros HT Hraw.
  assert (H : below 256 (fun raw => plainComponent T Fac raw =? raw) = true).
  { destruct T; try discriminate HT;
      apply orb_prop in HT; destruct HT as [HF | HF];
      apply Z.eqb_eq in HF; subst Fac; vm_compute; reflexivity. }
  apply Z.eqb_eq. exact (below_spec 256 _ raw H Hraw).
Qed.

Lemma call_roundtrip (T : CompType) (Fac : Z) (texel : list Z) :
  exactCodec (Plain (length texel) T Fac false) = true ->
  Forall isByte texel ->
  exists dst,
    FormatReader.call (length texel) T Fac false texel = Some (dst, [])
    /\ FormatWriter.call (length texel) T Fac false dst = texel.
Proof.
  intros Hexact Hbytes. cbn [exactCodec negb andb] in Hexact.
  apply andb_prop in Hexact. destruct Hexact as [HN Hcomp].
  apply Nat.leb_le in HN.
  assert (HT : sizeofT T = 1%nat) by (destruct T; try discriminate Hcomp; reflexivity).
  unfold FormatReader.call. rewrite (read_comps_bytes T texel HT).
  eexists. split; [ reflexivity | ].
  unfold FormatWriter.call.
  rewrite (flat_map_seq_nth texel (fun b => [b]) 0).
  - clear. induction texel as [| b texel IH]; [ reflexivity | ].
    cbn [flat_map app]. f_equal. exact IH.
  - intros i Hi. rewrite HT.
    rewrite vget_vmap, vget_Vec4d_of_list by lia.
    rewrite (nth_indep _ 0%float (comp_to_double T 0)) by (rewrite length_map; lia).
    rewrite map_nth.
    fold (plainComponent T Fac (nth i texel 0)).
    assert (Hb : isByte (nth i texel 0)).
    { rewrite Forall_forall in Hbytes. apply Hbytes. apply nth_In. exact Hi. }
    rewrite (plainComponent_exact T Fac _ Hcomp Hb).
    unfold isByte in Hb. cbn [le_bytes seq map].
    change (8 * Z.of_nat 0) with 0. rewrite Z.shiftr_0_r, Z.mod_small by lia.
    reflexivity.
Qed.

End PlainBytes.

(** *** Packed fields *)

Lemma unpack_cons (Norm Signed : bool) (FirstBits : Z) (Rest : list Z) (src : Z)
    (dst : Vec4d) (id : nat) :
  FormatReader.unpack Norm Signed (FirstBits :: Rest) src dst id
  = (Z.shiftr (fst (FormatReader.unpack Norm Signed Rest src dst (S id))) FirstBits,
     vset (snd (FormatReader.unpack Norm Signed Rest src dst (S id))) id
          (unpackField Norm Signed FirstBits
             (Z.land (fst (FormatReader.unpack Norm Signed Rest src dst (S id)))
                     (u32 (u32 (Z.shiftl 1 FirstBits) - 1))))).
Proof.
  cbn [FormatReader.unpack].
  destruct (FormatReader.unpack Norm Signed Rest src dst (S id)) as [src' dst'].
  reflexivity.
Qed.

Lemma pack_cons (Norm Signed : bool) (FirstBits : Z) (Rest : list Z) (dst : Z)
    (src : Vec4d) (id : nat) :
  FormatWriter.pack Norm Signed (FirstBits :: Rest) dst src id
  = FormatWriter.pack Norm Signed Rest
      (Z.lor (u32 (Z.shiftl dst FirstBits))
             (packField Norm Signed FirstBits (vget src id)))
      src (S id).
Proof. reflexivity. Qed.

Lemma sumBits_nonneg (Bits : list Z) :
  Forall (fun b => 0 < b) Bits -> 0 <= sumBits Bits.
Proof.
  induction 1 as [| b Bits Hb _ IH]; [ reflexivity | ].
  cbn [sumBits fold_right]. fold (sumBits Bits). lia.
Qed.

(** [unpack] leaves the bits above its fields. *)
Lemma unpack_fst (Norm Signed : bool) (Bits : list Z) (src : Z) (dst : Vec4d)
    (id : nat) :
  Forall (fun b => 0 < b) Bits ->
  fst (FormatReader.unpack Norm Signed Bits src dst id)
  = Z.shiftr src (sumBits Bits).
Proof.
  intros HBits. revert id.
  induction HBits as [| b Bits Hb HBits IH]; intros id.
  - cbn [FormatReader.unpack fst sumBits fold_right]. rewrite Z.shiftr_0_r.
    reflexivity.
  - rewrite unpack_cons. cbn [fst]. rewrite IH.
    pose proof (sumBits_nonneg Bits HBits).
    rewrite Z.shiftr_shiftr by lia.
    cbn [sumBits fold_right]. fold (sumBits Bits). f_equal. lia.
Qed.

(** [pack] reads the components from [id] on only. *)
Lemma pack_ext (Norm Signed : bool) (Bits : list Z) (dst : Z) (src src' : Vec4d)
    (id : nat) :
  (forall j, (id <= j < id + length Bits)%nat -> vget src j = vget src' j) ->
  FormatWriter.pack Norm Signed Bits dst src id
  = FormatWriter.pack Norm Signed Bits dst src' id.
Proof.
  revert dst id. induction Bits as [| b Bits IH]; intros dst id H; [ reflexivity | ].
  rewrite !pack_cons. rewrite (H id) by (cbn [length]; lia).
  apply IH. intros j Hj. apply H. cbn [length]. lia.
Qed.

Lemma lor_shifted (a c bits : Z) :
  0 <= a -> 0 <= bits -> 0 <= c < 2 ^ bits ->
  Z.lor (Z.shiftl a bits) c = a * 2 ^ bits + c.
Proof.
  intros Ha Hbits Hc.
  rewrite Z.shiftl_mul_pow2 by lia.
  assert (Hland : Z.land (a * 2 ^ bits) c = 0).
  { destruct (Z.eq_dec c 0) as [-> | Hc0]; [ apply Z.land_0_r | ].
    apply Z.bits_inj'. intros n Hn. rewrite Z.land_spec, Z.bits_0.
    destruct (Z.lt_ge_cases n bits) as [Hlt | Hge].
    - rewrite Z.mul_pow2_bits_low by lia. reflexivity.
    - rewrite (Z.bits_above_log2 c n); [ apply andb_false_r | lia | ].
      apply Z.lt_le_trans with bits; [ | lia ].
      apply Z.log2_lt_pow2; lia. }
  rewrite <- (Z.lxor_lor _ _ Hland), (Z.add_nocarry_lxor _ _ Hland).
  reflexivity.
Qed.

Lemma field_mask (b : Z) : 0 < b <= 10 -> u32 (u32 (Z.shiftl 1 b) - 1) = Z.ones b.
Proof.
  intros Hb. rewrite Z.shiftl_1_l, Z.ones_equiv.
  assert (2 ^ b <= 2 ^ 10) by (apply Z.pow_le_mono_r; lia).
  assert (0 < 2 ^ b) by (apply Z.pow_pos_nonneg; lia).
  change (2 ^ 10) with 1024 in *.
  rewrite (u32_small (2 ^ b)) by (change (2 ^ 32) with 4294967296; lia).
  rewrite u32_small by (change (2 ^ 32) with 4294967296; lia).
  lia.
Qed.

(** Every value of a field that is not signed and normalised is
    converted back to itself. *)
Lemma field_exact (Norm Signed : bool) (b : Z) :
  Norm && Signed = false ->
  In b fieldWidths ->
  fieldExact Norm Signed b = true.
Proof.
  intros Hkind Hb. unfold fieldWidths in Hb. cbn [In] in Hb.
  destruct Norm, Signed; try discriminate Hkind;
    repeat (destruct Hb as [<- | Hb]; [ vm_compute; reflexivity | ]);
    contradiction.
Qed.

(** [pack] of what [unpack] has read puts the word together again. *)
Lemma pack_unpack (Norm Signed : bool) (Bits : list Z) :
  Forall (fun b => 0 < b <= 10 /\ fieldExact Norm Signed b = true) Bits ->
  forall (src : Z) (dst : Vec4d) (id : nat) (acc k : Z),
    (id + length Bits <= 4)%nat ->
    0 <= src -> 0 <= k -> 0 <= acc < 2 ^ k -> k + sumBits Bits <= 32 ->
    FormatWriter.pack Norm Signed Bits acc
      (snd (FormatReader.unpack Norm Signed Bits src dst id)) id
    = acc * 2 ^ sumBits Bits + src mod 2 ^ sumBits Bits.
Proof.
  induction 1 as [| b Bits [Hb Hexact] HBits IH];
    intros src dst id acc k Hid Hsrc Hk Hacc Hfit.
  - cbn [FormatReader.unpack FormatWriter.pack snd sumBits fold_right].
    rewrite Z.pow_0_r, Z.mod_1_r. lia.
  - assert (Hpos : Forall (fun b => 0 < b) Bits)
      by (eapply Forall_impl; [ | exact HBits ]; cbv beta; intros; tauto).
    pose proof (sumBits_nonneg Bits Hpos) as Hsum.
    cbn [sumBits fold_right] in Hfit |- *. fold (sumBits Bits) in Hfit |- *.
    cbn [length] in Hid.
    rewrite unpack_cons. cbn [snd].
    rewrite pack_cons, vget_vset_same.
    rewrite unpack_fst by exact Hpos.
    rewrite field_mask by exact Hb.
    rewrite Z.land_ones by lia.
    rewrite Z.shiftr_div_pow2 by lia.
    set (fv := (src / 2 ^ sumBits Bits) mod 2 ^ b).
    assert (H2b : 0 < 2 ^ b) by (apply Z.pow_pos_nonneg; lia).
    assert (H2s : 0 < 2 ^ sumBits Bits) by (apply Z.pow_pos_nonneg; lia).
    assert (Hfv : 0 <= fv < 2 ^ b) by (apply Z.mod_pos_bound; exact H2b).
    pose proof (below_spec _ _ fv Hexact Hfv) as Hrt. cbv beta in Hrt.
    apply Z.eqb_eq in Hrt. rewrite Hrt.
    assert (Hkb : 2 ^ (k + b) <= 2 ^ 32) by (apply Z.pow_le_mono_r; lia).
    assert (Hshift : Z.shiftl acc b = acc * 2 ^ b)
      by (apply Z.shiftl_mul_pow2; lia).
    assert (Hacc' : 0 <= acc * 2 ^ b + fv < 2 ^ (k + b))
      by (rewrite Z.pow_add_r by lia; nia).
    rewrite u32_small by (rewrite Hshift; nia).
    rewrite lor_shifted by lia.
    rewrite (pack_ext Norm Signed Bits _ _
               (snd (FormatReader.unpack Norm Signed Bits src dst (S id)))).
    + rewrite (IH src dst (S id) _ (k + b)) by lia.
      rewrite (Z.pow_add_r 2 b) by lia.
      rewrite (Z.mul_comm (2 ^ b)), Z.rem_mul_r by lia.
      fold fv. ring.
    + intros j Hj. apply vget_vset_other. lia.
Qed.

Section Roundtrip.
Context {lib : EngineLib}.

Lemma read_uint_all (texel : list Z) :
  read_uint (length texel) texel = Some (le_value texel, []).
Proof.
  unfold read_uint, take. rewrite Nat.leb_refl, firstn_all, skipn_all.
  reflexivity.
Qed.

Lemma callPack_roundtrip (type : FORMAT_NUMERICAL_TYPE) (Bits : list Z)
    (texel : list Z) :
  exactCodec (Pack type Bits) = true ->
  length texel = FormatReader.packedBytes Bits ->
  Forall isByte texel ->
  exists dst,
    FormatReader.callPack (packNorm type) (packSigned type) (packSRGB type)
      Bits texel Vec4d_zero = Some (dst, [])
    /\ FormatWriter.callPack (packNorm type) (packSigned type) (packSRGB type)
         Bits dst = texel.
Proof.
  intros Hexact Hlen Hbytes. cbn [exactCodec] in Hexact.
  apply andb_prop in Hexact. destruct Hexact as [Hexact Hfields].
  apply andb_prop in Hexact. destruct Hexact as [Hexact Hfill].
  apply andb_prop in Hexact. destruct Hexact as [Hexact Hcount].
  apply andb_prop in Hexact. destruct Hexact as [Hsrgb Hkind].
  apply negb_true_iff in Hsrgb. apply negb_true_iff in Hkind.
  apply Nat.leb_le in Hcount. apply Z.eqb_eq in Hfill.
  assert (HBits : Forall (fun b => 0 < b <= 10
                    /\ fieldExact (packNorm type) (packSigned type) b = true) Bits).
  { rewrite forallb_forall in Hfields. apply Forall_forall. intros b Hin.
    specialize (Hfields b Hin).
    apply existsb_exists in Hfields. destruct Hfields as (b' & Hin' & Heq).
    apply Z.eqb_eq in Heq. subst b'.
    split; [ | apply field_exact; assumption ].
    unfold fieldWidths in Hin'. cbn [In] in Hin'.
    repeat (destruct Hin' as [<- | Hin']; [ lia | ]). contradiction. }
  pose proof (le_value_bound texel Hbytes) as Hw.
  rewrite Hlen, Hfill in Hw.
  unfold FormatReader.callPack, FormatWriter.callPack.
  rewrite <- Hlen, read_uint_all, Hsrgb.
  destruct (FormatReader.unpack (packNorm type) (packSigned type) Bits
              (le_value texel) Vec4d_zero 0) as [rest dst] eqn:Hunpack.
  exists dst. split; [ reflexivity | ].
  replace dst with (snd (FormatReader.unpack (packNorm type) (packSigned type) Bits
                           (le_value texel) Vec4d_zero 0))
    by (rewrite Hunpack; reflexivity).
  rewrite (pack_unpack _ _ Bits HBits (le_value texel) Vec4d_zero 0 0 0);
    try lia.
  - rewrite Z.mul_0_l, Z.add_0_l, Z.mod_small by exact Hw.
    apply le_bytes_le_value. exact Hbytes.
  - rewrite <- Hfill. rewrite <- Hlen.
    unfold FormatReader.packedBytes in Hlen.
    fold (sumBits Bits) in Hlen.
    destruct (sumBits Bits =? 8); [ lia | ].
    destruct (sumBits Bits =? 16); lia.
Qed.

(** The codecs of the table with one-byte components or packed fields
    convert every component and field value back to itself. *)
Lemma ioFormat_case_exact (f : Format) :
  implb (byteOrPacked (ioFormat_case f)) (exactCodec (ioFormat_case f)) = true.
Proof.
  unfold ioFormat_case.
  apply (switch_Forall (fun c => implb (byteOrPacked c) (exactCodec c) = true));
    [ reflexivity | ].
  apply Forall_forall. apply forallb_forall. vm_compute. reflexivity.
Qed.

(** X7: for every format whose texel is made of one-byte components or
    of packed fields, sRGB and packed SNORM apart, and for every texel,
    [write] of what [read] returns is the texel. *)
Theorem engine_roundtrip_bytes (f : Format) (texel : list Z) :
  byteOrPacked (ioFormat_case f) = true ->
  length texel = texelBytes (ioFormat_case f) ->
  Forall isByte texel ->
  exists color,
    read f texel = Some (color, []) /\ write f color = texel.
Proof.
  intros Hkind Hlen Hbytes.
  pose proof (ioFormat_case_exact f) as Hexact. rewrite Hkind in Hexact.
  cbn [implb] in Hexact.
  unfold read, write, ioFormat_read, ioFormat_write.
  destruct (ioFormat_case f) as [N T Fac srgb | type Bits | | | | | | ] eqn:Hcase;
    try discriminate Hkind.
  - assert (Hsrgb : srgb = false)
      by (cbn [exactCodec] in Hexact; destruct srgb; [ discriminate | reflexivity ]).
    subst srgb.
    assert (HT : sizeofT T = 1%nat)
      by (destruct T; try discriminate Hkind; reflexivity).
    assert (HN : N = length texel)
      by (cbn [texelBytes] in Hlen; rewrite HT in Hlen; lia).
    subst N.
    destruct (call_roundtrip T Fac texel Hexact Hbytes) as (dst & Hread & Hwrite).
    rewrite Hread.
    eexists. split; [ reflexivity | ].
    rewrite formatSwizzle_reverse. exact Hwrite.
  - cbn [texelBytes] in Hlen.
    destruct (callPack_roundtrip type Bits texel Hexact Hlen Hbytes)
      as (dst & Hread & Hwrite).
    rewrite Hread.
    eexists. split; [ reflexivity | ].
    rewrite formatSwizzle_reverse. exact Hwrite.
Qed.

End Roundtrip.

(** X8: the texel of [r64Uint] that holds [2^53 + 1] is read as [2^53]
    and written back as [2^53]: a [double] component holds 53 bits. *)
Theorem r64Uint_roundtrip_differs (lib : EngineLib) :
  le_value [1; 0; 0; 0; 0; 0; 32; 0] = 2 ^ 53 + 1
  /\ read r64Uint [1; 0; 0; 0; 0; 0; 32; 0]
     = Some (mkVec4d 9007199254740992%float 0%float 0%float 0%float, [])
  /\ write r64Uint (mkVec4d 9007199254740992%float 0%float 0%float 0%float)
     = [0; 0; 0; 0; 0; 0; 32; 0].
Proof. repeat split; vm_compute; reflexivity. Qed.

(** ** More of the format engine *)

Lemma swizzle_forward (A B C D : nat) (x : Vec4d) :
  swizzlePermutes (Some (A, B, C, D)) = true ->
  swizzle false A B C D (swizzle true A B C D x) = x.
Proof.
  intros H. destruct x as [x0 x1 x2 x3].
  destruct A as [| [| [| [| A]]]]; try discriminate H;
    destruct B as [| [| [| [| B]]]]; try discriminate H;
    destruct C as [| [| [| [| C]]]]; try discriminate H;
    destruct D as [| [| [| [| D]]]]; try discriminate H;
    reflexivity.
Qed.

(** X17: for every format, the swizzle that [write] applies and the
    swizzle that [read] applies undo each other. *)
Theorem formatSwizzle_inverse (f : Format) (x : Vec4d) :
  formatSwizzle true f (formatSwizzle false f x) = x
  /\ formatSwizzle false f (formatSwizzle true f x) = x.
Proof.
  split; [ apply formatSwizzle_reverse | ].
  pose proof (formatSwizzle_permutes f) as H.
  unfold formatSwizzle.
  destruct (formatSwizzle_case f) as [[[[A B] C] D] | ]; [ | reflexivity ].
  apply swizzle_forward. exact H.
Qed.

Section Convert.
Context {lib : EngineLib}.

(** X18: [convert] between a format of four one-byte components in the
    order RGBA and its BGRA sibling swaps the first and the third byte and
    leaves the others, in either direction. *)
Theorem convert_rgba_bgra (rgba bgra : Format) (T : CompType) (Fac : Z)
    (b0 b1 b2 b3 : Z) :
  ioFormat_case rgba = Plain 4 T Fac false ->
  ioFormat_case bgra = Plain 4 T Fac false ->
  formatSwizzle_case rgba = None ->
  formatSwizzle_case bgra = Some (2, 1, 0, 3)%nat ->
  (T = U8 \/ T = I8) ->
  isByte b0 -> isByte b1 -> isByte b2 -> isByte b3 ->
  convert bgra rgba [b0; b1; b2; b3] = Some ([b2; b1; b0; b3], [])
  /\ convert rgba bgra [b0; b1; b2; b3] = Some ([b2; b1; b0; b3], []).
Proof.
  intros Hrgba Hbgra Hsr Hsb HT H0 H1 H2 H3.
  assert (Hexact : exactCodec (Plain 4 T Fac false) = true).
  { pose proof (ioFormat_case_exact rgba) as He. rewrite Hrgba in He.
    destruct HT as [-> | ->]; exact He. }
  cbn [exactCodec negb andb Nat.leb] in Hexact.
  assert (Hsize : sizeofT T = 1%nat) by (destruct HT as [-> | ->]; reflexivity).
  assert (Hcomp : forall b, isByte b -> plainComponent T Fac b = b)
    by (intros b Hb; apply plainComponent_exact; assumption).
  assert (Hle : forall b, isByte b -> le_bytes 1 b = [b]).
  { intros b Hb. unfold isByte in Hb. cbn [le_bytes seq map].
    change (8 * Z.of_nat 0) with 0. rewrite Z.shiftr_0_r, Z.mod_small by lia.
    reflexivity. }
  assert (Hread : forall a b c d,
            FormatReader.call 4 T Fac false [a; b; c; d]
            = Some (vmap (fun c => (c / double_of_Z Fac)%float)
                      (Vec4d_of_list (map (comp_to_double T) [a; b; c; d])), [])).
  { intros a b c d. unfold FormatReader.call.
    rewrite (read_comps_bytes T [a; b; c; d] Hsize). reflexivity. }
  unfold convert, read, write, ioFormat_read, ioFormat_write, formatSwizzle.
  rewrite Hrgba, Hbgra, Hsr, Hsb, !Hread.
  unfold FormatWriter.call. rewrite Hsize.
  cbn [seq flat_map app map Vec4d_of_list nth vmap swizzle vget vset
       c0 c1 c2 c3 Vec4d_zero].
  repeat match goal with
         | |- context [ double_to_comp T
                          (double_of_Z Fac
                           * (comp_to_double T ?b / double_of_Z Fac))%float ] =>
             fold (plainComponent T Fac b)
         end.
  rewrite !Hcomp, !Hle by assumption.
  split; reflexivity.
Qed.

End Convert.

Section ConvertSnorm.
Context {lib : EngineLib}.

(** X20: [formatSwizzle] has no case for the BGRA formats of kind SNORM:
    [convert] from [b8g8r8a8Snorm] to [r8g8b8a8Snorm] hands the four bytes
    on in the order they have, the first byte (blue) as red. *)
Theorem convert_bgra_snorm_same_order (b0 b1 b2 b3 : Z) :
  isByte b0 -> isByte b1 -> isByte b2 -> isByte b3 ->
  formatSwizzle_case b8g8r8a8Snorm = None
  /\ convert r8g8b8a8Snorm b8g8r8a8Snorm [b0; b1; b2; b3]
     = Some ([b0; b1; b2; b3], []).
Proof.
  intros H0 H1 H2 H3. split; [ reflexivity | ].
  assert (Hcomp : forall b, isByte b -> plainComponent I8 127 b = b)
    by (intros b Hb; apply plainComponent_exact; [ reflexivity | assumption ]).
  assert (Hle : forall b, isByte b -> le_bytes 1 b = [b]).
  { intros b Hb. unfold isByte in Hb. cbn [le_bytes seq map].
    change (8 * Z.of_nat 0) with 0. rewrite Z.shiftr_0_r, Z.mod_small by lia.
    reflexivity. }
  unfold convert, read, write, ioFormat_read, ioFormat_write, formatSwizzle.
  change (ioFormat_case b8g8r8a8Snorm) with (Plain 4 I8 127 false).
  change (ioFormat_case r8g8b8a8Snorm) with (Plain 4 I8 127 false).
  change (formatSwizzle_case b8g8r8a8Snorm) with (@None (nat * nat * nat * nat)).
  change (formatSwizzle_case r8g8b8a8Snorm) with (@None (nat * nat * nat * nat)).
  cbv iota beta.
  unfold FormatReader.call.
  rewrite (read_comps_bytes I8 [b0; b1; b2; b3] eq_refl).
  cbv iota beta.
  unfold FormatWriter.call.
  cbn [sizeofT seq flat_map app map Vec4d_of_list nth vmap swizzle vget vset
       c0 c1 c2 c3 Vec4d_zero].
  repeat match goal with
         | |- context [ double_to_comp I8
                          (double_of_Z 127
                           * (comp_to_double I8 ?b / double_of_Z 127))%float ] =>
             fold (plainComponent I8 127 b)
         end.
  rewrite !Hcomp, !Hle by assumption.
  reflexivity.
Qed.

End ConvertSnorm.

(** X24: the component read from an 8-bit UNORM texel lies within 0 and
    1; the component read from an 8-bit SNORM texel lies within -1 and 1
    for every byte but [0x80], which is read as [-128 / 127]: the reader
    does not clamp. *)
Theorem normalised8_range (lib : EngineLib) (b : Z) :
  isByte b ->
  redWithin r8Unorm 0%float 1%float b = true
  /\ redWithin r8Snorm (-1)%float 1%float b = negb (b =? 128)
  /\ read r8Snorm [128]
     = Some (mkVec4d (-128 / 127)%float 0%float 0%float 0%float, []).
Proof.
  intros Hb.
  assert (Hall : below 256
                   (fun b => redWithin r8Unorm 0%float 1%float b
                             && Bool.eqb (redWithin r8Snorm (-1)%float 1%float b)
                                         (negb (b =? 128)))
                 = true) by (vm_compute; reflexivity).
  pose proof (below_spec _ _ b Hall Hb) as H. cbv beta in H.
  apply andb_true_iff in H. destruct H as [Hu Hs].
  apply Bool.eqb_prop in Hs.
  split; [ exact Hu | ]. split; [ exact Hs | ].
  vm_compute. reflexivity.
Qed.

(** ** PNG *)

Lemma pngLayout_16bit (fmt : Format) :
  fmt = r16g16b16Unorm \/ fmt = r16g16b16a16Unorm ->
  exists comps, pngLayout fmt = Some (PNG_COLOR_TYPE_GRAY, 16, comps)
                /\ (fmt = r16g16b16Unorm -> comps = 3)
                /\ (fmt = r16g16b16a16Unorm -> comps = 4).
Proof.
  intros [-> | ->]; [ exists 3 | exists 4 ]; repeat split; intro H; discriminate H.
Qed.

(** C8: for a provider of format [r16g16b16Unorm] or
    [r16g16b16a16Unorm], the IHDR that [writePng] sets has the colour
    type [PNG_COLOR_TYPE_GRAY], and a face of the correct length (two
    bytes per component) is answered with [WriteError::readError]: the
    length is compared with one byte per component. *)
Theorem writePng_16bit_gray (img : ImageProvider.t) :
  ImageProvider.format img = r16g16b16Unorm
  \/ ImageProvider.format img = r16g16b16a16Unorm ->
  ihdrColorType (snd (writePng img)) = Some PNG_COLOR_TYPE_GRAY
  /\ (forall data,
        ImageProvider.read img 0 0 = Ok data ->
        0 < Z.of_nat (length data) < 2 ^ 32 ->
        Z.of_nat (length data) =
          vx (ImageProvider.size img) * vy (ImageProvider.size img)
          * 2 * (if ImageProvider.format img =? r16g16b16Unorm then 3 else 4) ->
        fst (writePng img) = Ok WriteError_readError).
Proof.
  intros Hfmt.
  destruct (pngLayout_16bit _ Hfmt) as (comps & Hlay & H3 & H4).
  unfold writePng, writePngThrow. rewrite Hlay.
  split.
  - destruct (ImageProvider.read img 0 0) as [data | e | | ] eqn:Hr.
    + destruct (negb _); reflexivity.
    + destruct e; reflexivity.
    + reflexivity.
    + reflexivity.
  - intros data Hr Hlen Hsz. rewrite Hr.
    assert (Hc : (if ImageProvider.format img =? r16g16b16Unorm then 3 else 4) = comps).
    { destruct Hfmt as [Hf | Hf]; rewrite Hf;
        [ rewrite (H3 Hf) | rewrite (H4 Hf) ]; reflexivity. }
    rewrite Hc in Hsz.
    assert (Hne : (Z.of_nat (length data)
             =? u32 (vx (ImageProvider.size img) * vy (ImageProvider.size img) * comps))
            = false).
    { apply Z.eqb_neq. unfold u32. intro Heq.
      set (n := vx (ImageProvider.size img) * vy (ImageProvider.size img) * comps) in *.
      assert (Hn : Z.of_nat (length data) = 2 * n) by (subst n; lia).
      rewrite Hn in Heq, Hlen.
      rewrite Z.mod_small in Heq by lia. lia. }
    rewrite Hne. reflexivity.
Qed.

(** ** PNG, the 8-bit formats *)


(** ** The in-memory provider *)

Section MemFaces.
Context {fu : FormatUtils}.

Lemma spanAt_length (p : ptr) (n : Z) (span : list Z) :
  0 <= n -> spanAt p n = Ok span -> Z.of_nat (length span) = n.
Proof.
  intros Hn. unfold spanAt.
  destruct ((0 <=? off p) && (off p + n <=? Z.of_nat (length (mem p)))) eqn:Hin;
    [ | discriminate ].
  apply andb_prop in Hin. destruct Hin as [H0 H1].
  apply Z.leb_le in H0. apply Z.leb_le in H1.
  intros Hspan. inversion Hspan; subst span.
  rewrite length_firstn, length_skipn. lia.
Qed.

Lemma MemImageProvider_read_length (p : MemImageProvider.t) (mip layer : Z)
    (span : list Z) :
  MemImageProvider.read p mip layer = Ok span ->
  Z.of_nat (length span) = MemImageProvider.faceSize p mip.
Proof.
  unfold MemImageProvider.read.
  destruct (nth_error _ _) as [ref | ]; [ | discriminate ].
  apply spanAt_length. unfold MemImageProvider.faceSize. apply u32_range.
Qed.

Lemma mipDim_range (x mip : Z) :
  0 <= x < 2 ^ 32 -> 0 <= mip -> 1 <= Z.max (Z.shiftr x mip) 1 < 2 ^ 32.
Proof.
  intros Hx Hmip. rewrite Z.shiftr_div_pow2 by exact Hmip.
  assert (Hp : 0 < 2 ^ mip) by (apply Z.pow_pos_nonneg; lia).
  assert (x / 2 ^ mip <= x).
  { apply Z.div_le_upper_bound; [ exact Hp | nia ]. }
  lia.
Qed.

Lemma ceilDivide_1 (x : Z) : 0 <= x < 2 ^ 32 -> ceilDivide x 1 = x.
Proof.
  intros Hx. unfold ceilDivide.
  replace (x + 1 - 1) with x by lia.
  rewrite u32_small by exact Hx. apply Z.div_1_r.
Qed.

(** X4: for a format whose block is one texel, every face that the
    in-memory provider hands out has the length [sizeBytes] gives. *)
Theorem MemImageProvider_faceSize_uncompressed (p : MemImageProvider.t) (mip : Z) :
  blockSize (MemImageProvider.format_ p) = mkVec3ui 1 1 1 ->
  0 <= vx (MemImageProvider.size_ p) < 2 ^ 32 ->
  0 <= vy (MemImageProvider.size_ p) < 2 ^ 32 ->
  0 <= vz (MemImageProvider.size_ p) < 2 ^ 32 ->
  0 <= mip ->
  forall layer span,
    MemImageProvider.read p mip layer = Ok span ->
    Z.of_nat (length span)
    = sizeBytes (MemImageProvider.size_ p) mip (MemImageProvider.format_ p).
Proof.
  intros Hblock Hx Hy Hz Hmip layer span Hread.
  rewrite (MemImageProvider_read_length p mip layer span Hread).
  unfold MemImageProvider.faceSize, sizeBytes.
  rewrite Hblock. cbn [vx vy vz].
  rewrite !ceilDivide_1 by (pose proof (mipDim_range _ mip Hx Hmip);
                            pose proof (mipDim_range _ mip Hy Hmip);
                            pose proof (mipDim_range _ mip Hz Hmip); lia).
  reflexivity.
Qed.

(** C4: for the block-compressed [bc7UnormBlock] (blocks of 4x4x1 texels,
    16 bytes each) the provider made by [wrapImage] for a 4x4x1 image
    hands out a face of 256 bytes, one element per texel, where
    [sizeBytes] is 16, one element per block. *)
Theorem MemImageProvider_block_faceSize (data : list Z) :
  formatElementSize bc7UnormBlock = 16 ->
  blockSize bc7UnormBlock = mkVec3ui 4 4 1 ->
  length data = 256%nat ->
  MemImageProvider.read (wrapImage (mkVec3ui 4 4 1) bc7UnormBlock data) 0 0 = Ok data
  /\ sizeBytes (mkVec3ui 4 4 1) 0 bc7UnormBlock = 16.
Proof.
  intros Hsize Hblock Hlen. split.
  - unfold MemImageProvider.read, MemImageProvider.faceSize, wrapImage.
    cbn [MemImageProvider.data_ MemImageProvider.layers_ MemImageProvider.size_
         MemImageProvider.format_].
    rewrite Hsize.
    change (u32 (0 * 1 + 0)) with 0. cbn [Z.to_nat nth_error].
    unfold spanAt. cbn [off mem].
    match goal with |- context [ u32 ?e ] => change (u32 e) with 256 end.
    rewrite Hlen.
    change ((0 <=? 0) && (0 + 256 <=? Z.of_nat 256)) with true. cbv iota.
    change (Z.to_nat 256) with 256%nat. change (Z.to_nat 0) with 0%nat.
    cbn [skipn]. f_equal. rewrite <- Hlen. apply firstn_all.
  - unfold sizeBytes. rewrite Hblock, Hsize. reflexivity.
Qed.

End MemFaces.

(** ** The in-memory provider over one blob *)

Lemma nth_error_grid {A : Type} (g : Z -> Z -> A) (first mips layers m l : Z) :
  first <= m < mips -> 0 <= l < layers ->
  nth_error
    (flat_map (fun m => map (g m) (range 0 layers)) (range first mips))
    (Z.to_nat ((m - first) * layers + l))
  = Some (g m l).
Proof.
  remember (Z.to_nat (m - first)) as n eqn:Hn. revert first Hn.
  induction n as [| n IH]; intros first Hn Hm Hl.
  - assert (first = m) by lia. subst first.
    rewrite (range_cons m mips) by lia. cbn [flat_map].
    replace ((m - m) * layers + l) with l by ring.
    rewrite nth_error_app1 by (rewrite length_map, length_range; lia).
    rewrite nth_error_map.
    rewrite (nth_error_nth' _ 0) by (rewrite length_range; lia).
    rewrite nth_range by lia. cbn [option_map]. do 2 f_equal. lia.
  - rewrite (range_cons first mips) by lia. cbn [flat_map].
    rewrite nth_error_app2 by (rewrite length_map, length_range; nia).
    rewrite length_map, length_range.
    replace (Z.to_nat ((m - first) * layers + l) - Z.to_nat (layers - 0))%nat
      with (Z.to_nat ((m - (first + 1)) * layers + l)) by nia.
    apply IH; lia.
Qed.

(** X16: the provider that [wrapImage] makes over one blob in the tight
    layout hands out, for mip level [m] and layer [l], the bytes of the
    blob from [formatElementSize * tightTexelNumber(size, layers, m, l)]
    on, [faceSize(m)] of them. *)
Theorem wrapImage_tight_read {fu : FormatUtils} (size : Vec3ui) (format : Format)
    (mips layers : Z) (data : list Z) (cubemap : bool) (m l : Z) :
  0 <= m < mips ->
  0 <= l < layers ->
  mips * layers <= 2 ^ 32 ->
  u64 (formatElementSize format * tightTexelNumber size layers m l 0 0 0 0)
  + MemImageProvider.faceSize
      (wrapImage_tight size format mips layers data cubemap) m
  <= Z.of_nat (length data) ->
  MemImageProvider.read (wrapImage_tight size format mips layers data cubemap) m l
  = Ok (firstn
          (Z.to_nat (MemImageProvider.faceSize
                       (wrapImage_tight size format mips layers data cubemap) m))
          (skipn
             (Z.to_nat (u64 (formatElementSize format
                             * tightTexelNumber size layers m l 0 0 0 0)))
             data)).
Proof.
  intros Hm Hl Hfit Hin.
  unfold MemImageProvider.read.
  set (p := wrapImage_tight size format mips layers data cubemap) in *.
  change (MemImageProvider.layers_ p) with layers.
  rewrite u32_small by nia.
  change (MemImageProvider.data_ p)
    with (flat_map
            (fun m => map (fun l => mkPtr data
                             (u64 (formatElementSize format
                                   * tightTexelNumber size layers m l 0 0 0 0)))
                          (range 0 layers))
            (range 0 mips)).
  replace (m * layers + l) with ((m - 0) * layers + l) by ring.
  rewrite (nth_error_grid
             (fun m l => mkPtr data
                (u64 (formatElementSize format
                      * tightTexelNumber size layers m l 0 0 0 0))))
    by lia.
  unfold spanAt. cbn [off mem].
  pose proof (u64_range (formatElementSize format
                         * tightTexelNumber size layers m l 0 0 0 0)) as Hoff.
  destruct (Z.leb_spec 0 (u64 (formatElementSize format
                               * tightTexelNumber size layers m l 0 0 0 0)));
    [ | lia ].
  destruct (Z.leb_spec
              (u64 (formatElementSize format
                    * tightTexelNumber size layers m l 0 0 0 0)
               + MemImageProvider.faceSize p m)
              (Z.of_nat (length data))); [ | lia ].
  reflexivity.
Qed.

(** ** KTX1 *)

Lemma u32_at_flat_map (vs : list Z) (k : nat) :
  Forall (fun v => 0 <= v < 2 ^ 32) vs ->
  (k < length vs)%nat ->
  u32_at (flat_map (le_bytes 4) vs) k = nth k vs 0.
Proof.
  intros Hvs. revert k.
  induction Hvs as [| v vs Hv _ IH]; intros k Hk; [ inversion Hk | ].
  cbn [flat_map]. unfold u32_at.
  destruct k as [| k].
  - change (4 * 0)%nat with 0%nat. cbn [skipn nth].
    rewrite firstn_app, length_le_bytes, Nat.sub_diag, firstn_O, app_nil_r.
    change (firstn 4 (le_bytes 4 v)) with (le_bytes 4 v).
    apply le_value_le_bytes4. exact Hv.
  - replace (4 * S k)%nat with (4 * k + 4)%nat by lia.
    rewrite <- skipn_skipn.
    rewrite skipn_app, length_le_bytes, Nat.sub_diag, skipn_O.
    change (skipn 4 (le_bytes 4 v)) with (@nil Z).
    cbn [app nth]. apply IH. cbn [length] in Hk. lia.
Qed.

(** A header is read back from its object representation. *)
Lemma KtxHeader_of_bytes_bytes (h : KtxHeader) :
  KtxHeader_wf h -> KtxHeader_of_bytes (KtxHeader_bytes h) = h.
Proof.
  intros Hwf. unfold KtxHeader_of_bytes, KtxHeader_bytes.
  fold (KtxHeader_fields h).
  rewrite !u32_at_flat_map by (try exact Hwf; cbn [KtxHeader_fields length]; lia).
  destruct h. reflexivity.
Qed.

Lemma length_KtxHeader_bytes (h : KtxHeader) : length (KtxHeader_bytes h) = 52%nat.
Proof. reflexivity. Qed.

Lemma find_none_all {A : Type} (f : A -> bool) (l : list A) :
  (forall x, In x l -> f x = false) -> find f l = None.
Proof.
  induction l as [| x l IH]; intros H; [ reflexivity | ].
  cbn [find]. rewrite (H x (or_introl eq_refl)).
  apply IH. intros y Hy. apply H. right. exact Hy.
Qed.

Section Ktx1.
Context {fu : FormatUtils} {glv : GLValues}.

(** [loadKtx] on a file whose header passes the checks: the result is
    that of the key/value check. *)
Lemma loadKtx_header_accepted (DLG_CHECK : bool) (h : KtxHeader) (rest : list Z) :
  KtxHeader_wf h ->
  KtxHeader_accepted h ->
  Z.of_nat (length (ktxFile h rest)) < 2 ^ 63 ->
  loadKtx DLG_CHECK (MemoryRead.open (ktxFile h rest))
  = match (if DLG_CHECK then
             keyValues (S (length (ktxFile h rest)))
                       (MemoryRead.mk (ktxFile h rest) 64) 0 (bytesKeyValueData h)
           else kv_read (MemoryRead.mk (ktxFile h rest) 64)) with
    | kv_read s => (ReadError_none, Some (loadedReader h s))
    | _ => (ReadError_unexpectedEnd, None)
    end.
Proof.
  intros Hwf (Hend & H3d & Hw & Hfmt) Hlen.
  set (file := ktxFile h rest) in *.
  assert (Hfile : (64 <= length file)%nat).
  { subst file. unfold ktxFile. rewrite !length_app, length_KtxHeader_bytes.
    cbn [ktxIdentifier length]. lia. }
  unfold loadKtx, MemoryRead.open.
  rewrite readObject_full by lia.
  change (skipn (Z.to_nat 0) file) with file.
  assert (Hid : firstn (Z.to_nat 12) file = ktxIdentifier).
  { subst file. unfold ktxFile. change (Z.to_nat 12) with (length ktxIdentifier).
    rewrite firstn_app, Nat.sub_diag, firstn_O, app_nil_r. apply firstn_all. }
  rewrite Hid, list_eqb_refl. cbn [negb].
  rewrite readObject_full by lia.
  assert (Hhb : firstn (Z.to_nat 52) (skipn (Z.to_nat (0 + 12)) file)
                = KtxHeader_bytes h).
  { subst file. unfold ktxFile. change (Z.to_nat (0 + 12)) with (length ktxIdentifier).
    rewrite skipn_app, Nat.sub_diag, skipn_O, skipn_all. cbn [app].
    change (Z.to_nat 52) with (length (KtxHeader_bytes h)).
    rewrite firstn_app, Nat.sub_diag, firstn_O, app_nil_r. apply firstn_all. }
  rewrite Hhb, KtxHeader_of_bytes_bytes by exact Hwf.
  rewrite Hend, Z.eqb_refl. cbn [negb].
  assert (H3d' : (1 <? pixelDepth h)
                 && ((1 <? numberFaces h) || (1 <? numberArrayElements h)) = false).
  { destruct (Z.ltb_spec 1 (pixelDepth h)); [ | reflexivity ].
    destruct (Z.ltb_spec 1 (numberFaces h)); [ exfalso; apply H3d; auto | ].
    destruct (Z.ltb_spec 1 (numberArrayElements h)); [ exfalso; apply H3d; auto | ].
    reflexivity. }
  rewrite H3d'.
  destruct (Z.eqb_spec (pixelWidth h) 0) as [ | _ ]; [ contradiction | ].
  destruct (Z.eqb_spec (vulkanFromGLFormat (glInternalFormat h)) undefined) as [ | _ ];
    [ contradiction | ].
  unfold MemoryRead.address. cbn [MemoryRead.at_ MemoryRead.buf_].
  assert (Hkvd : 0 <= bytesKeyValueData h < 2 ^ 32).
  { unfold KtxHeader_wf in Hwf. rewrite Forall_forall in Hwf. apply Hwf.
    cbn [KtxHeader_fields]. repeat (first [ left; reflexivity | right ]). }
  change (0 + 12 + 52) with 64.
  rewrite u64_small by (change (2 ^ 64) with (2 ^ 32 * 2 ^ 32); lia).
  reflexivity.
Qed.

(** [loadKtx] on a file whose header passes the checks and whose
    key/value check reads on to [s]. *)
Lemma loadKtx_accepts (DLG_CHECK : bool) (h : KtxHeader) (rest : list Z)
    (s : MemoryRead.t) :
  KtxHeader_wf h ->
  KtxHeader_accepted h ->
  Z.of_nat (length (ktxFile h rest)) < 2 ^ 63 ->
  keyValuesAccepted DLG_CHECK (ktxFile h rest) h s ->
  loadKtx DLG_CHECK (MemoryRead.open (ktxFile h rest))
  = (ReadError_none, Some (loadedReader h s)).
Proof.
  intros Hwf Hacc Hlen Hkv.
  rewrite loadKtx_header_accepted by assumption.
  unfold keyValuesAccepted in Hkv. rewrite Hkv. reflexivity.
Qed.


(** A header without key/value data passes the key/value check. *)
Lemma keyValuesAccepted_empty (DLG_CHECK : bool) (file : list Z) (h : KtxHeader) :
  bytesKeyValueData h = 0 ->
  keyValuesAccepted DLG_CHECK file h (MemoryRead.mk file 64).
Proof.
  intros H0. unfold keyValuesAccepted. rewrite H0.
  destruct DLG_CHECK; reflexivity.
Qed.


Lemma sizeBytes_range (size : Vec3ui) (mip : Z) (fmt : Format) :
  0 <= sizeBytes size mip fmt < 2 ^ 32.
Proof. unfold sizeBytes. apply u32_range. Qed.


(** C10: with the [dlg_check] block compiled, [loadKtx] reads into the
    image payload and finds a cut face out at load time.  The file has an
    accepted header, one key/value pair of twelve bytes, the [imageSize]
    field and fewer than four bytes of face.  The loop over the pairs
    counts the eight bytes of the pair and not its size field, goes round
    once more, takes [imageSize] for the size of a pair and the face for
    the pair: [ReadError::unexpectedEnd].  With the block compiled out the
    same file gives [ReadError::none] and a reader. *)
Theorem loadKtx_keyValues_overread (h : KtxHeader) (face : list Z) :
  KtxHeader_wf h ->
  KtxHeader_accepted h ->
  bytesKeyValueData h = 12 ->
  (length face < 4)%nat ->
  loadKtx true (MemoryRead.open (ktxFile h (keyValue10 ++ le_bytes 4 4 ++ face)))
  = (ReadError_unexpectedEnd, None)
  /\ loadKtx false (MemoryRead.open (ktxFile h (keyValue10 ++ le_bytes 4 4 ++ face)))
     = (ReadError_none,
        Some (loadedReader h
                (MemoryRead.mk (ktxFile h (keyValue10 ++ le_bytes 4 4 ++ face)) 64))).
Proof.
  intros Hwf Hacc Hkvd Hface.
  assert (Hlen : Z.of_nat (length (ktxFile h (keyValue10 ++ le_bytes 4 4 ++ face)))
                 < 2 ^ 63).
  { unfold ktxFile. rewrite !length_app, length_KtxHeader_bytes.
    unfold keyValue10. rewrite !length_app, !length_le_bytes.
    cbn [ktxIdentifier length]. lia. }
  rewrite !loadKtx_header_accepted by assumption.
  rewrite Hkvd.
  split; [ | reflexivity ].
  destruct face as [| b0 [| b1 [| b2 [| b3 face]]]];
    [ | | | | cbn [length] in Hface; lia ].
  all: vm_compute; reflexivity.
Qed.

(** C9: for a provider whose format no entry of the KTX1 format table
    has, [writeKtx] returns [WriteError::unsupportedFormat] with the
    stream twelve bytes further: the identifier has been written, the
    header has not. *)
Theorem writeKtx_unsupported_after_magic (write : Write.t) (img : ImageProvider.t) :
  (forall entry, In entry formatMap -> vkFormat entry <> ImageProvider.format img) ->
  writeKtx write img
  = (Ok WriteError_unsupportedFormat, Write.write write ktxIdentifier)
  /\ Write.address (Write.write write ktxIdentifier) = Write.address write + 12
  /\ Write.write write ktxIdentifier <> write
  /\ Write.write Write.empty ktxIdentifier = Write.mk ktxIdentifier 12.
Proof.
  intros Hnone.
  assert (Hfind : find (fun ientry => vkFormat ientry =? ImageProvider.format img)
                       formatMap = None).
  { apply find_none_all. intros e He. apply Z.eqb_neq. apply Hnone. exact He. }
  repeat split.
  - unfold writeKtx, writeKtxThrow. rewrite Hfind. reflexivity.
  - intros Heq. apply (f_equal Write.at_) in Heq.
    unfold Write.write in Heq. cbn [Write.at_ ktxIdentifier length] in Heq. lia.
Qed.

Section RGBA8.
Hypothesis Hsize : formatElementSize r8g8b8a8Unorm = 4.
Hypothesis Hblock : blockSize r8g8b8a8Unorm = mkVec3ui 1 1 1.
Hypothesis Hrange :
  0 <= gl GL_RGBA8 < 2 ^ 32 /\ 0 <= gl GL_RGBA < 2 ^ 32
  /\ 0 <= gl GL_UNSIGNED_BYTE < 2 ^ 32.
Hypothesis Hdistinct :
  gl GL_R8 <> gl GL_RGBA8 /\ gl GL_RG8 <> gl GL_RGBA8 /\ gl GL_RGB8 <> gl GL_RGBA8.

Lemma provider6_read : ImageProvider.read provider6 0 0 = Ok face6.
Proof.
  unfold provider6, MemImageProvider.provider. cbn [ImageProvider.read].
  unfold MemImageProvider.read, MemImageProvider.faceSize, wrapImage.
  cbn [MemImageProvider.data_ MemImageProvider.layers_ MemImageProvider.size_
       MemImageProvider.format_].
  rewrite Hsize. reflexivity.
Qed.

(** What [writeKtx] writes for the 1x1 image: identifier, header, the
    [imageSize] field 4, the face. *)
Lemma writeKtx_provider6 :
  writeKtx Write.empty provider6
  = (Ok WriteError_none, Write.mk (ktxFile header6 (le_bytes 4 4 ++ face6)) 72).
Proof.
  unfold writeKtx, writeKtxThrow. cbv zeta.
  change (ImageProvider.format provider6) with r8g8b8a8Unorm.
  rewrite Hsize.
  change (find (fun ientry => vkFormat ientry =? r8g8b8a8Unorm) formatMap)
    with (Some (mkFormatEntry (gl GL_RGBA8) (gl GL_RGBA) (gl GL_UNSIGNED_BYTE)
                              r8g8b8a8Unorm)).
  cbv iota beta.
  change (ImageProvider.cubemap provider6) with false. cbv iota.
  change (ImageProvider.mipLevels provider6) with 1.
  change (ImageProvider.layers provider6) with 1.
  change (ImageProvider.size provider6) with (mkVec3ui 1 1 1).
  change (range 0 (Z.max 1 1)) with [0].
  cbn [loop]. unfold writeKtxMip.
  change (layerFaces (Z.max 1 1) 1) with [(0, 0)].
  cbn [loop]. unfold writeKtxFace.
  change (u32 (0 * 1 + 0)) with 0.
  rewrite provider6_read.
  reflexivity.
Qed.

Lemma vulkanFromGLFormat_RGBA8 : vulkanFromGLFormat (gl GL_RGBA8) = r8g8b8a8Unorm.
Proof.
  destruct Hdistinct as (H1 & H2 & H3).
  unfold vulkanFromGLFormat, formatMap. cbn [find glFormat].
  rewrite (proj2 (Z.eqb_neq _ _) H1), (proj2 (Z.eqb_neq _ _) H2),
          (proj2 (Z.eqb_neq _ _) H3), Z.eqb_refl.
  reflexivity.
Qed.

Lemma header6_wf : KtxHeader_wf header6.
Proof.
  destruct Hrange as (H1 & H2 & H3).
  unfold KtxHeader_wf, header6, KtxHeader_fields.
  cbn [endianness glType glTypeSize glFormat_ glInternalFormat glBaseInternalFormat
       pixelWidth pixelHeight pixelDepth numberArrayElements numberFaces
       numberMipmapLevels bytesKeyValueData].
  destruct (gl GL_UNSIGNED_BYTE =? 0);
    repeat (constructor; [ first [ assumption | unfold ktxEndianess; lia ] | ]);
    constructor.
Qed.

Lemma header6_accepted : KtxHeader_accepted header6.
Proof.
  unfold KtxHeader_accepted, header6.
  cbn [endianness pixelDepth numberFaces numberArrayElements pixelWidth glInternalFormat].
  rewrite vulkanFromGLFormat_RGBA8.
  repeat split; try lia; try discriminate.
Qed.

Lemma header10_wf : KtxHeader_wf header10.
Proof.
  destruct Hrange as (H1 & H2 & H3).
  unfold KtxHeader_wf, header10, KtxHeader_fields.
  cbn [endianness glType glTypeSize glFormat_ glInternalFormat glBaseInternalFormat
       pixelWidth pixelHeight pixelDepth numberArrayElements numberFaces
       numberMipmapLevels bytesKeyValueData].
  destruct (gl GL_UNSIGNED_BYTE =? 0);
    repeat (constructor; [ first [ assumption | unfold ktxEndianess; lia ] | ]);
    constructor.
Qed.

Lemma header10_accepted : KtxHeader_accepted header10.
Proof.
  unfold KtxHeader_accepted, header10.
  cbn [endianness pixelDepth numberFaces numberArrayElements pixelWidth glInternalFormat].
  rewrite vulkanFromGLFormat_RGBA8.
  repeat split; try lia; try discriminate.
Qed.

(** C6: [writeKtx] of the 1x1 [r8g8b8a8Unorm] image with one mip, one
    layer and the face [{0x11, 0x22, 0x33, 0x44}] succeeds and writes 72
    bytes, and [loadKtx] of these bytes gives a provider whose
    [read(0, 0)] is the same four bytes. *)
Theorem ktx1_rgba8_1x1_roundtrip (DLG_CHECK : bool) :
  exists out reader,
    writeKtx Write.empty provider6 = (Ok WriteError_none, out)
    /\ length (Write.data out) = 72%nat
    /\ loadKtx DLG_CHECK (MemoryRead.open (Write.data out))
       = (ReadError_none, Some reader)
    /\ KtxReader.read reader 0 0 = Ok face6.
Proof.
  eexists. eexists.
  split; [ apply writeKtx_provider6 | ].
  split; [ reflexivity | ].
  cbn [Write.data].
  split.
  - apply loadKtx_accepts.
    + exact header6_wf.
    + exact header6_accepted.
    + cbv. reflexivity.
    + apply keyValuesAccepted_empty. reflexivity.
  - unfold KtxReader.read, KtxReader.offset, KtxReader.faceSize, sizeBytes,
      loadedReader.
    cbn [KtxReader.size_ KtxReader.format_ KtxReader.stream_ KtxReader.dataBegin_
         glInternalFormat header6].
    rewrite vulkanFromGLFormat_RGBA8, Hblock, Hsize.
    reflexivity.
Qed.

End RGBA8.
End Ktx1.

(** ** The layout that [KtxReader] assumes *)

Lemma align_4_multiple (x : Z) : align x 4 mod 4 = 0.
Proof.
  unfold align.
  destruct (Z.eqb_spec x 0) as [-> | Hx]; cbn [orb]; [ reflexivity | ].
  change (4 =? 0) with false. cbv iota.
  destruct (Z.eqb_spec (x mod 4) 0) as [H0 | H0]; [ exact H0 | ].
  pose proof (Z.mod_pos_bound x 4 ltac:(lia)).
  pose proof (Z.div_mod x 4 ltac:(lia)) as Hdm.
  replace (x + (4 - x mod 4)) with ((x / 4 + 1) * 4) by lia.
  apply Z.mod_mul. lia.
Qed.

Lemma align_4_of_multiple (x : Z) : x mod 4 = 0 -> align x 4 = x.
Proof.
  intros H. unfold align.
  destruct (Z.eqb_spec x 0) as [-> | Hx]; cbn [orb]; [ reflexivity | ].
  change (4 =? 0) with false. cbv iota. rewrite H. reflexivity.
Qed.

Lemma u64_mod_4 (x : Z) : u64 x mod 4 = x mod 4.
Proof.
  unfold u64. change (2 ^ 64) with (4 * 4611686018427387904).
  rewrite Z.rem_mul_r by lia.
  rewrite Z.mul_comm, Z.mod_add by lia.
  apply Z.mod_mod. lia.
Qed.

Lemma u64_add_l (a b : Z) : u64 (u64 a + b) = u64 (a + b).
Proof. unfold u64. apply Z.add_mod_idemp_l. discriminate. Qed.

Lemma u64_add_r (a b : Z) : u64 (a + u64 b) = u64 (a + b).
Proof. unfold u64. apply Z.add_mod_idemp_r. discriminate. Qed.

Lemma u64_mul_r (a b : Z) : u64 (a * u64 b) = u64 (a * b).
Proof. unfold u64. apply Z.mul_mod_idemp_r. discriminate. Qed.

Section KtxLayout.
Context {fu : FormatUtils}.

(** One level of the loop of [offset], modulo [2^64]. *)
Lemma ktxOffset_level (r : KtxReader.t) (i : Z) :
  u64 (align (u64 (KtxReader.layers r * u64 (align (KtxReader.faceSize r i) 4))) 4)
  = u64 (KtxReader.layers r * align (KtxReader.faceSize r i) 4).
Proof.
  rewrite u64_mul_r.
  rewrite align_4_of_multiple.
  - unfold u64. apply Z.mod_mod. discriminate.
  - rewrite u64_mod_4.
    rewrite <- Z.mul_mod_idemp_r, align_4_multiple, Z.mul_0_r by lia.
    reflexivity.
Qed.

Lemma ktxOffset_fold (r : KtxReader.t) (mips : list Z) (a : Z) :
  u64 (fold_left
         (fun address i =>
            u64 (u64 (address + 4)
                 + u64 (align (u64 (KtxReader.layers r
                                    * u64 (align (KtxReader.faceSize r i) 4)))
                              4)))
         mips a)
  = u64 (a + fold_right (fun i acc => ktxLevelBytes r i + acc) 0 mips).
Proof.
  revert a. induction mips as [| i mips IH]; intros a; cbn [fold_left fold_right].
  - rewrite Z.add_0_r. reflexivity.
  - rewrite IH. rewrite ktxOffset_level.
    rewrite u64_add_l, <- Z.add_assoc, u64_add_l.
    rewrite (Z.add_comm (u64 _)), Z.add_assoc, u64_add_r.
    unfold ktxLevelBytes. f_equal. ring.
Qed.

Lemma KtxReader_offset_sum (r : KtxReader.t) (mip layer : Z) :
  KtxReader.offset r mip layer = u64 (ktxFaceOffset r mip layer).
Proof.
  unfold KtxReader.offset, ktxFaceOffset. cbv zeta.
  rewrite u64_mul_r, u64_add_l, u64_add_r.
  rewrite <- Z.add_assoc, <- u64_add_l, ktxOffset_fold, u64_add_l.
  f_equal. ring.
Qed.

(** X21: the address [KtxReader::offset] computes for a face is, modulo
    [2^64], the begin of the data plus, for every mip level before, four
    bytes and [layers] faces padded to four bytes, plus four bytes and the
    padded faces of the level before it; it is a multiple of four exactly
    when the begin of the data is one. *)
Theorem KtxReader_offset_closed (r : KtxReader.t) (mip layer : Z) :
  KtxReader.offset r mip layer = u64 (ktxFaceOffset r mip layer)
  /\ KtxReader.offset r mip layer mod 4 = KtxReader.dataBegin_ r mod 4.
Proof.
  split; [ apply KtxReader_offset_sum | ].
  rewrite KtxReader_offset_sum, u64_mod_4. unfold ktxFaceOffset.
  assert (Hsum : forall mips,
             fold_right (fun i acc => ktxLevelBytes r i + acc) 0 mips mod 4 = 0).
  { induction mips as [| i mips IH]; cbn [fold_right]; [ reflexivity | ].
    rewrite Z.add_mod, IH, Z.add_0_r, Z.mod_mod by lia.
    unfold ktxLevelBytes.
    rewrite Z.add_mod, <- Z.mul_mod_idemp_r, align_4_multiple, Z.mul_0_r by lia.
    reflexivity. }
  rewrite <- !Z.add_assoc.
  rewrite Z.add_mod by lia.
  rewrite (Z.add_mod (fold_right _ _ _)) by lia.
  rewrite Hsum, Z.add_0_l, Z.mod_mod by lia.
  rewrite (Z.add_mod 4) by lia.
  rewrite <- (Z.mul_mod_idemp_r layer), align_4_multiple, Z.mul_0_r by lia.
  change (4 mod 4) with 0. change (0 mod 4) with 0. cbn [Z.add].
  change (0 mod 4) with 0. rewrite Z.add_0_r. apply Z.mod_mod. lia.
Qed.

End KtxLayout.

Lemma list_eqb_eq (a b : list Z) : list_eqb a b = true <-> a = b.
Proof.
  revert b. induction a as [| x a IH]; intros [| y b]; cbn [list_eqb];
    try (split; [ discriminate | discriminate ]); [ tauto | ].
  rewrite andb_true_iff, Z.eqb_eq, IH.
  split; [ intros [-> ->]; reflexivity | intros H; injection H; auto ].
Qed.

Section Ktx1Errors.
Context {fu : FormatUtils} {glv : GLValues}.

(** X25: [loadKtx] on a buffer that ends before the twelve bytes of
    the identifier or before the end of the header returns
    [unexpectedEnd]; on one that begins with twelve other bytes it returns
    [invalidType], however short it is after them. *)
Theorem loadKtx_short_or_foreign (DLG_CHECK : bool) (buf : list Z) :
  Z.of_nat (length buf) < 2 ^ 63 ->
  ((length buf < 12)%nat ->
   loadKtx DLG_CHECK (MemoryRead.open buf) = (ReadError_unexpectedEnd, None))
  /\ ((12 <= length buf)%nat -> firstn 12 buf <> ktxIdentifier ->
      loadKtx DLG_CHECK (MemoryRead.open buf) = (ReadError_invalidType, None))
  /\ (firstn 12 buf = ktxIdentifier -> (length buf < 64)%nat ->
      loadKtx DLG_CHECK (MemoryRead.open buf) = (ReadError_unexpectedEnd, None)).
Proof.
  intros Hlen.
  assert (Hshort : forall at_ n,
             0 <= at_ <= Z.of_nat (length buf) -> 0 <= n < 2 ^ 63 ->
             Z.of_nat (length buf) < at_ + n ->
             fst (MemoryRead.readObject (MemoryRead.mk buf at_) n) = None).
  { intros at_ n Hat Hn Hs.
    destruct (readPartial_min buf at_ n ltac:(lia) Hn Hlen)
      as (Hpartial & Hbytes).
    cbv zeta in Hpartial, Hbytes.
    unfold MemoryRead.readObject. rewrite Hpartial, Hbytes.
    rewrite (signed64_small n) by exact Hn.
    destruct (Z.eqb_spec (Z.min n (Z.max (Z.of_nat (length buf) - at_) 0)) n);
      [ lia | reflexivity ]. }
  unfold loadKtx, MemoryRead.open.
  split; [ | split ].
  - intros H12.
    pose proof (Hshort 0 12 ltac:(lia) ltac:(lia) ltac:(lia)) as H.
    destruct (MemoryRead.readObject (MemoryRead.mk buf 0) 12) as [[b | ] s];
      [ discriminate H | reflexivity ].
  - intros H12 Hid.
    rewrite readObject_full by lia.
    change (skipn (Z.to_nat 0) buf) with buf. change (Z.to_nat 12) with 12%nat.
    destruct (list_eqb (firstn 12 buf) ktxIdentifier) eqn:Heq.
    + apply list_eqb_eq in Heq. contradiction.
    + reflexivity.
  - intros Hid H64.
    assert (H12 : (12 <= length buf)%nat).
    { rewrite <- (firstn_skipn 12 buf), length_app, Hid. cbn [length ktxIdentifier]. lia. }
    rewrite readObject_full by lia.
    change (skipn (Z.to_nat 0) buf) with buf. change (Z.to_nat 12) with 12%nat.
    rewrite Hid, list_eqb_refl. cbn [negb].
    pose proof (Hshort (0 + 12) 52 ltac:(lia) ltac:(lia) ltac:(lia)) as H.
    destruct (MemoryRead.readObject (MemoryRead.mk buf (0 + 12)) 52) as [[b | ] s];
      [ discriminate H | reflexivity ].
Qed.

(** X26: the checks of [loadKtx] on the header, in their order: another
    endianness value gives [invalidEndianess]; then a depth above 1
    together with faces or array elements gives [cantRepresent]; then a
    width of 0 gives [empty]; then an internal format that is not in the
    table gives [unsupportedFormat]. *)
Theorem loadKtx_header_errors (DLG_CHECK : bool) (h : KtxHeader) (rest : list Z) :
  KtxHeader_wf h ->
  Z.of_nat (length (ktxFile h rest)) < 2 ^ 63 ->
  let result := loadKtx DLG_CHECK (MemoryRead.open (ktxFile h rest)) in
  let layered3d :=
    1 < pixelDepth h /\ (1 < numberFaces h \/ 1 < numberArrayElements h) in
  (endianness h <> ktxEndianess -> result = (ReadError_invalidEndianess, None))
  /\ (endianness h = ktxEndianess -> layered3d ->
      result = (ReadError_cantRepresent, None))
  /\ (endianness h = ktxEndianess -> ~ layered3d -> pixelWidth h = 0 ->
      result = (ReadError_empty, None))
  /\ (endianness h = ktxEndianess -> ~ layered3d -> pixelWidth h <> 0 ->
      vulkanFromGLFormat (glInternalFormat h) = undefined ->
      result = (ReadError_unsupportedFormat, None)).
Proof.
  intros Hwf Hlen result layered3d.
  set (file := ktxFile h rest) in *.
  assert (Hfile : (64 <= length file)%nat).
  { subst file. unfold ktxFile. rewrite !length_app, length_KtxHeader_bytes.
    cbn [ktxIdentifier length]. lia. }
  assert (Hid : firstn (Z.to_nat 12) file = ktxIdentifier).
  { subst file. unfold ktxFile. change (Z.to_nat 12) with (length ktxIdentifier).
    rewrite firstn_app, Nat.sub_diag, firstn_O, app_nil_r. apply firstn_all. }
  assert (Hhb : firstn (Z.to_nat 52) (skipn (Z.to_nat (0 + 12)) file)
                = KtxHeader_bytes h).
  { subst file. unfold ktxFile. change (Z.to_nat (0 + 12)) with (length ktxIdentifier).
    rewrite skipn_app, Nat.sub_diag, skipn_O, skipn_all. cbn [app].
    change (Z.to_nat 52) with (length (KtxHeader_bytes h)).
    rewrite firstn_app, Nat.sub_diag, firstn_O, app_nil_r. apply firstn_all. }
  assert (Hparsed : result
            = if negb (endianness h =? ktxEndianess) then
                (ReadError_invalidEndianess, None)
              else if (1 <? pixelDepth h)
                      && ((1 <? numberFaces h) || (1 <? numberArrayElements h))
              then (ReadError_cantRepresent, None)
              else if pixelWidth h =? 0 then (ReadError_empty, None)
              else if vulkanFromGLFormat (glInternalFormat h) =? undefined then
                (ReadError_unsupportedFormat, None)
              else result).
  { unfold result at 1. unfold loadKtx, MemoryRead.open.
    rewrite readObject_full by lia.
    change (skipn (Z.to_nat 0) file) with file.
    rewrite Hid, list_eqb_refl. cbn [negb].
    rewrite readObject_full by lia.
    rewrite Hhb, KtxHeader_of_bytes_bytes by exact Hwf.
    destruct (negb (endianness h =? ktxEndianess)) eqn:He; [ reflexivity | ].
    destruct ((1 <? pixelDepth h)
              && ((1 <? numberFaces h) || (1 <? numberArrayElements h))) eqn:Hd;
      [ reflexivity | ].
    destruct (pixelWidth h =? 0) eqn:Hw; [ reflexivity | ].
    destruct (vulkanFromGLFormat (glInternalFormat h) =? undefined) eqn:Hf;
      [ reflexivity | ].
    unfold result, loadKtx, MemoryRead.open.
    rewrite readObject_full by lia.
    change (skipn (Z.to_nat 0) file) with file.
    rewrite Hid, list_eqb_refl. cbn [negb].
    rewrite readObject_full by lia.
    rewrite Hhb, KtxHeader_of_bytes_bytes by exact Hwf.
    rewrite He, Hd, Hw, Hf. reflexivity. }
  assert (Hl3 : layered3d <->
                (1 <? pixelDepth h)
                && ((1 <? numberFaces h) || (1 <? numberArrayElements h)) = true).
  { unfold layered3d.
    rewrite andb_true_iff, orb_true_iff, !Z.ltb_lt. reflexivity. }
  repeat split.
  - intros He. rewrite Hparsed.
    destruct (Z.eqb_spec (endianness h) ktxEndianess); [ contradiction | reflexivity ].
  - intros He H3. rewrite Hparsed, He, Z.eqb_refl. cbn [negb].
    apply Hl3 in H3. rewrite H3. reflexivity.
  - intros He H3 Hw. rewrite Hparsed, He, Z.eqb_refl. cbn [negb].
    destruct ((1 <? pixelDepth h)
              && ((1 <? numberFaces h) || (1 <? numberArrayElements h))) eqn:Hd.
    + exfalso. apply H3. apply Hl3. reflexivity.
    + rewrite Hw. reflexivity.
  - intros He H3 Hw Hf. rewrite Hparsed, He, Z.eqb_refl. cbn [negb].
    destruct ((1 <? pixelDepth h)
              && ((1 <? numberFaces h) || (1 <? numberArrayElements h))) eqn:Hd.
    + exfalso. apply H3. apply Hl3. reflexivity.
    + destruct (Z.eqb_spec (pixelWidth h) 0); [ contradiction | ].
      rewrite Hf. reflexivity.
Qed.

End Ktx1Errors.

(** ** Writing and reading back a KTX1 file *)

Lemma Write_write_end (w : Write.t) (bytes : list Z) :
  Write.at_ w = Z.of_nat (length (Write.data w)) ->
  Write.write w bytes
  = Write.mk (Write.data w ++ bytes)
             (Z.of_nat (length (Write.data w ++ bytes))).
Proof.
  intros Hat. unfold Write.write. rewrite Hat, Nat2Z.id.
  rewrite firstn_all, Nat.sub_diag, skipn_all2 by lia.
  cbn [repeat app]. rewrite app_nil_r, length_app, Nat2Z.inj_add. reflexivity.
Qed.

Lemma placed_app (data more : list Z) (pos : Z) (span : list Z) :
  placed data pos span -> placed (data ++ more) pos span.
Proof.
  unfold placed. intros H.
  rewrite skipn_app, firstn_app.
  assert (Hlen : (length span <= length (skipn (Z.to_nat pos) data))%nat).
  { rewrite <- H at 1. rewrite length_firstn. lia. }
  replace (length span - length (skipn (Z.to_nat pos) data))%nat with 0%nat by lia.
  rewrite firstn_O, app_nil_r. exact H.
Qed.

Lemma placed_end (data span more : list Z) :
  placed (data ++ span ++ more) (Z.of_nat (length data)) span.
Proof.
  unfold placed. rewrite Nat2Z.id.
  rewrite skipn_app, Nat.sub_diag, skipn_all, skipn_O. cbn [app].
  rewrite firstn_app, Nat.sub_diag, firstn_O, app_nil_r. apply firstn_all.
Qed.

(** What is placed in the buffer of a stream is what [read] hands out. *)
Lemma MemoryRead_read_placed (buf : list Z) (at0 pos : Z) (span : list Z) :
  placed buf pos span ->
  0 <= pos ->
  pos + Z.of_nat (length span) < 2 ^ 63 ->
  Z.of_nat (length buf) < 2 ^ 63 ->
  fst (MemoryRead.read (MemoryRead.seek (MemoryRead.mk buf at0) pos set)
                       (Z.of_nat (length span)))
  = Ok span.
Proof.
  intros Hp Hpos Hfit Hlen.
  unfold MemoryRead.seek. cbn [MemoryRead.buf_].
  rewrite u64_small by (change (2 ^ 64) with (2 * 2 ^ 63); lia).
  unfold MemoryRead.read, MemoryRead.readPartial.
  cbn [MemoryRead.buf_ MemoryRead.at_].
  rewrite !signed64_small by lia.
  unfold placed in Hp.
  assert (Hin : (length span <= length (skipn (Z.to_nat pos) buf))%nat).
  { rewrite <- Hp at 1. rewrite length_firstn. lia. }
  rewrite length_skipn in Hin.
  assert (Hclamp : clamp (Z.of_nat (length buf) - pos) 0 (Z.of_nat (length span))
                   = Z.of_nat (length span) \/ length span = 0%nat).
  { unfold clamp.
    destruct (Z.ltb_spec (Z.of_nat (length buf) - pos) 0) as [Hneg | Hge].
    - right. lia.
    - destruct (Z.ltb_spec (Z.of_nat (length span)) (Z.of_nat (length buf) - pos));
        [ left; reflexivity | lia ]. }
  assert (Hclamp' : clamp (Z.of_nat (length buf) - pos) 0 (Z.of_nat (length span))
                    = Z.of_nat (length span)).
  { destruct Hclamp as [H | H]; [ exact H | ].
    rewrite H. unfold clamp. cbn [Z.of_nat].
    destruct (Z.ltb_spec (Z.of_nat (length buf) - pos) 0); [ reflexivity | ].
    destruct (Z.ltb_spec 0 (Z.of_nat (length buf) - pos)); [ reflexivity | lia ]. }
  rewrite Hclamp', Nat2Z.id, Hp, Z.eqb_refl. reflexivity.
Qed.

Lemma align_4_bounds (x : Z) : 0 <= x -> x <= align x 4 < x + 4.
Proof.
  intros Hx. unfold align.
  destruct (Z.eqb_spec x 0) as [-> | Hne]; cbn [orb]; [ lia | ].
  change (4 =? 0) with false. cbv iota.
  pose proof (Z.mod_pos_bound x 4 ltac:(lia)).
  destruct (Z.eqb_spec (x mod 4) 0); lia.
Qed.

Lemma align_4_add (a b : Z) :
  0 <= a -> a mod 4 = 0 -> 0 <= b -> align (a + b) 4 = a + align b 4.
Proof.
  intros Ha Ha4 Hb.
  pose proof (align_4_bounds b Hb) as Hbb.
  pose proof (align_4_bounds (a + b) ltac:(lia)) as Hab.
  pose proof (align_4_multiple b) as Hb4.
  pose proof (align_4_multiple (a + b)) as Hab4.
  pose proof (Z.div_mod a 4 ltac:(lia)) as Hda.
  pose proof (Z.div_mod (align b 4) 4 ltac:(lia)) as Hdb.
  pose proof (Z.div_mod (align (a + b) 4) 4 ltac:(lia)) as Hdab.
  lia.
Qed.

(** The padding of a writer at the end of its stream. *)
Lemma padTo4_atEnd (st : wstate) :
  atEnd st ->
  Z.of_nat (length (Write.data (out st))) < 2 ^ 63 ->
  atEnd (padTo4 st)
  /\ Z.of_nat (length (Write.data (out (padTo4 st))))
     = align (Z.of_nat (length (Write.data (out st)))) 4
  /\ exists more, Write.data (out (padTo4 st)) = Write.data (out st) ++ more.
Proof.
  intros [Hat Hoff] Hlen. unfold padTo4. rewrite Hoff.
  set (n := Z.of_nat (length (Write.data (out st)))) in *.
  pose proof (align_4_bounds n ltac:(lia)) as Hb.
  rewrite (u64_small (align n 4)) by (change (2 ^ 64) with (2 * 2 ^ 63); lia).
  rewrite (u32_small (align n 4 - n)) by (change (2 ^ 32) with 4294967296; lia).
  destruct (Z.ltb_spec 0 (align n 4 - n)) as [Hpad | Hpad].
  - rewrite Write_write_end by exact Hat.
    cbn [out woff Write.data Write.at_]. unfold atEnd. cbn [out woff Write.data Write.at_].
    rewrite length_app, repeat_length, Nat2Z.inj_add, Z2Nat.id by lia.
    fold n.
    rewrite u64_small by (change (2 ^ 64) with (2 * 2 ^ 63); lia).
    repeat split; try lia. eexists. reflexivity.
  - fold n. repeat split; try assumption; try lia.
    exists []. rewrite app_nil_r. reflexivity.
Qed.

Lemma padTo4_grows (st : wstate) :
  Write.at_ (out st) = Z.of_nat (length (Write.data (out st))) ->
  Write.at_ (out (padTo4 st)) = Z.of_nat (length (Write.data (out (padTo4 st))))
  /\ exists more, Write.data (out (padTo4 st)) = Write.data (out st) ++ more.
Proof.
  intros Hat. unfold padTo4.
  destruct (0 <? _).
  - rewrite Write_write_end by exact Hat. cbn [out Write.data Write.at_].
    split; [ reflexivity | eexists; reflexivity ].
  - split; [ exact Hat | ]. exists []. rewrite app_nil_r. reflexivity.
Qed.

Lemma extends_refl (st : wstate) : extends st st.
Proof.
  intros H. split; [ exact H | ]. exists []. rewrite app_nil_r. reflexivity.
Qed.

Lemma extends_trans (a b c : wstate) : extends a b -> extends b c -> extends a c.
Proof.
  intros Hab Hbc Ha. destruct (Hab Ha) as [Hb [m1 H1]].
  destruct (Hbc Hb) as [Hc [m2 H2]].
  split; [ exact Hc | ]. exists (m1 ++ m2). rewrite H2, H1, app_assoc. reflexivity.
Qed.

Lemma extends_length (st st' : wstate) :
  extends st st' ->
  Write.at_ (out st) = Z.of_nat (length (Write.data (out st))) ->
  Z.of_nat (length (Write.data (out st)))
  <= Z.of_nat (length (Write.data (out st'))).
Proof.
  intros H Hat. destruct (H Hat) as [_ [more ->]]. rewrite length_app. lia.
Qed.

Lemma loop_extends {A : Type} (body : A -> wstate -> step wstate * wstate)
    (xs : list A) :
  (forall x st st' y, body x st = (Continue st', y) -> extends st st') ->
  forall st st' y, loop body xs st = (Continue st', y) -> extends st st'.
Proof.
  intros Hbody. induction xs as [| x xs IH]; intros st st' y; cbn [loop].
  - intros H. injection H as Hs _. subst st'. apply extends_refl.
  - destruct (body x st) as [[st1 | e | o] y1] eqn:Hb; try discriminate.
    intros H. apply extends_trans with st1.
    + exact (Hbody _ _ _ _ Hb).
    + exact (IH _ _ _ H).
Qed.

Section KtxFaces.
Variable image : ImageProvider.t.
Variables m faces faceSize : Z.

Lemma writeKtxFace_extends (lf : Z * Z) (st st' y : wstate) :
  writeKtxFace image m faces faceSize lf st = (Continue st', y) -> extends st st'.
Proof.
  destruct lf as [l f]. unfold writeKtxFace.
  destruct (ImageProvider.read image m (u32 (l * faces + f))) as [span | | | ];
    try discriminate.
  destruct (negb _); [ discriminate | ].
  intros H Hat. inversion H. subst st'. clear H.
  match goal with
  | |- context [ padTo4 ?s ] => destruct (padTo4_grows s) as [Hat' [more Hmore]]
  end.
  { cbn [out]. rewrite Write_write_end by exact Hat. reflexivity. }
  split; [ exact Hat' | ].
  rewrite Hmore. cbn [out]. rewrite Write_write_end by exact Hat.
  cbn [Write.data]. rewrite <- app_assoc. eexists. reflexivity.
Qed.

(** One face: the span the provider hands out, then the padding. *)
Lemma writeKtxFace_step (l f : Z) (st st' y : wstate) :
  writeKtxFace image m faces faceSize (l, f) st = (Continue st', y) ->
  atEnd st ->
  Z.of_nat (length (Write.data (out st))) mod 4 = 0 ->
  Z.of_nat (length (Write.data (out st'))) < 2 ^ 63 ->
  exists span,
    ImageProvider.read image m (u32 (l * faces + f)) = Ok span
    /\ Z.of_nat (length span) = faceSize
    /\ atEnd st'
    /\ Z.of_nat (length (Write.data (out st')))
       = Z.of_nat (length (Write.data (out st))) + align faceSize 4
    /\ placed (Write.data (out st')) (Z.of_nat (length (Write.data (out st)))) span.
Proof.
  intros Hstep Hend H4 Hbound.
  pose proof (writeKtxFace_extends _ _ _ _ Hstep) as Hext.
  revert Hstep. unfold writeKtxFace.
  destruct (ImageProvider.read image m (u32 (l * faces + f))) as [span | | | ];
    try discriminate.
  destruct (Z.eqb_spec (Z.of_nat (length span)) faceSize) as [Hfs | ];
    cbn [negb]; [ | discriminate ].
  intros H. inversion H as [[Hst' Hy]]. clear H Hy.
  rewrite <- Hst' in Hbound. clear Hst' Hext.
  destruct Hend as [Hat Hoff].
  set (st1 := mkW (Write.write (out st) span)
                  (u64 (woff st + Z.of_nat (length span)))) in *.
  assert (Hdata1 : Write.data (out st1) = Write.data (out st) ++ span).
  { unfold st1. cbn [out]. rewrite Write_write_end by exact Hat. reflexivity. }
  assert (Hat1 : Write.at_ (out st1) = Z.of_nat (length (Write.data (out st1)))).
  { unfold st1. cbn [out]. rewrite Write_write_end by exact Hat. reflexivity. }
  destruct (padTo4_grows st1 Hat1) as [_ [more Hmore]].
  assert (Hlen1 : Z.of_nat (length (Write.data (out st1))) < 2 ^ 63).
  { rewrite Hmore, length_app in Hbound. lia. }
  assert (Hend1 : atEnd st1).
  { split; [ exact Hat1 | ].
    unfold st1 at 1. cbn [woff]. rewrite Hoff, Hdata1, length_app, Nat2Z.inj_add.
    rewrite Hdata1, length_app, Nat2Z.inj_add in Hlen1.
    apply u64_small. change (2 ^ 64) with (2 * 2 ^ 63). lia. }
  destruct (padTo4_atEnd st1 Hend1 Hlen1) as (Hend' & Hlen' & more' & Hmore').
  exists span. split; [ reflexivity | ]. split; [ exact Hfs | ].
  split; [ exact Hend' | ]. split.
  - rewrite Hlen', Hdata1, length_app, Nat2Z.inj_add, Hfs.
    apply align_4_add; lia.
  - rewrite Hmore', Hdata1, <- app_assoc. apply placed_end.
Qed.

(** The loop over the faces of a mip level. *)
Lemma writeKtxFace_loop (lfs : list (Z * Z)) :
  forall st st' y,
    loop (writeKtxFace image m faces faceSize) lfs st = (Continue st', y) ->
    atEnd st ->
    Z.of_nat (length (Write.data (out st))) mod 4 = 0 ->
    Z.of_nat (length (Write.data (out st'))) < 2 ^ 63 ->
    atEnd st'
    /\ Z.of_nat (length (Write.data (out st')))
       = Z.of_nat (length (Write.data (out st)))
         + Z.of_nat (length lfs) * align faceSize 4
    /\ forall j l f,
         nth_error lfs j = Some (l, f) ->
         exists span,
           ImageProvider.read image m (u32 (l * faces + f)) = Ok span
           /\ Z.of_nat (length span) = faceSize
           /\ placed (Write.data (out st'))
                     (Z.of_nat (length (Write.data (out st)))
                      + Z.of_nat j * align faceSize 4)
                     span.
Proof.
  induction lfs as [| [l0 f0] lfs IH]; intros st st' y; cbn [loop].
  - intros H Hend H4 Hbound. injection H as Hs _. subst st'.
    split; [ exact Hend | ]. split; [ cbn [length]; lia | ].
    intros [| j] l f Hj; discriminate Hj.
  - destruct (writeKtxFace image m faces faceSize (l0, f0) st)
      as [[st1 | e | o] y1] eqn:Hstep; try discriminate.
    intros Hloop Hend H4 Hbound.
    pose proof (loop_extends _ lfs writeKtxFace_extends _ _ _ Hloop) as Hext.
    assert (Hat1 : Write.at_ (out st1) = Z.of_nat (length (Write.data (out st1)))).
    { apply (writeKtxFace_extends _ _ _ _ Hstep). apply Hend. }
    pose proof (extends_length _ _ Hext Hat1) as Hmono.
    destruct (writeKtxFace_step l0 f0 st st1 y1 Hstep Hend H4 ltac:(lia))
      as (span & Hread & Hfs & Hend1 & Hlen1 & Hplaced).
    assert (H41 : Z.of_nat (length (Write.data (out st1))) mod 4 = 0).
    { rewrite Hlen1, Z.add_mod, H4, align_4_multiple by lia. reflexivity. }
    destruct (IH st1 st' y Hloop Hend1 H41 Hbound) as (Hend' & Hlen' & Hfaces).
    split; [ exact Hend' | ]. split.
    + rewrite Hlen', Hlen1. cbn [length]. lia.
    + intros [| j] l f Hj.
      * cbn [nth_error] in Hj. inversion Hj. subst l0 f0.
        exists span. split; [ exact Hread | ]. split; [ exact Hfs | ].
        destruct (Hext Hat1) as [_ [more Hmore]].
        rewrite Hmore. apply placed_app.
        replace (Z.of_nat (length (Write.data (out st)))
                 + Z.of_nat 0 * align faceSize 4)
          with (Z.of_nat (length (Write.data (out st)))) by lia.
        exact Hplaced.
      * cbn [nth_error] in Hj.
        destruct (Hfaces j l f Hj) as (span' & Hread' & Hfs' & Hplaced').
        exists span'. split; [ exact Hread' | ]. split; [ exact Hfs' | ].
        replace (Z.of_nat (length (Write.data (out st)))
                 + Z.of_nat (S j) * align faceSize 4)
          with (Z.of_nat (length (Write.data (out st1)))
                + Z.of_nat j * align faceSize 4) by lia.
        exact Hplaced'.
Qed.

End KtxFaces.

Lemma length_layerFaces (layers faces : Z) :
  0 <= layers -> 0 <= faces ->
  Z.of_nat (length (layerFaces layers faces)) = layers * faces.
Proof.
  intros Hl Hf. unfold layerFaces.
  assert (H : forall ls : list Z,
             length (flat_map (fun l => map (fun f => (l, f)) (range 0 faces)) ls)
             = (length ls * Z.to_nat faces)%nat).
  { induction ls as [| l ls IH]; cbn [flat_map length]; [ reflexivity | ].
    rewrite length_app, length_map, length_range, IH.
    replace (faces - 0) with faces by ring. lia. }
  rewrite H, length_range. nia.
Qed.

Section KtxLevels.
Variable image : ImageProvider.t.
Variable size : Vec3ui.
Variables layers faces fmtSize numberArrayElements_ : Z.
Hypothesis Hlayers : 0 <= layers.
Hypothesis Hfaces : 0 <= faces.

Lemma writeKtxMip_extends (m : Z) (st st' y : wstate) :
  writeKtxMip image size layers faces fmtSize numberArrayElements_ m st
  = (Continue st', y) ->
  extends st st'.
Proof.
  unfold writeKtxMip.
  match goal with
  | |- context [ loop ?b ?xs ?s ] => destruct (loop b xs s) as [[st1 | e | o] y1] eqn:Hloop
  end; try discriminate.
  intros H Hat. injection H as Hs _. subst st'.
  pose proof (loop_extends _ _ (writeKtxFace_extends image m faces _) _ _ _ Hloop)
    as Hext.
  destruct Hext as [Hat1 [more1 Hmore1]].
  { cbn [out]. rewrite Write_write_end by exact Hat. reflexivity. }
  destruct (padTo4_grows st1 Hat1) as [Hat' [more Hmore]].
  split; [ exact Hat' | ].
  rewrite Hmore, Hmore1. cbn [out]. rewrite Write_write_end by exact Hat.
  cbn [Write.data]. rewrite <- !app_assoc. eexists. reflexivity.
Qed.

(** One mip level: the [imageSize] field and the faces. *)
Lemma writeKtxMip_step (m : Z) (st st' y : wstate) :
  writeKtxMip image size layers faces fmtSize numberArrayElements_ m st
  = (Continue st', y) ->
  atEnd st ->
  Z.of_nat (length (Write.data (out st))) mod 4 = 0 ->
  Z.of_nat (length (Write.data (out st'))) < 2 ^ 63 ->
  atEnd st'
  /\ Z.of_nat (length (Write.data (out st')))
     = Z.of_nat (length (Write.data (out st)))
       + writtenLevelBytes size fmtSize (layers * faces) m
  /\ forall l f,
       0 <= l < layers -> 0 <= f < faces ->
       exists span,
         ImageProvider.read image m (u32 (l * faces + f)) = Ok span
         /\ Z.of_nat (length span) = writtenFaceSize size fmtSize m
         /\ placed (Write.data (out st'))
                   (Z.of_nat (length (Write.data (out st))) + 4
                    + (l * faces + f) * align (writtenFaceSize size fmtSize m) 4)
                   span.
Proof.
  intros Hstep Hend H4 Hbound.
  pose proof (writeKtxMip_extends _ _ _ _ Hstep) as Hext.
  revert Hstep. unfold writeKtxMip. cbv zeta.
  fold (writtenFaceSize size fmtSize m).
  set (fs := writtenFaceSize size fmtSize m).
  set (metaSize := if (numberArrayElements_ =? 0) && ImageProvider.cubemap image
                   then fs else u32 (u32 (align fs 4) * layers * faces)).
  set (st0 := mkW (Write.write (out st) (le_bytes 4 metaSize)) (u64 (woff st + 4))).
  destruct (loop (writeKtxFace image m faces fs) (layerFaces layers faces) st0)
    as [[st1 | e | o] y1] eqn:Hloop; try discriminate.
  intros H. injection H as Hs _.
  destruct Hend as [Hat Hoff].
  assert (Hdata0 : Write.data (out st0) = Write.data (out st) ++ le_bytes 4 metaSize).
  { unfold st0. cbn [out]. rewrite Write_write_end by exact Hat. reflexivity. }
  assert (Hat0 : Write.at_ (out st0) = Z.of_nat (length (Write.data (out st0)))).
  { unfold st0. cbn [out]. rewrite Write_write_end by exact Hat. reflexivity. }
  pose proof (loop_extends _ _ (writeKtxFace_extends image m faces fs) _ _ _ Hloop)
    as Hext1.
  destruct (Hext1 Hat0) as [Hat1 [more1 Hmore1]].
  destruct (padTo4_grows st1 Hat1) as [_ [more Hmore]].
  assert (Hlen1 : Z.of_nat (length (Write.data (out st1))) < 2 ^ 63).
  { rewrite <- Hs, Hmore, length_app in Hbound. lia. }
  assert (Hlen0 : Z.of_nat (length (Write.data (out st0)))
                  = Z.of_nat (length (Write.data (out st))) + 4).
  { rewrite Hdata0, length_app, length_le_bytes. lia. }
  assert (Hend0 : atEnd st0).
  { split; [ exact Hat0 | ].
    rewrite Hlen0. unfold st0. cbn [woff]. rewrite Hoff.
    rewrite Hmore1, length_app in Hlen1.
    apply u64_small. change (2 ^ 64) with (2 * 2 ^ 63). lia. }
  assert (H40 : Z.of_nat (length (Write.data (out st0))) mod 4 = 0).
  { rewrite Hlen0, Z.add_mod, H4 by lia. reflexivity. }
  destruct (writeKtxFace_loop image m faces fs _ _ _ _ Hloop Hend0 H40 Hlen1)
    as (Hend1 & Hlen1' & Hfacesp).
  rewrite length_layerFaces in Hlen1' by assumption.
  assert (H41 : Z.of_nat (length (Write.data (out st1))) mod 4 = 0).
  { rewrite Hlen1', Z.add_mod, H40 by lia.
    rewrite <- (Z.mul_mod_idemp_r _ (align fs 4)), align_4_multiple, Z.mul_0_r by lia.
    reflexivity. }
  destruct (padTo4_atEnd st1 Hend1 Hlen1) as (Hend' & Hlen' & more' & Hmore').
  rewrite align_4_of_multiple in Hlen' by exact H41.
  subst st'.
  split; [ exact Hend' | ]. split.
  - rewrite Hlen', Hlen1', Hlen0. unfold writtenLevelBytes. fold fs. ring.
  - intros l f Hl Hf.
    assert (Hnth : nth_error (layerFaces layers faces) (Z.to_nat (l * faces + f))
                   = Some (l, f)).
    { unfold layerFaces.
      pose proof (nth_error_grid (fun l f => (l, f)) 0 layers faces l f
                    ltac:(lia) ltac:(lia)) as Hg.
      replace ((l - 0) * faces + f) with (l * faces + f) in Hg by ring.
      exact Hg. }
    destruct (Hfacesp _ l f Hnth) as (span & Hread & Hfs & Hplaced).
    exists span. split; [ exact Hread | ]. split; [ exact Hfs | ].
    rewrite Hmore'. apply placed_app.
    rewrite Z2Nat.id, Hlen0 in Hplaced by nia.
    exact Hplaced.
Qed.

(** The loop over the mip levels. *)
Lemma writeKtxMip_loop (ms : list Z) :
  forall st st' y,
    loop (writeKtxMip image size layers faces fmtSize numberArrayElements_) ms st
    = (Continue st', y) ->
    atEnd st ->
    Z.of_nat (length (Write.data (out st))) mod 4 = 0 ->
    Z.of_nat (length (Write.data (out st'))) < 2 ^ 63 ->
    forall j m l f,
      nth_error ms j = Some m ->
      0 <= l < layers -> 0 <= f < faces ->
      exists span,
        ImageProvider.read image m (u32 (l * faces + f)) = Ok span
        /\ Z.of_nat (length span) = writtenFaceSize size fmtSize m
        /\ placed (Write.data (out st'))
                  (Z.of_nat (length (Write.data (out st)))
                   + fold_right
                       (fun i acc =>
                          writtenLevelBytes size fmtSize (layers * faces) i + acc)
                       0 (firstn j ms)
                   + 4
                   + (l * faces + f) * align (writtenFaceSize size fmtSize m) 4)
                  span.
Proof.
  induction ms as [| m0 ms IH]; intros st st' y; cbn [loop].
  - intros _ _ _ _ [| j] m l f Hj; discriminate Hj.
  - destruct (writeKtxMip image size layers faces fmtSize numberArrayElements_ m0 st)
      as [[st1 | e | o] y1] eqn:Hstep; try discriminate.
    intros Hloop Hend H4 Hbound.
    pose proof (loop_extends _ ms writeKtxMip_extends _ _ _ Hloop) as Hext.
    assert (Hat1 : Write.at_ (out st1) = Z.of_nat (length (Write.data (out st1)))).
    { apply (writeKtxMip_extends _ _ _ _ Hstep). apply Hend. }
    pose proof (extends_length _ _ Hext Hat1) as Hmono.
    destruct (writeKtxMip_step m0 st st1 y1 Hstep Hend H4 ltac:(lia))
      as (Hend1 & Hlen1 & Hfacesp).
    assert (H41 : Z.of_nat (length (Write.data (out st1))) mod 4 = 0).
    { rewrite Hlen1, Z.add_mod, H4 by lia. unfold writtenLevelBytes.
      rewrite (Z.add_mod 4) by lia.
      rewrite <- (Z.mul_mod_idemp_r _ (align _ 4)), align_4_multiple, Z.mul_0_r by lia.
      reflexivity. }
    intros [| j] m l f Hj Hl Hf.
    + cbn [nth_error] in Hj. injection Hj as ->.
      destruct (Hfacesp l f Hl Hf) as (span & Hread & Hfs & Hplaced).
      exists span. split; [ exact Hread | ]. split; [ exact Hfs | ].
      destruct (Hext Hat1) as [_ [more Hmore]].
      rewrite Hmore. apply placed_app.
      cbn [firstn fold_right]. rewrite Z.add_0_r. exact Hplaced.
    + cbn [nth_error] in Hj.
      destruct (IH st1 st' y Hloop Hend1 H41 Hbound j m l f Hj Hl Hf)
        as (span & Hread & Hfs & Hplaced).
      exists span. split; [ exact Hread | ]. split; [ exact Hfs | ].
      cbn [firstn fold_right]. rewrite Hlen1 in Hplaced.
      rewrite Z.add_assoc. exact Hplaced.
Qed.

End KtxLevels.

Lemma distinct_NoDup (l : list Z) : distinct l = true -> NoDup l.
Proof.
  induction l as [| x l IH]; cbn [distinct]; intros H; [ constructor | ].
  apply andb_true_iff in H. destruct H as [Hx Hl].
  constructor; [ | exact (IH Hl) ].
  intros Hin. apply negb_true_iff in Hx.
  assert (Hex : existsb (Z.eqb x) l = true).
  { apply existsb_exists. exists x. split; [ exact Hin | apply Z.eqb_refl ]. }
  congruence.
Qed.

Lemma find_unique_key (l : list FormatEntry) (e : FormatEntry) :
  NoDup (map glFormat l) ->
  In e l ->
  find (fun entry => glFormat entry =? glFormat e) l = Some e.
Proof.
  induction l as [| x l IH]; intros Hnd Hin; [ contradiction | ].
  cbn [map] in Hnd. inversion Hnd as [| ? ? Hx Hl]. subst.
  cbn [find]. destruct Hin as [-> | Hin].
  - rewrite Z.eqb_refl. reflexivity.
  - destruct (Z.eqb_spec (glFormat x) (glFormat e)) as [Heq | _].
    + exfalso. apply Hx. rewrite Heq. apply in_map. exact Hin.
    + exact (IH Hl Hin).
Qed.

Section FormatMapLookup.
Context {glv : GLValues}.

Lemma formatMap_lookup (fmt : Format) (entry : FormatEntry) :
  NoDup (map glFormat formatMap) ->
  find (fun ientry => vkFormat ientry =? fmt) formatMap = Some entry ->
  vulkanFromGLFormat (glFormat entry) = fmt /\ fmt <> undefined.
Proof.
  intros Hnd Hfind.
  apply find_some in Hfind. destruct Hfind as [Hin Heq].
  apply Z.eqb_eq in Heq.
  split.
  - unfold vulkanFromGLFormat. rewrite (find_unique_key _ _ Hnd Hin). exact Heq.
  - rewrite <- Heq. clear Heq Hnd. unfold formatMap in Hin. cbn [In] in Hin.
    repeat (destruct Hin as [<- | Hin]; [ vm_compute; discriminate | ]).
    contradiction.
Qed.

(** X22: where the GL values of the internal formats of the table are
    pairwise distinct, the two searches of the table undo each other: for
    every entry, [vulkanFromGLFormat] of its internal format is its
    format, which is not [undefined], and the search [writeKtx] does for
    that format finds the entry. *)
Theorem formatMap_roundtrip (entry : FormatEntry) :
  NoDup (map glFormat formatMap) ->
  In entry formatMap ->
  vulkanFromGLFormat (glFormat entry) = vkFormat entry
  /\ vkFormat entry <> undefined
  /\ find (fun ientry => vkFormat ientry =? vkFormat entry) formatMap = Some entry.
Proof.
  intros Hnd Hin.
  assert (Hfind : find (fun ientry => vkFormat ientry =? vkFormat entry) formatMap
                  = Some entry).
  { clear Hnd. unfold formatMap in Hin. cbn [In] in Hin.
    repeat (destruct Hin as [<- | Hin]; [ reflexivity | ]).
    contradiction. }
  destruct (formatMap_lookup _ _ Hnd Hfind) as [Hback Hdef].
  repeat split; assumption.
Qed.

Lemma formatMap_u32 (entry : FormatEntry) :
  (forall g, 0 <= gl g < 2 ^ 32) ->
  In entry formatMap ->
  0 <= glFormat entry < 2 ^ 32
  /\ 0 <= glPixelFormat entry < 2 ^ 32
  /\ 0 <= glPixelType entry < 2 ^ 32.
Proof.
  intros Hgl Hin. unfold formatMap in Hin. cbn [In] in Hin.
  repeat (destruct Hin as [<- | Hin];
          [ cbn [glFormat glPixelFormat glPixelType];
            repeat split; try apply Hgl; reflexivity | ]).
  contradiction.
Qed.

End FormatMapLookup.

Lemma loop_failed {A : Type} (body : A -> wstate -> step wstate * wstate)
    (xs : list A) :
  (forall x st r y, body x st = (r, y) -> failed r) ->
  forall st r y, loop body xs st = (r, y) -> failed r.
Proof.
  intros Hbody. induction xs as [| x xs IH]; intros st r y; cbn [loop].
  - intros H. injection H as <- _. exact I.
  - destruct (body x st) as [[st1 | e | o] y1] eqn:Hb.
    + apply IH.
    + intros H. injection H as <- _. exact (Hbody _ _ _ _ Hb).
    + intros H. injection H as <- _. exact (Hbody _ _ _ _ Hb).
Qed.

Lemma writeKtxFace_failed (image : ImageProvider.t) (m faces faceSize : Z)
    (lf : Z * Z) (st : wstate) (r : step wstate) (y : wstate) :
  writeKtxFace image m faces faceSize lf st = (r, y) -> failed r.
Proof.
  destruct lf as [l f]. unfold writeKtxFace.
  destruct (ImageProvider.read image m (u32 (l * faces + f))) as [span | e | | ].
  - destruct (negb _); intros H; injection H as <- _; cbn; [ discriminate | exact I ].
  - intros H. injection H as <- _. cbn. discriminate.
  - intros H. injection H as <- _. cbn. discriminate.
  - intros H. injection H as <- _. cbn. discriminate.
Qed.

Lemma writeKtxMip_failed (image : ImageProvider.t) (size : Vec3ui)
    (layers faces fmtSize nae m : Z) (st : wstate) (r : step wstate) (y : wstate) :
  writeKtxMip image size layers faces fmtSize nae m st = (r, y) -> failed r.
Proof.
  unfold writeKtxMip. cbv zeta.
  match goal with
  | |- context [ loop ?b ?xs ?s ] =>
      pose proof (loop_failed b xs (writeKtxFace_failed image m faces _) s) as Hl;
      destruct (loop b xs s) as [[st1 | e | o] y1]
  end.
  - intros H. injection H as <- _. exact I.
  - intros H. injection H as <- _. exact (Hl _ _ eq_refl).
  - intros H. injection H as <- _. exact (Hl _ _ eq_refl).
Qed.

Lemma In_range (a b i : Z) : In i (range a b) -> a <= i < b.
Proof.
  unfold range. rewrite in_map_iff. intros (k & <- & Hk).
  apply in_seq in Hk. lia.
Qed.

Lemma firstn_range (j n : Z) :
  0 <= j <= n -> firstn (Z.to_nat j) (range 0 n) = range 0 j.
Proof.
  intros H. rewrite (range_app 0 j n) by lia.
  rewrite firstn_app, length_range.
  replace (Z.to_nat j - Z.to_nat (j - 0))%nat with 0%nat by lia.
  rewrite firstn_O, app_nil_r.
  apply firstn_all2. rewrite length_range. lia.
Qed.

Lemma nth_error_range (m n : Z) :
  0 <= m < n -> nth_error (range 0 n) (Z.to_nat m) = Some m.
Proof.
  intros H. rewrite (nth_error_nth' _ 0) by (rewrite length_range; lia).
  rewrite nth_range by lia. f_equal. lia.
Qed.

Lemma fold_right_sum_ext (f g : Z -> Z) (l : list Z) :
  (forall i, In i l -> f i = g i) ->
  fold_right (fun i acc => f i + acc) 0 l = fold_right (fun i acc => g i + acc) 0 l.
Proof.
  induction l as [| x l IH]; intros H; cbn [fold_right]; [ reflexivity | ].
  rewrite (H x (or_introl eq_refl)), IH; [ reflexivity | ].
  intros i Hi. apply H. right. exact Hi.
Qed.

(** What is placed in the buffer of a stream is what [read] hands out
    after a [seek] to the place. *)
Lemma MemoryRead_seek_read_placed (buf : list Z) (at0 pos : Z) (span : list Z) :
  placed buf pos span ->
  0 <= pos ->
  Z.of_nat (length buf) < 2 ^ 63 ->
  fst (MemoryRead.read (MemoryRead.seek (MemoryRead.mk buf at0) (u64 pos) set)
                       (Z.of_nat (length span)))
  = Ok span.
Proof.
  intros Hp Hpos Hlen.
  destruct span as [| b span].
  - unfold MemoryRead.seek, MemoryRead.read, MemoryRead.readPartial.
    cbn [MemoryRead.buf_ MemoryRead.at_ length Z.of_nat].
    change (signed 64 0) with 0.
    assert (Hc : forall x, clamp x 0 0 = 0).
    { intros x. unfold clamp.
      destruct (Z.ltb_spec x 0); [ reflexivity | ].
      destruct (Z.ltb_spec 0 x); [ reflexivity | lia ]. }
    rewrite Hc. reflexivity.
  - assert (Hin : (length (b :: span) <= length (skipn (Z.to_nat pos) buf))%nat).
    { unfold placed in Hp. rewrite <- Hp at 1. rewrite length_firstn. lia. }
    rewrite length_skipn in Hin. cbn [length] in Hin.
    rewrite (u64_small pos) by (change (2 ^ 64) with (2 * 2 ^ 63); lia).
    apply MemoryRead_read_placed; try assumption.
    cbn [length]. lia.
Qed.

Section Ktx1Roundtrip.
Context {fu : FormatUtils} {glv : GLValues}.

(** The face size of the reader is the face size of the writer. *)
Lemma KtxReader_faceSize_written (r : KtxReader.t) (i : Z) :
  blockSize (KtxReader.format_ r) = mkVec3ui 1 1 1 ->
  0 <= vx (KtxReader.size_ r) < 2 ^ 32 ->
  0 <= vy (KtxReader.size_ r) < 2 ^ 32 ->
  0 <= vz (KtxReader.size_ r) < 2 ^ 32 ->
  0 <= i ->
  KtxReader.faceSize r i
  = writtenFaceSize (KtxReader.size_ r) (formatElementSize (KtxReader.format_ r)) i.
Proof.
  intros Hblock Hx Hy Hz Hi.
  unfold KtxReader.faceSize, sizeBytes, writtenFaceSize, mipSize.
  rewrite Hblock. cbn [vx vy vz].
  rewrite !ceilDivide_1 by (pose proof (mipDim_range _ i Hx Hi);
                            pose proof (mipDim_range _ i Hy Hi);
                            pose proof (mipDim_range _ i Hz Hi); lia).
  reflexivity.
Qed.

(** X23: a KTX1 file that [writeKtx] has written for an image of a
    format whose block is one texel is loaded by [loadKtx] into a provider
    with the size, the format, the mip levels and the layers of the image,
    and every face read from it is the face the image handed out. *)
Theorem ktx1_roundtrip (DLG_CHECK : bool) (image : ImageProvider.t) (w : Write.t) :
  (forall g, 0 <= gl g < 2 ^ 32) ->
  NoDup (map glFormat formatMap) ->
  blockSize (ImageProvider.format image) = mkVec3ui 1 1 1 ->
  0 <= formatElementSize (ImageProvider.format image) < 2 ^ 32 ->
  1 <= vx (ImageProvider.size image) < 2 ^ 32 ->
  1 <= vy (ImageProvider.size image) < 2 ^ 32 ->
  1 <= vz (ImageProvider.size image) < 2 ^ 32 ->
  Z.max (ImageProvider.mipLevels image) 1 < 2 ^ 32 ->
  Z.max (ImageProvider.layers image) 1 < 2 ^ 32 ->
  (ImageProvider.cubemap image = true ->
   Z.max (ImageProvider.layers image) 1 mod 6 = 0) ->
  (vz (ImageProvider.size image) = 1
   \/ (ImageProvider.cubemap image = false /\ ImageProvider.layers image <= 1)) ->
  writeKtx Write.empty image = (Ok WriteError_none, w) ->
  Z.of_nat (length (Write.data w)) < 2 ^ 63 ->
  exists reader,
    loadKtx DLG_CHECK (MemoryRead.open (Write.data w))
    = (ReadError_none, Some reader)
    /\ ImageProvider.size (KtxReader.provider reader) = ImageProvider.size image
    /\ ImageProvider.format (KtxReader.provider reader) = ImageProvider.format image
    /\ ImageProvider.mipLevels (KtxReader.provider reader)
       = Z.max (ImageProvider.mipLevels image) 1
    /\ ImageProvider.layers (KtxReader.provider reader)
       = Z.max (ImageProvider.layers image) 1
    /\ ImageProvider.cubemap (KtxReader.provider reader)
       = ImageProvider.cubemap image
    /\ forall m l,
         0 <= m < Z.max (ImageProvider.mipLevels image) 1 ->
         0 <= l < Z.max (ImageProvider.layers image) 1 ->
         KtxReader.read reader m l = ImageProvider.read image m l.
Proof.
  intros Hgl Hnd Hblock Hesize Hx Hy Hz Hmips Hlayers Hcube H3d Hwrite Hbound.
  (* the result of [writeKtxThrow] *)
  assert (Hthrow : writeKtxThrow Write.empty image = (Ok WriteError_none, w)).
  { revert Hwrite. unfold writeKtx.
    destruct (writeKtxThrow Write.empty image) as [[e | [] | | ] w'];
      intros H; try exact H; discriminate H. }
  clear Hwrite. revert Hthrow. unfold writeKtxThrow. cbv zeta.
  set (fmt := ImageProvider.format image) in *.
  set (size := ImageProvider.size image) in *.
  set (mips := Z.max (ImageProvider.mipLevels image) 1) in *.
  set (L := Z.max (ImageProvider.layers image) 1) in *.
  set (faces := if ImageProvider.cubemap image then 6 else 1).
  set (layers := if ImageProvider.cubemap image then L / 6 else L).
  set (nae := if 1 <? layers then layers else 0).
  set (fmtSize := formatElementSize fmt) in *.
  destruct (find (fun ientry => vkFormat ientry =? fmt) formatMap)
    as [entry | ] eqn:Hfind; [ | discriminate ].
  set (header := mkKtxHeader ktxEndianess (glPixelType entry) fmtSize
                   (if glPixelType entry =? 0 then 0 else glPixelFormat entry)
                   (glFormat entry) (glPixelFormat entry) (vx size)
                   (if 1 <? vy size then vy size else 0)
                   (if 1 <? vz size then vz size else 0)
                   nae faces mips 0).
  set (st0 := mkW (Write.write (Write.write Write.empty ktxIdentifier)
                               (KtxHeader_bytes header))
                  (Z.of_nat (length ktxIdentifier) + 52)).
  destruct (loop (writeKtxMip image size layers faces fmtSize nae) (range 0 mips) st0)
    as [[st' | e | o] y] eqn:Hloop.
  2: { pose proof (loop_failed _ _
                     (writeKtxMip_failed image size layers faces fmtSize nae)
                     _ _ _ Hloop) as Hf.
       intros H. injection H as He _. cbn in Hf. congruence. }
  2: { pose proof (loop_failed _ _
                     (writeKtxMip_failed image size layers faces fmtSize nae)
                     _ _ _ Hloop) as Hf.
       intros H. injection H as He _. cbn in Hf. exfalso. exact (Hf _ He). }
  intros H. injection H as Hw. subst w.
  (* the numbers of layers and faces *)
  assert (HL : 1 <= L) by (unfold L; lia).
  assert (Hcount : layers * faces = L /\ 1 <= layers /\ 1 <= faces).
  { unfold layers, faces. destruct (ImageProvider.cubemap image).
    - specialize (Hcube eq_refl).
      pose proof (Z.div_mod L 6 ltac:(lia)). lia.
    - lia. }
  destruct Hcount as (Hcount & Hlayers1 & Hfaces1).
  (* the state before the loop *)
  assert (Hdata0 : Write.data (out st0) = ktxIdentifier ++ KtxHeader_bytes header).
  { unfold st0. cbn [out]. rewrite !Write_write_end by reflexivity. reflexivity. }
  assert (Hend0 : atEnd st0).
  { unfold atEnd, st0. cbn [out woff].
    rewrite !Write_write_end by reflexivity. split; reflexivity. }
  assert (Hlen0 : Z.of_nat (length (Write.data (out st0))) = 64).
  { rewrite Hdata0. reflexivity. }
  pose proof (loop_extends _ _
                (writeKtxMip_extends image size layers faces fmtSize nae)
                _ _ _ Hloop (proj1 Hend0)) as [_ [rest Hrest]].
  rewrite Hdata0, <- app_assoc in Hrest. fold (ktxFile header rest) in Hrest.
  (* the header *)
  apply find_some in Hfind as Hentry. destruct Hentry as [Hin Hvk].
  destruct (formatMap_lookup fmt entry Hnd Hfind) as [Hback Hdefined].
  destruct (formatMap_u32 entry Hgl Hin) as (Hgf & Hgp & Hgt).
  assert (Hnae : 0 <= nae < 2 ^ 32 /\ Z.max nae 1 = layers).
  { unfold nae. destruct (Z.ltb_spec 1 layers); nia. }
  assert (Hfaces32 : 0 <= faces < 2 ^ 32) by nia.
  assert (Hmips32 : 0 <= mips < 2 ^ 32) by (unfold mips in *; lia).
  assert (Hpf : 0 <= (if glPixelType entry =? 0 then 0 else glPixelFormat entry)
                < 2 ^ 32)
    by (destruct (glPixelType entry =? 0); lia).
  assert (Hph : 0 <= (if 1 <? vy size then vy size else 0) < 2 ^ 32)
    by (destruct (1 <? vy size); lia).
  assert (Hpd : 0 <= (if 1 <? vz size then vz size else 0) < 2 ^ 32)
    by (destruct (1 <? vz size); lia).
  assert (Hwf : KtxHeader_wf header).
  { unfold KtxHeader_wf, KtxHeader_fields, header. cbn [endianness glType glTypeSize
      glFormat_ glInternalFormat glBaseInternalFormat pixelWidth pixelHeight
      pixelDepth numberArrayElements numberFaces numberMipmapLevels bytesKeyValueData].
    repeat (apply Forall_cons; [ first [ assumption | tauto | lia | (unfold ktxEndianess; lia) ] | ]).
    apply Forall_nil. }
  assert (Hacc : KtxHeader_accepted header).
  { unfold KtxHeader_accepted, header. cbn [endianness pixelDepth numberFaces
      numberArrayElements pixelWidth glInternalFormat].
    split; [ reflexivity | ]. split; [ | split; [ lia | ] ].
    - intros [Hd Hfa].
      destruct (Z.ltb_spec 1 (vz size)) as [Hvz | Hvz]; [ | lia ].
      destruct H3d as [H1 | [Hc Hl1]]; [ lia | ].
      unfold nae, layers, faces in *. rewrite Hc in *.
      destruct (Z.ltb_spec 1 L); unfold L in *; lia.
    - rewrite Hback. exact Hdefined. }
  exists (loadedReader header (MemoryRead.mk (ktxFile header rest) 64)).
  rewrite Hrest in *.
  split.
  { apply loadKtx_accepts; try assumption.
    apply keyValuesAccepted_empty. reflexivity. }
  (* the fields of the provider *)
  assert (Hsize' : mkVec3ui (vx size) (Z.max (if 1 <? vy size then vy size else 0) 1)
                            (Z.max (if 1 <? vz size then vz size else 0) 1)
                   = size).
  { destruct size as [sx sy sz]. cbn [vx vy vz] in *.
    destruct (Z.ltb_spec 1 sy); destruct (Z.ltb_spec 1 sz); f_equal; lia. }
  assert (Hlayers' : KtxReader.layers
                       (loadedReader header (MemoryRead.mk (ktxFile header rest) 64))
                     = L).
  { unfold KtxReader.layers, loadedReader, header.
    cbn [KtxReader.faces_ KtxReader.arrayElements_ numberFaces numberArrayElements].
    rewrite (proj2 Hnae).
    replace (Z.max faces 1) with faces by lia.
    rewrite (Z.mul_comm faces layers), Hcount.
    rewrite u32_small by lia. lia. }
  unfold KtxReader.provider.
  cbn [ImageProvider.size ImageProvider.format ImageProvider.mipLevels
       ImageProvider.layers ImageProvider.cubemap].
  split; [ exact Hsize' | ].
  split; [ exact Hback | ].
  split; [ unfold loadedReader, header; cbn [KtxReader.mipLevels_ numberMipmapLevels];
           unfold mips; lia | ].
  split; [ exact Hlayers' | ].
  split.
  { unfold KtxReader.cubemap, loadedReader, header.
    cbn [KtxReader.faces_ numberFaces]. unfold faces.
    destruct (ImageProvider.cubemap image); reflexivity. }
  (* the faces *)
  intros m l Hm Hl.
  set (reader := loadedReader header (MemoryRead.mk (ktxFile header rest) 64)) in *.
  assert (Hrsize : KtxReader.size_ reader = size) by exact Hsize'.
  assert (Hrfmt : KtxReader.format_ reader = fmt) by exact Hback.
  assert (Hfs : forall i, 0 <= i ->
                  KtxReader.faceSize reader i = writtenFaceSize size fmtSize i).
  { intros i Hi. rewrite KtxReader_faceSize_written;
      rewrite ?Hrsize, ?Hrfmt; try assumption; try lia. reflexivity. }
  pose proof (Z.div_mod l faces ltac:(lia)) as Hdm.
  pose proof (Z.mod_pos_bound l faces ltac:(lia)) as Hmod.
  assert (Hdiv : 0 <= l / faces < layers).
  { split; [ apply Z.div_pos; lia | ].
    apply Z.div_lt_upper_bound; [ lia | ]. rewrite Z.mul_comm. lia. }
  destruct (writeKtxMip_loop image size layers faces fmtSize nae
              ltac:(lia) ltac:(lia) (range 0 mips) st0 st' y Hloop Hend0
              ltac:(rewrite Hlen0; reflexivity)
              ltac:(rewrite Hrest; exact Hbound)
              (Z.to_nat m) m (l / faces) (l mod faces)
              (nth_error_range m mips Hm) Hdiv Hmod)
    as (span & Hread & Hlen & Hplaced).
  replace (l / faces * faces + l mod faces) with l in * by lia.
  rewrite u32_small in Hread by lia.
  rewrite Hread.
  rewrite firstn_range, Hlen0 in Hplaced by lia.
  unfold KtxReader.read.
  rewrite KtxReader_offset_sum.
  rewrite (Hfs m) by lia. rewrite <- Hlen.
  assert (Hpos : ktxFaceOffset reader m l
                 = 64
                   + fold_right
                       (fun i acc =>
                          writtenLevelBytes size fmtSize (layers * faces) i + acc)
                       0 (range 0 m)
                   + 4 + l * align (writtenFaceSize size fmtSize m) 4).
  { unfold ktxFaceOffset. rewrite (Hfs m) by lia.
    change (KtxReader.dataBegin_ reader) with (64 + 0).
    rewrite Z.add_0_r. do 3 f_equal.
    apply fold_right_sum_ext. intros i Hi. apply In_range in Hi.
    unfold ktxLevelBytes, writtenLevelBytes.
    rewrite Hlayers', Hcount, (Hfs i) by lia. reflexivity. }
  rewrite Hpos.
  change (KtxReader.stream_ reader) with (MemoryRead.mk (ktxFile header rest) 64).
  apply MemoryRead_seek_read_placed.
  - rewrite <- Hrest. exact Hplaced.
  - assert (0 <= fold_right
                   (fun i acc =>
                      writtenLevelBytes size fmtSize (layers * faces) i + acc)
                   0 (range 0 m)).
    { generalize (range 0 m). intros ms.
      induction ms as [| i ms IH]; cbn [fold_right]; [ lia | ].
      unfold writtenLevelBytes at 1.
      pose proof (align_4_bounds (writtenFaceSize size fmtSize i)
                    ltac:(unfold writtenFaceSize; apply u32_range)).
      pose proof (u32_range (vx (mipSize size i) * vy (mipSize size i)
                             * vz (mipSize size i) * fmtSize)).
      fold (writtenFaceSize size fmtSize i) in *. nia. }
    pose proof (align_4_bounds (writtenFaceSize size fmtSize m)
                  ltac:(unfold writtenFaceSize; apply u32_range)).
    pose proof (u32_range (vx (mipSize size m) * vy (mipSize size m)
                           * vz (mipSize size m) * fmtSize)).
    fold (writtenFaceSize size fmtSize m) in *. nia.
  - exact Hbound.
Qed.

End Ktx1Roundtrip.

(** ** KTX2 *)

Section R8.
Context {fu : FormatUtils}.
Hypothesis Hsize : formatElementSize r8Unorm = 1.
Hypothesis Hblock : blockSize r8Unorm = mkVec3ui 1 1 1.

Lemma provider3_read_0 : ImageProvider.read provider3 0 0 = Ok [1; 2].
Proof.
  unfold provider3, MemImageProvider.provider. cbn [ImageProvider.read].
  unfold MemImageProvider.read, MemImageProvider.faceSize, wrapImage_faces.
  cbn [MemImageProvider.data_ MemImageProvider.layers_ MemImageProvider.size_
       MemImageProvider.format_].
  rewrite Hsize. reflexivity.
Qed.

Lemma provider3_read_1 : ImageProvider.read provider3 1 0 = Ok [3].
Proof.
  unfold provider3, MemImageProvider.provider. cbn [ImageProvider.read].
  unfold MemImageProvider.read, MemImageProvider.faceSize, wrapImage_faces.
  cbn [MemImageProvider.data_ MemImageProvider.layers_ MemImageProvider.size_
       MemImageProvider.format_].
  rewrite Hsize. reflexivity.
Qed.

Lemma sizeBytes_r8 (mip : Z) :
  sizeBytes (mkVec3ui 2 1 1) mip r8Unorm
  = u32 (ceilDivide (Z.max (Z.shiftr 2 mip) 1) 1
         * ceilDivide (Z.max (Z.shiftr 1 mip) 1) 1
         * ceilDivide (Z.max (Z.shiftr 1 mip) 1) 1 * 1).
Proof. unfold sizeBytes. rewrite Hblock, Hsize. reflexivity. Qed.

Lemma writeKtx2_provider3 :
  writeKtx2 Write.empty provider3 false
  = (Ok WriteError_none, Write.mk file3 125).
Proof.
  unfold writeKtx2, writeKtx2Throw. cbv zeta.
  change (ImageProvider.format provider3) with r8Unorm.
  change (ImageProvider.cubemap provider3) with false. cbv iota.
  change (ImageProvider.mipLevels provider3) with 2.
  change (ImageProvider.layers provider3) with 1.
  change (ImageProvider.size provider3) with (mkVec3ui 2 1 1).
  rewrite Hsize.
  change (range 0 2) with [0; 1].
  cbn [fold_left loop]. unfold writeLevelIndex, writeKtx2Mip.
  rewrite !sizeBytes_r8.
  change (layerFaces 1 1) with [(0, 0)].
  cbn [loop]. unfold writeKtx2Face.
  change (u32 (0 * 1 + 0)) with 0.
  rewrite provider3_read_0.
  cbv iota beta.
  rewrite provider3_read_1.
  reflexivity.
Qed.

(** C3: [writeKtx2] without zlib of the 2x1 [r8Unorm] image with the
    mip levels [{1, 2}] and [{3}] succeeds, and [loadKtx2] of the bytes
    succeeds, but the level index holds the offset 122 for level 1 and
    the face of level 1 was written at byte 124, after two bytes of
    padding: [read(1, 0)] of the loaded provider is the padding byte
    [{0}], where the face of the written provider is [{3}]. *)
Theorem ktx2_level_index_ignores_padding :
  exists out reader,
    writeKtx2 Write.empty provider3 false = (Ok WriteError_none, out)
    /\ loadKtx2 (MemoryRead.open (Write.data out)) = (ReadError_none, Some reader)
    /\ Ktx2Reader.levels_ reader = [mkLevel 120 2 2; mkLevel 122 1 1]
    /\ nth 124 (Write.data out) 0 = 3
    /\ ImageProvider.read provider3 1 0 = Ok [3]
    /\ Ktx2Reader.read reader 1 0 = Ok [0].
Proof.
  exists (Write.mk file3 125).
  exists (Ktx2Reader.mk r8Unorm (mkVec3ui 2 1 1) 1 0
            [mkLevel 120 2 2; mkLevel 122 1 1] 0 false (MemoryRead.mk file3 120)).
  split; [ apply writeKtx2_provider3 | ].
  cbn [Write.data].
  split; [ reflexivity | ].
  split; [ reflexivity | ].
  split; [ reflexivity | ].
  split; [ apply provider3_read_1 | ].
  unfold Ktx2Reader.read, Ktx2Reader.offset, Ktx2Reader.faceSize.
  cbn [Ktx2Reader.zlib_ Ktx2Reader.levels_ Ktx2Reader.size_ Ktx2Reader.format_
       Ktx2Reader.stream_ Ktx2Reader.initialOffset_].
  rewrite sizeBytes_r8.
  reflexivity.
Qed.

End R8.

(** ** Writing and reading back a KTX2 file *)

Lemma le_value_le_bytes (n : nat) (v : Z) :
  le_value (le_bytes n v) = v mod 2 ^ (8 * Z.of_nat n).
Proof.
  revert v. induction n as [| n IH]; intros v.
  - cbn. rewrite Z.mod_1_r. reflexivity.
  - rewrite le_bytes_S.
    change (le_value (v mod 256 :: le_bytes n (Z.shiftr v 8)))
      with (v mod 256 + 256 * le_value (le_bytes n (Z.shiftr v 8))).
    rewrite IH, Z.shiftr_div_pow2 by lia. change (2 ^ 8) with 256.
    replace (8 * Z.of_nat (S n)) with (8 + 8 * Z.of_nat n) by lia.
    rewrite Z.pow_add_r by lia. change (2 ^ 8) with 256.
    rewrite Z.rem_mul_r by (try apply Z.pow_pos_nonneg; lia).
    reflexivity.
Qed.

Lemma Ktx2LevelInfo_of_bytes_bytes (i : Ktx2LevelInfo) :
  Ktx2LevelInfo_wf i -> Ktx2LevelInfo_of_bytes (Ktx2LevelInfo_bytes i) = i.
Proof.
  intros (Ho & Hl & Hu). destruct i as [o l u]. cbn [lvl_offset lvl_length
    lvl_uncompressedLength] in *.
  unfold Ktx2LevelInfo_of_bytes, Ktx2LevelInfo_bytes.
  cbn [lvl_offset lvl_length lvl_uncompressedLength].
  assert (H8 : forall v, length (le_bytes 8 v) = 8%nat) by (intros; apply length_le_bytes).
  rewrite firstn_app, H8, Nat.sub_diag, firstn_O, app_nil_r.
  rewrite (firstn_all2 (le_bytes 8 o)) by (rewrite H8; lia).
  rewrite skipn_app, H8, Nat.sub_diag, skipn_O.
  rewrite (skipn_all2 (le_bytes 8 o)) by (rewrite H8; lia). cbn [app].
  rewrite firstn_app, H8, Nat.sub_diag, firstn_O, app_nil_r.
  rewrite (firstn_all2 (le_bytes 8 l)) by (rewrite H8; lia).
  replace 16%nat with (8 + 8)%nat by reflexivity.
  rewrite <- skipn_skipn.
  rewrite skipn_app, H8, Nat.sub_diag, skipn_O.
  rewrite (skipn_all2 (le_bytes 8 o)) by (rewrite H8; lia). cbn [app].
  rewrite skipn_app, H8, Nat.sub_diag, skipn_O.
  rewrite (skipn_all2 (le_bytes 8 l)) by (rewrite H8; lia). cbn [app].
  rewrite (firstn_all2 (le_bytes 8 u)) by (rewrite H8; lia).
  rewrite !le_value_le_bytes. change (8 * Z.of_nat 8) with 64.
  rewrite !Z.mod_small by assumption. reflexivity.
Qed.

Lemma Ktx2Header_of_bytes_bytes (h : Ktx2Header) :
  Ktx2Header_wf h -> Ktx2Header_of_bytes (Ktx2Header_bytes h) = h.
Proof.
  intros Hwf. unfold Ktx2Header_of_bytes, Ktx2Header_bytes.
  rewrite !u32_at_flat_map by (try exact Hwf; cbn [length]; lia).
  destruct h. reflexivity.
Qed.

Lemma length_Ktx2LevelInfo_bytes (i : Ktx2LevelInfo) :
  length (Ktx2LevelInfo_bytes i) = 24%nat.
Proof. unfold Ktx2LevelInfo_bytes. rewrite !length_app, !length_le_bytes. reflexivity. Qed.

(** The level index is read back from its bytes. *)
Lemma readLevels_index (infos : list Ktx2LevelInfo) :
  forall (pre rest : list Z),
    Forall Ktx2LevelInfo_wf infos ->
    Z.of_nat (length (pre ++ flat_map Ktx2LevelInfo_bytes infos ++ rest)) < 2 ^ 63 ->
    readLevels (length infos)
      (MemoryRead.mk (pre ++ flat_map Ktx2LevelInfo_bytes infos ++ rest)
                     (Z.of_nat (length pre)))
    = Some (infos,
            MemoryRead.mk (pre ++ flat_map Ktx2LevelInfo_bytes infos ++ rest)
                          (Z.of_nat (length pre)
                           + 24 * Z.of_nat (length infos))).
Proof.
  induction infos as [| i infos IH]; intros pre rest Hwf Hlen.
  - cbn [length readLevels]. rewrite Z.mul_0_r, Z.add_0_r. reflexivity.
  - inversion Hwf as [| ? ? Hi Hrest]. subst.
    cbn [length readLevels flat_map]. cbn [flat_map] in Hlen.
    set (buf := pre ++ (Ktx2LevelInfo_bytes i ++ flat_map Ktx2LevelInfo_bytes infos)
                ++ rest) in *.
    assert (Hbuf : buf = (pre ++ Ktx2LevelInfo_bytes i)
                         ++ flat_map Ktx2LevelInfo_bytes infos ++ rest).
    { unfold buf. rewrite <- !app_assoc. reflexivity. }
    assert (Hfit : Z.of_nat (length pre) + 24 <= Z.of_nat (length buf)).
    { rewrite Hbuf, !length_app, length_Ktx2LevelInfo_bytes. lia. }
    rewrite readObject_full by lia.
    rewrite Nat2Z.id.
    assert (Hchunk : firstn (Z.to_nat 24) (skipn (length pre) buf)
                     = Ktx2LevelInfo_bytes i).
    { unfold buf. rewrite skipn_app, Nat.sub_diag, skipn_O, skipn_all. cbn [app].
      rewrite <- app_assoc.
      change (Z.to_nat 24) with 24%nat.
      rewrite <- (length_Ktx2LevelInfo_bytes i) at 1.
      rewrite firstn_app, Nat.sub_diag, firstn_O, app_nil_r. apply firstn_all. }
    rewrite Hchunk, Ktx2LevelInfo_of_bytes_bytes by exact Hi.
    replace (Z.of_nat (length pre) + 24)
      with (Z.of_nat (length (pre ++ Ktx2LevelInfo_bytes i)))
      by (rewrite length_app, length_Ktx2LevelInfo_bytes; lia).
    rewrite Hbuf in *.
    rewrite (IH (pre ++ Ktx2LevelInfo_bytes i) rest Hrest Hlen).
    do 3 f_equal. rewrite length_app, length_Ktx2LevelInfo_bytes. lia.
Qed.

Lemma align_of_multiple (x a : Z) : x mod a = 0 -> align x a = x.
Proof.
  intros H. unfold align.
  destruct ((x =? 0) || (a =? 0)); [ reflexivity | ].
  rewrite H. reflexivity.
Qed.

Section Ktx2Index.
Context {fu : FormatUtils}.
Variable size : Vec3ui.
Variable format : Format.
Variables numLayers numFaces : Z.

(** The loop that writes the level index. *)
Lemma writeLevelIndex_fold (ms : list Z) :
  forall st,
    Write.at_ (out st) = Z.of_nat (length (Write.data (out st))) ->
    let st' := fold_left
                 (fun st m => writeLevelIndex size format numLayers numFaces m st)
                 ms st in
    Write.at_ (out st') = Z.of_nat (length (Write.data (out st')))
    /\ Write.data (out st')
       = Write.data (out st)
         ++ flat_map Ktx2LevelInfo_bytes
              (levelIndex size format numLayers numFaces ms (woff st)).
Proof.
  induction ms as [| m ms IH]; intros st Hat; cbn [fold_left levelIndex flat_map].
  - split; [ exact Hat | ]. rewrite app_nil_r. reflexivity.
  - set (st1 := writeLevelIndex size format numLayers numFaces m st).
    assert (Hst1 : Write.data (out st1)
                   = Write.data (out st)
                     ++ Ktx2LevelInfo_bytes
                          (mkLevel (woff st)
                             (ktx2LevelLength size format numLayers numFaces m)
                             (ktx2LevelLength size format numLayers numFaces m))
                   /\ Write.at_ (out st1) = Z.of_nat (length (Write.data (out st1)))
                   /\ woff st1
                      = u64 (woff st
                             + ktx2LevelLength size format numLayers numFaces m)).
    { unfold st1, writeLevelIndex. cbv zeta. cbn [out woff].
      rewrite Write_write_end by exact Hat. cbn [Write.data Write.at_].
      repeat split. }
    destruct Hst1 as (Hdata1 & Hat1 & Hoff1).
    destruct (IH st1 Hat1) as [Hat' Hdata']. cbv zeta in Hat', Hdata'.
    split; [ exact Hat' | ].
    rewrite Hdata', Hdata1, Hoff1, <- app_assoc. reflexivity.
Qed.

Lemma length_levelIndex (ms : list Z) (off : Z) :
  length (levelIndex size format numLayers numFaces ms off) = length ms.
Proof.
  revert off. induction ms as [| m ms IH]; intros off; cbn [levelIndex length];
    [ reflexivity | ].
  rewrite IH. reflexivity.
Qed.

Lemma levelIndex_wf (ms : list Z) (off : Z) :
  0 <= off < 2 ^ 64 ->
  Forall Ktx2LevelInfo_wf (levelIndex size format numLayers numFaces ms off).
Proof.
  revert off. induction ms as [| m ms IH]; intros off Hoff; cbn [levelIndex];
    constructor.
  - unfold Ktx2LevelInfo_wf. cbn [lvl_offset lvl_length lvl_uncompressedLength].
    repeat split; try apply Hoff; apply u64_range.
  - apply IH. apply u64_range.
Qed.

(** Where the lengths add up within 64 bits, the index holds the sums. *)
Lemma levelIndex_nth (ms : list Z) :
  forall off j m,
    0 <= numLayers -> 0 <= numFaces ->
    0 <= off ->
    off + fold_right (fun i acc => sizeBytes size i format * numLayers * numFaces + acc)
                     0 ms < 2 ^ 64 ->
    nth_error ms j = Some m ->
    nth_error (levelIndex size format numLayers numFaces ms off) j
    = Some (mkLevel
              (off + fold_right
                       (fun i acc => sizeBytes size i format * numLayers * numFaces + acc)
                       0 (firstn j ms))
              (sizeBytes size m format * numLayers * numFaces)
              (sizeBytes size m format * numLayers * numFaces)).
Proof.
  induction ms as [| m0 ms IH]; intros off j m Hl Hf Hoff Hsum Hj.
  - destruct j; discriminate Hj.
  - cbn [fold_right] in Hsum.
    assert (Hrest : 0 <= fold_right
                           (fun i acc =>
                              sizeBytes size i format * numLayers * numFaces + acc)
                           0 ms).
    { clear - Hl Hf. induction ms as [| i ms IH]; cbn [fold_right]; [ lia | ].
      pose proof (sizeBytes_range size i format).
      assert (0 <= sizeBytes size i format * numLayers * numFaces)
        by (apply Z.mul_nonneg_nonneg; [ apply Z.mul_nonneg_nonneg | ]; lia).
      lia. }
    pose proof (sizeBytes_range size m0 format) as Hfs.
    assert (Hlen0 : 0 <= sizeBytes size m0 format * numLayers * numFaces)
      by (apply Z.mul_nonneg_nonneg; [ apply Z.mul_nonneg_nonneg | ]; lia).
    assert (Hlen : ktx2LevelLength size format numLayers numFaces m0
                   = sizeBytes size m0 format * numLayers * numFaces).
    { unfold ktx2LevelLength.
      rewrite (Z.mul_comm (u64 _) numFaces), u64_mul_r.
      rewrite (Z.mul_comm numFaces). apply u64_small. lia. }
    cbn [levelIndex]. rewrite Hlen.
    destruct j as [| j]; cbn [nth_error firstn fold_right].
    + injection Hj as ->. rewrite Z.add_0_r. reflexivity.
    + cbn [nth_error] in Hj.
      rewrite u64_small by lia.
      assert (H1 : 0 <= off + sizeBytes size m0 format * numLayers * numFaces).
      { lia. }
      rewrite (IH (off + sizeBytes size m0 format * numLayers * numFaces) j m
                 Hl Hf H1 ltac:(lia) Hj).
      do 2 f_equal. ring.
Qed.

End Ktx2Index.

Section Ktx2Faces.
Variable img : ImageProvider.t.
Variables m numFaces faceSize : Z.

Lemma writeKtx2Face_extends (lf : Z * Z) (st st' y : wstate) :
  writeKtx2Face img m numFaces faceSize lf st = (Continue st', y) -> extends st st'.
Proof.
  destruct lf as [l f]. unfold writeKtx2Face.
  destruct (ImageProvider.read img m (u32 (l * numFaces + f))) as [span | | | ];
    try discriminate.
  destruct (negb _); [ discriminate | ].
  intros H Hat. injection H as Hs _. subst st'. cbn [out].
  rewrite Write_write_end by exact Hat. cbn [Write.data Write.at_].
  split; [ reflexivity | eexists; reflexivity ].
Qed.

Lemma writeKtx2Face_failed (lf : Z * Z) (st : wstate) (r : step wstate) (y : wstate) :
  writeKtx2Face img m numFaces faceSize lf st = (r, y) -> failed r.
Proof.
  destruct lf as [l f]. unfold writeKtx2Face.
  destruct (ImageProvider.read img m (u32 (l * numFaces + f))) as [span | e | | ].
  - destruct (negb _); intros H; injection H as <- _; cbn; [ discriminate | exact I ].
  - intros H. injection H as <- _. cbn. discriminate.
  - intros H. injection H as <- _. cbn. discriminate.
  - intros H. injection H as <- _. cbn. discriminate.
Qed.

(** The loop over the faces of a mip level: one span after the other. *)
Lemma writeKtx2Face_loop (lfs : list (Z * Z)) :
  forall st st' y,
    loop (writeKtx2Face img m numFaces faceSize) lfs st = (Continue st', y) ->
    atEnd st ->
    Z.of_nat (length (Write.data (out st'))) < 2 ^ 63 ->
    atEnd st'
    /\ Z.of_nat (length (Write.data (out st')))
       = Z.of_nat (length (Write.data (out st)))
         + Z.of_nat (length lfs) * faceSize
    /\ forall j l f,
         nth_error lfs j = Some (l, f) ->
         exists span,
           ImageProvider.read img m (u32 (l * numFaces + f)) = Ok span
           /\ Z.of_nat (length span) = faceSize
           /\ placed (Write.data (out st'))
                     (Z.of_nat (length (Write.data (out st)))
                      + Z.of_nat j * faceSize)
                     span.
Proof.
  induction lfs as [| [l0 f0] lfs IH]; intros st st' y; cbn [loop].
  - intros H Hend Hbound. injection H as Hs _. subst st'.
    split; [ exact Hend | ]. split; [ cbn [length]; lia | ].
    intros [| j] l f Hj; discriminate Hj.
  - destruct (writeKtx2Face img m numFaces faceSize (l0, f0) st)
      as [[st1 | e | o] y1] eqn:Hstep; try discriminate.
    intros Hloop Hend Hbound.
    pose proof (loop_extends _ lfs writeKtx2Face_extends _ _ _ Hloop) as Hext.
    pose proof (writeKtx2Face_extends _ _ _ _ Hstep (proj1 Hend)) as [Hat1 _].
    pose proof (extends_length _ _ Hext Hat1) as Hmono.
    destruct (Hext Hat1) as [_ [more Hmore]].
    revert Hstep. unfold writeKtx2Face.
    destruct (ImageProvider.read img m (u32 (l0 * numFaces + f0)))
      as [span | | | ] eqn:Hread; try discriminate.
    destruct (Z.eqb_spec (Z.of_nat (length span)) faceSize) as [Hfs | ];
      cbn [negb]; [ | discriminate ].
    intros H. injection H as Hs _.
    destruct Hend as [Hat Hoff].
    assert (Hdata1 : Write.data (out st1) = Write.data (out st) ++ span).
    { rewrite <- Hs. cbn [out]. rewrite Write_write_end by exact Hat. reflexivity. }
    assert (Hlen1 : Z.of_nat (length (Write.data (out st1)))
                    = Z.of_nat (length (Write.data (out st))) + faceSize).
    { rewrite Hdata1, length_app. lia. }
    assert (Hend1 : atEnd st1).
    { split; [ exact Hat1 | ].
      rewrite Hlen1. rewrite <- Hs. cbn [woff]. rewrite Hoff, Hfs.
      apply u64_small. change (2 ^ 64) with (2 * 2 ^ 63). lia. }
    destruct (IH st1 st' y Hloop Hend1 Hbound) as (Hend' & Hlen' & Hfaces).
    split; [ exact Hend' | ]. split.
    + rewrite Hlen', Hlen1. cbn [length]. lia.
    + intros [| j] l f Hj.
      * cbn [nth_error] in Hj. injection Hj as <- <-.
        exists span. split; [ exact Hread | ]. split; [ exact Hfs | ].
        rewrite Hmore, Hdata1, <- app_assoc.
        replace (Z.of_nat (length (Write.data (out st))) + Z.of_nat 0 * faceSize)
          with (Z.of_nat (length (Write.data (out st)))) by lia.
        apply placed_end.
      * cbn [nth_error] in Hj.
        destruct (Hfaces j l f Hj) as (span' & Hread' & Hfs' & Hplaced').
        exists span'. split; [ exact Hread' | ]. split; [ exact Hfs' | ].
        replace (Z.of_nat (length (Write.data (out st)))
                 + Z.of_nat (S j) * faceSize)
          with (Z.of_nat (length (Write.data (out st1)))
                + Z.of_nat j * faceSize) by lia.
        exact Hplaced'.
Qed.

End Ktx2Faces.

Section Ktx2Levels.
Context {fu : FormatUtils}.
Variable img : ImageProvider.t.
Variable size : Vec3ui.
Variable format : Format.
Variables numLayers numFaces fmtSize : Z.
Hypothesis HnumLayers : 0 <= numLayers.
Hypothesis HnumFaces : 0 <= numFaces.

Lemma writeKtx2Mip_extends (m : Z) (st st' y : wstate) :
  writeKtx2Mip img size format numLayers numFaces fmtSize false m st
  = (Continue st', y) ->
  extends st st'.
Proof.
  unfold writeKtx2Mip. cbv zeta. intros Hloop Hat.
  match type of Hloop with
  | loop _ _ ?s = _ => set (st0 := s) in *
  end.
  assert (H0 : Write.at_ (out st0) = Z.of_nat (length (Write.data (out st0)))
               /\ exists more, Write.data (out st0) = Write.data (out st) ++ more).
  { unfold st0. destruct (0 <? _).
    - cbn [out]. rewrite Write_write_end by exact Hat. cbn [Write.data Write.at_].
      split; [ reflexivity | eexists; reflexivity ].
    - split; [ exact Hat | ]. exists []. rewrite app_nil_r. reflexivity. }
  destruct H0 as [Hat0 [more0 Hmore0]].
  destruct (loop_extends _ _ (writeKtx2Face_extends img m numFaces _) _ _ _ Hloop Hat0)
    as [Hat' [more Hmore]].
  split; [ exact Hat' | ].
  rewrite Hmore, Hmore0, <- app_assoc. eexists. reflexivity.
Qed.

Lemma writeKtx2Mip_failed (m : Z) (st : wstate) (r : step wstate) (y : wstate) :
  writeKtx2Mip img size format numLayers numFaces fmtSize false m st = (r, y) ->
  failed r.
Proof.
  unfold writeKtx2Mip. cbv zeta.
  apply (loop_failed _ _ (writeKtx2Face_failed img m numFaces _)).
Qed.

(** One mip level that begins at a multiple of the alignment: no
    padding, then the faces. *)
Lemma writeKtx2Mip_step (m : Z) (st st' y : wstate) :
  writeKtx2Mip img size format numLayers numFaces fmtSize false m st
  = (Continue st', y) ->
  atEnd st ->
  Z.of_nat (length (Write.data (out st))) mod u32 (align fmtSize 4) = 0 ->
  Z.of_nat (length (Write.data (out st'))) < 2 ^ 63 ->
  atEnd st'
  /\ Z.of_nat (length (Write.data (out st')))
     = Z.of_nat (length (Write.data (out st)))
       + sizeBytes size m format * numLayers * numFaces
  /\ forall l f,
       0 <= l < numLayers -> 0 <= f < numFaces ->
       exists span,
         ImageProvider.read img m (u32 (l * numFaces + f)) = Ok span
         /\ Z.of_nat (length span) = sizeBytes size m format
         /\ placed (Write.data (out st'))
                   (Z.of_nat (length (Write.data (out st)))
                    + (l * numFaces + f) * sizeBytes size m format)
                   span.
Proof.
  intros Hstep Hend Ha Hbound.
  pose proof (writeKtx2Mip_extends _ _ _ _ Hstep (proj1 Hend)) as [_ [more Hmore]].
  assert (Hlen : Z.of_nat (length (Write.data (out st))) < 2 ^ 63).
  { rewrite Hmore, length_app in Hbound. lia. }
  revert Hstep. unfold writeKtx2Mip. cbv zeta.
  destruct Hend as [Hat Hoff].
  rewrite Hoff, (align_of_multiple _ _ Ha).
  rewrite (u64_small (Z.of_nat _)) by (change (2 ^ 64) with (2 * 2 ^ 63); lia).
  rewrite Z.sub_diag. change (u32 0) with 0. change (0 <? 0) with false. cbv iota.
  intros Hloop.
  destruct (writeKtx2Face_loop img m numFaces (sizeBytes size m format) _ _ _ _
              Hloop (conj Hat Hoff) Hbound) as (Hend' & Hlen' & Hfaces).
  rewrite length_layerFaces in Hlen' by assumption.
  split; [ exact Hend' | ]. split.
  - rewrite Hlen'. ring.
  - intros l f Hl Hf.
    assert (Hnth : nth_error (layerFaces numLayers numFaces)
                             (Z.to_nat (l * numFaces + f))
                   = Some (l, f)).
    { unfold layerFaces.
      pose proof (nth_error_grid (fun l f => (l, f)) 0 numLayers numFaces l f
                    ltac:(lia) ltac:(lia)) as Hg.
      replace ((l - 0) * numFaces + f) with (l * numFaces + f) in Hg by ring.
      exact Hg. }
    destruct (Hfaces _ l f Hnth) as (span & Hread & Hfs & Hplaced).
    exists span. split; [ exact Hread | ]. split; [ exact Hfs | ].
    rewrite Z2Nat.id in Hplaced by nia. exact Hplaced.
Qed.

(** The loop over the mip levels, each of a length that is a multiple
    of the alignment. *)
Lemma writeKtx2Mip_loop (ms : list Z) :
  forall st st' y,
    loop (writeKtx2Mip img size format numLayers numFaces fmtSize false) ms st
    = (Continue st', y) ->
    atEnd st ->
    Z.of_nat (length (Write.data (out st))) mod u32 (align fmtSize 4) = 0 ->
    (forall m, In m ms ->
       (sizeBytes size m format * numLayers * numFaces) mod u32 (align fmtSize 4)
       = 0) ->
    Z.of_nat (length (Write.data (out st'))) < 2 ^ 63 ->
    Z.of_nat (length (Write.data (out st')))
    = Z.of_nat (length (Write.data (out st)))
      + fold_right (fun i acc => sizeBytes size i format * numLayers * numFaces + acc)
                   0 ms
    /\ forall j m l f,
         nth_error ms j = Some m ->
         0 <= l < numLayers -> 0 <= f < numFaces ->
         exists span,
           ImageProvider.read img m (u32 (l * numFaces + f)) = Ok span
           /\ Z.of_nat (length span) = sizeBytes size m format
           /\ placed (Write.data (out st'))
                     (Z.of_nat (length (Write.data (out st)))
                      + fold_right
                          (fun i acc =>
                             sizeBytes size i format * numLayers * numFaces + acc)
                          0 (firstn j ms)
                      + (l * numFaces + f) * sizeBytes size m format)
                     span.
Proof.
  induction ms as [| m0 ms IH]; intros st st' y; cbn [loop].
  - intros H _ _ _ _. injection H as Hs _. subst st'. cbn [fold_right].
    split; [ lia | ]. intros [| j] m l f Hj; discriminate Hj.
  - destruct (writeKtx2Mip img size format numLayers numFaces fmtSize false m0 st)
      as [[st1 | e | o] y1] eqn:Hstep; try discriminate.
    intros Hloop Hend Ha Hlevels Hbound.
    pose proof (loop_extends _ ms writeKtx2Mip_extends _ _ _ Hloop) as Hext.
    pose proof (writeKtx2Mip_extends _ _ _ _ Hstep (proj1 Hend)) as [Hat1 _].
    pose proof (extends_length _ _ Hext Hat1) as Hmono.
    destruct (writeKtx2Mip_step m0 st st1 y1 Hstep Hend Ha ltac:(lia))
      as (Hend1 & Hlen1 & Hfacesp).
    assert (Ha1 : Z.of_nat (length (Write.data (out st1))) mod u32 (align fmtSize 4)
                  = 0).
    { rewrite Hlen1.
      pose proof (Hlevels m0 (or_introl eq_refl)) as Hm0.
      destruct (Z.eq_dec (u32 (align fmtSize 4)) 0) as [H0 | Hn0].
      - rewrite H0, Z.mod_0_r in Hm0. rewrite H0, Z.mod_0_r in Ha.
        rewrite H0, Z.mod_0_r. lia.
      - rewrite Z.add_mod, Ha, Hm0 by exact Hn0.
        apply Z.mod_0_l. exact Hn0. }
    destruct (IH st1 st' y Hloop Hend1 Ha1
                (fun m Hm => Hlevels m (or_intror Hm)) Hbound) as (Hlen' & Hplaced').
    split.
    + rewrite Hlen', Hlen1. cbn [fold_right]. ring.
    + intros [| j] m l f Hj Hl Hf.
      * cbn [nth_error] in Hj. injection Hj as ->.
        destruct (Hfacesp l f Hl Hf) as (span & Hread & Hfs & Hplaced).
        exists span. split; [ exact Hread | ]. split; [ exact Hfs | ].
        destruct (Hext Hat1) as [_ [more Hmore]].
        rewrite Hmore. apply placed_app.
        cbn [firstn fold_right]. rewrite Z.add_0_r. exact Hplaced.
      * cbn [nth_error] in Hj.
        destruct (Hplaced' j m l f Hj Hl Hf) as (span & Hread & Hfs & Hplaced).
        exists span. split; [ exact Hread | ]. split; [ exact Hfs | ].
        cbn [firstn fold_right]. rewrite Hlen1 in Hplaced.
        rewrite Z.add_assoc. exact Hplaced.
Qed.

End Ktx2Levels.

Lemma length_flat_map_levels (infos : list Ktx2LevelInfo) :
  Z.of_nat (length (flat_map Ktx2LevelInfo_bytes infos))
  = 24 * Z.of_nat (length infos).
Proof.
  induction infos as [| i infos IH]; cbn [flat_map length]; [ reflexivity | ].
  rewrite length_app, length_Ktx2LevelInfo_bytes, Nat2Z.inj_add, IH. lia.
Qed.

Section Ktx2Roundtrip.
Context {fu : FormatUtils}.

(** X28: a KTX2 file that [writeKtx2] has written without zlib, for an
    image whose levels all begin at a multiple of [align(fmtSize, 4)] so
    that no padding is written, is loaded by [loadKtx2] into a provider
    with the size, the format, the mip levels and the layers of the image,
    and every face read from it is the face the image handed out. *)
Theorem ktx2_roundtrip (img : ImageProvider.t) (w : Write.t) :
  0 < ImageProvider.format img < 2 ^ 32 ->
  0 <= typeSize (ImageProvider.format img) < 2 ^ 32 ->
  1 <= vx (ImageProvider.size img) < 2 ^ 32 ->
  1 <= vy (ImageProvider.size img) < 2 ^ 32 ->
  1 <= vz (ImageProvider.size img) < 2 ^ 32 ->
  0 <= ImageProvider.mipLevels img < 2 ^ 32 ->
  1 <= ImageProvider.layers img < 2 ^ 32 ->
  (ImageProvider.cubemap img = true -> ImageProvider.layers img mod 6 = 0) ->
  (72 + 24 * ImageProvider.mipLevels img)
    mod u32 (align (formatElementSize (ImageProvider.format img)) 4) = 0 ->
  (forall m, 0 <= m < ImageProvider.mipLevels img ->
     (sizeBytes (ImageProvider.size img) m (ImageProvider.format img)
      * ImageProvider.layers img)
       mod u32 (align (formatElementSize (ImageProvider.format img)) 4) = 0) ->
  writeKtx2 Write.empty img false = (Ok WriteError_none, w) ->
  Z.of_nat (length (Write.data w)) < 2 ^ 63 ->
  exists reader,
    loadKtx2 (MemoryRead.open (Write.data w)) = (ReadError_none, Some reader)
    /\ ImageProvider.size (Ktx2Reader.provider reader) = ImageProvider.size img
    /\ ImageProvider.format (Ktx2Reader.provider reader) = ImageProvider.format img
    /\ ImageProvider.mipLevels (Ktx2Reader.provider reader)
       = ImageProvider.mipLevels img
    /\ ImageProvider.layers (Ktx2Reader.provider reader) = ImageProvider.layers img
    /\ ImageProvider.cubemap (Ktx2Reader.provider reader)
       = ImageProvider.cubemap img
    /\ forall m l,
         0 <= m < ImageProvider.mipLevels img ->
         0 <= l < ImageProvider.layers img ->
         Ktx2Reader.read reader m l = ImageProvider.read img m l.
Proof.
  intros Hfmt Htype Hx Hy Hz Hmips HL Hcube Hstart Hlevels Hwrite Hbound.
  assert (Hthrow : writeKtx2Throw Write.empty img false = (Ok WriteError_none, w)).
  { revert Hwrite. unfold writeKtx2.
    destruct (writeKtx2Throw Write.empty img false) as [[e | [] | | ] w'];
      intros H; try exact H; discriminate H. }
  clear Hwrite. revert Hthrow. unfold writeKtx2Throw. cbv zeta.
  set (fmt := ImageProvider.format img) in *.
  set (size := ImageProvider.size img) in *.
  set (numMips := ImageProvider.mipLevels img) in *.
  set (L := ImageProvider.layers img) in *.
  set (fmtSize := formatElementSize fmt) in *.
  set (numFaces := if ImageProvider.cubemap img then 6 else 1).
  set (numLayers := if ImageProvider.cubemap img then L / 6 else L).
  set (header := mkKtx2Header (u32 fmt) (typeSize fmt) (vx size)
                   (if 1 <? vy size then vy size else 0)
                   (if 1 <? vz size then vz size else 0)
                   (if 1 <? numLayers then numLayers else 0)
                   numFaces numMips 0 0 0 0 0 0 0).
  change (if false then 3 else 0) with 0. fold header.
  set (dataStart := u64 (Z.of_nat (length ktx2Identifier) + 60 + 24 * numMips)).
  set (stI := fold_left
                (fun st m => writeLevelIndex size fmt numLayers numFaces m st)
                (range 0 numMips)
                (mkW (Write.write (Write.write Write.empty ktx2Identifier)
                                  (Ktx2Header_bytes header))
                     dataStart)).
  set (st0 := mkW (out stI) dataStart).
  destruct (loop (writeKtx2Mip img size fmt numLayers numFaces fmtSize false)
                 (range 0 numMips) st0)
    as [[st' | e | o] y] eqn:Hloop.
  2: { pose proof (loop_failed _ _
                     (writeKtx2Mip_failed img size fmt numLayers numFaces fmtSize)
                     _ _ _ Hloop) as Hf.
       intros H. injection H as He _. cbn in Hf. congruence. }
  2: { pose proof (loop_failed _ _
                     (writeKtx2Mip_failed img size fmt numLayers numFaces fmtSize)
                     _ _ _ Hloop) as Hf.
       intros H. injection H as He _. cbn in Hf. exfalso. exact (Hf _ He). }
  intros H. injection H as Hw. subst w.
  (* layers and faces *)
  assert (Hcount : numLayers * numFaces = L /\ 1 <= numLayers /\ 1 <= numFaces).
  { unfold numLayers, numFaces. destruct (ImageProvider.cubemap img).
    - specialize (Hcube eq_refl).
      pose proof (Z.div_mod L 6 ltac:(lia)). lia.
    - lia. }
  destruct Hcount as (Hcount & Hlayers1 & Hfaces1).
  (* the level index *)
  assert (HdataStart : dataStart = 72 + 24 * numMips).
  { unfold dataStart. change (Z.of_nat (length ktx2Identifier) + 60) with 72.
    apply u64_small. change (2 ^ 64) with (2 ^ 32 * 2 ^ 32). lia. }
  set (infos := levelIndex size fmt numLayers numFaces (range 0 numMips) dataStart).
  assert (HstI : Write.at_ (out stI) = Z.of_nat (length (Write.data (out stI)))
                 /\ Write.data (out stI)
                    = (ktx2Identifier ++ Ktx2Header_bytes header)
                      ++ flat_map Ktx2LevelInfo_bytes infos).
  { unfold stI.
    match goal with
    | |- context [ fold_left ?f ?ms ?s ] =>
        destruct (writeLevelIndex_fold size fmt numLayers numFaces ms s)
          as [Hat Hdata]
    end.
    - cbn [out]. rewrite !Write_write_end by reflexivity. reflexivity.
    - cbv zeta in Hat, Hdata. split; [ exact Hat | ].
      rewrite Hdata. cbn [out woff]. rewrite !Write_write_end by reflexivity.
      reflexivity. }
  destruct HstI as [HatI HdataI].
  assert (Hinfos : Z.of_nat (length infos) = numMips).
  { unfold infos. rewrite length_levelIndex, length_range. lia. }
  assert (Hlen0 : Z.of_nat (length (Write.data (out st0))) = dataStart).
  { unfold st0. cbn [out]. rewrite HdataI, length_app, Nat2Z.inj_add.
    rewrite length_flat_map_levels, Hinfos, HdataStart. reflexivity. }
  assert (Hend0 : atEnd st0).
  { split; [ exact HatI | ]. rewrite Hlen0. reflexivity. }
  destruct (writeKtx2Mip_loop img size fmt numLayers numFaces fmtSize
              ltac:(lia) ltac:(lia) (range 0 numMips) st0 st' y Hloop Hend0)
    as (Hlen' & Hplaced).
  { rewrite Hlen0, HdataStart. exact Hstart. }
  { intros m Hm. apply In_range in Hm.
    rewrite <- Z.mul_assoc, Hcount. apply Hlevels. lia. }
  { exact Hbound. }
  pose proof (loop_extends _ _
                (writeKtx2Mip_extends img size fmt numLayers numFaces fmtSize)
                _ _ _ Hloop (proj1 Hend0)) as [_ [rest Hrest]].
  unfold st0 in Hrest. cbn [out] in Hrest. rewrite HdataI, <- app_assoc in Hrest.
  set (file := (ktx2Identifier ++ Ktx2Header_bytes header)
               ++ flat_map Ktx2LevelInfo_bytes infos ++ rest) in *.
  rewrite Hrest in *. rewrite Hlen0 in *.
  (* the header *)
  assert (Hwf : Ktx2Header_wf header).
  { unfold Ktx2Header_wf, header.
    cbn [vkFormat_ typeSize_ pixelWidth2 pixelHeight2 pixelDepth2 layerCount
         faceCount levelCount supercompression dfdByteOffset dfdByteLength
         kvdByteOffset kvdByteLength sgdByteOffset sgdByteLength].
    assert (0 <= (if 1 <? vy size then vy size else 0) < 2 ^ 32)
      by (destruct (1 <? vy size); lia).
    assert (0 <= (if 1 <? vz size then vz size else 0) < 2 ^ 32)
      by (destruct (1 <? vz size); lia).
    assert (0 <= (if 1 <? numLayers then numLayers else 0) < 2 ^ 32)
      by (destruct (1 <? numLayers); nia).
    assert (0 <= numFaces < 2 ^ 32) by nia.
    pose proof (u32_range fmt).
    repeat (apply Forall_cons; [ first [ assumption | lia ] | ]).
    apply Forall_nil. }
  assert (Hfile : (72 <= length file)%nat).
  { unfold file. rewrite !length_app. cbn [ktx2Identifier length].
    change (length (Ktx2Header_bytes header)) with 60%nat. lia. }
  assert (Hid : firstn (Z.to_nat 12) file = ktx2Identifier).
  { unfold file. rewrite <- app_assoc.
    change (Z.to_nat 12) with (length ktx2Identifier).
    rewrite firstn_app, Nat.sub_diag, firstn_O, app_nil_r. apply firstn_all. }
  assert (Hhb : firstn (Z.to_nat 60) (skipn (Z.to_nat (0 + 12)) file)
                = Ktx2Header_bytes header).
  { unfold file. rewrite <- app_assoc.
    change (Z.to_nat (0 + 12)) with (length ktx2Identifier).
    rewrite skipn_app, Nat.sub_diag, skipn_O, skipn_all. cbn [app].
    change (Z.to_nat 60) with (length (Ktx2Header_bytes header)).
    rewrite firstn_app, Nat.sub_diag, firstn_O, app_nil_r. apply firstn_all. }
  assert (Hlevelsread :
            readLevels (Z.to_nat numMips) (MemoryRead.mk file (0 + 12 + 60))
            = Some (infos, MemoryRead.mk file (72 + 24 * numMips))).
  { replace (Z.to_nat numMips) with (length infos) by lia.
    change (0 + 12 + 60)
      with (Z.of_nat (length (ktx2Identifier ++ Ktx2Header_bytes header))).
    unfold file. rewrite readLevels_index.
    - rewrite Hinfos. reflexivity.
    - apply levelIndex_wf. unfold dataStart. apply u64_range.
    - exact Hbound. }
  set (reader := Ktx2Reader.mk (u32 fmt)
                   (mkVec3ui (vx size)
                             (Z.max (if 1 <? vy size then vy size else 0) 1)
                             (Z.max (if 1 <? vz size then vz size else 0) 1))
                   numFaces (if 1 <? numLayers then numLayers else 0) infos 0 false
                   (MemoryRead.mk file (72 + 24 * numMips))).
  exists reader.
  split.
  { unfold loadKtx2, MemoryRead.open, MemoryRead.address.
    cbn [MemoryRead.at_].
    rewrite readObject_full by lia.
    change (skipn (Z.to_nat 0) file) with file.
    rewrite Hid, list_eqb_refl. cbn [negb].
    rewrite readObject_full by lia.
    rewrite Hhb, Ktx2Header_of_bytes_bytes by exact Hwf.
    change (levelCount header) with numMips.
    change (vkFormat_ header) with (u32 fmt).
    change (pixelWidth2 header) with (vx size).
    change (pixelHeight2 header) with (if 1 <? vy size then vy size else 0).
    change (pixelDepth2 header) with (if 1 <? vz size then vz size else 0).
    change (supercompression header) with 0.
    change (faceCount header) with numFaces.
    change (layerCount header) with (if 1 <? numLayers then numLayers else 0).
    rewrite (u32_small fmt) by lia.
    destruct (Z.eqb_spec fmt undefined) as [Hu | _];
      [ unfold undefined in Hu; lia | ].
    destruct (Z.eqb_spec (vx size) 0) as [Hz0 | _]; [ lia | ].
    change (negb (0 =? 3) && negb (0 =? 0)) with false. cbv iota.
    rewrite Hlevelsread.
    destruct (Z.eqb_spec numFaces 0) as [H0 | _]; [ lia | ].
    unfold reader. rewrite (u32_small fmt) by lia. reflexivity. }
  (* the fields of the provider *)
  assert (Hsize' : Ktx2Reader.size_ reader = size).
  { unfold reader. cbn [Ktx2Reader.size_].
    destruct size as [sx sy sz]. cbn [vx vy vz] in *.
    destruct (Z.ltb_spec 1 sy); destruct (Z.ltb_spec 1 sz); f_equal; lia. }
  assert (Hfmt' : Ktx2Reader.format_ reader = fmt).
  { unfold reader. cbn [Ktx2Reader.format_]. apply u32_small. lia. }
  unfold Ktx2Reader.provider.
  cbn [ImageProvider.size ImageProvider.format ImageProvider.mipLevels
       ImageProvider.layers ImageProvider.cubemap].
  split; [ exact Hsize' | ].
  split; [ exact Hfmt' | ].
  split.
  { unfold Ktx2Reader.mipLevels, reader. cbn [Ktx2Reader.levels_].
    rewrite Hinfos. apply u32_small. lia. }
  split.
  { unfold Ktx2Reader.layers, reader.
    cbn [Ktx2Reader.faces_ Ktx2Reader.layerCount_].
    replace (Z.max (if 1 <? numLayers then numLayers else 0) 1) with numLayers
      by (destruct (Z.ltb_spec 1 numLayers); lia).
    rewrite (Z.mul_comm numFaces numLayers), Hcount.
    rewrite u32_small by lia. lia. }
  split.
  { unfold Ktx2Reader.cubemap, reader. cbn [Ktx2Reader.faces_]. unfold numFaces.
    destruct (ImageProvider.cubemap img); reflexivity. }
  (* the faces *)
  intros m l Hm Hl.
  pose proof (Z.div_mod l numFaces ltac:(lia)) as Hdm.
  pose proof (Z.mod_pos_bound l numFaces ltac:(lia)) as Hmod.
  assert (Hdiv : 0 <= l / numFaces < numLayers).
  { split; [ apply Z.div_pos; lia | ].
    apply Z.div_lt_upper_bound; [ lia | ]. rewrite Z.mul_comm. lia. }
  destruct (Hplaced (Z.to_nat m) m (l / numFaces) (l mod numFaces)
              (nth_error_range m numMips Hm) Hdiv Hmod)
    as (span & Hread & Hlen & Hpl).
  replace (l / numFaces * numFaces + l mod numFaces) with l in * by lia.
  rewrite u32_small in Hread by lia.
  rewrite Hread.
  rewrite firstn_range in Hpl by lia.
  assert (Hsumall : dataStart
                    + fold_right
                        (fun i acc => sizeBytes size i fmt * numLayers * numFaces + acc)
                        0 (range 0 numMips) < 2 ^ 64).
  { rewrite <- Hlen'. change (2 ^ 64) with (2 * 2 ^ 63). lia. }
  pose proof (levelIndex_nth size fmt numLayers numFaces (range 0 numMips)
                dataStart (Z.to_nat m) m ltac:(lia) ltac:(lia)
                ltac:(rewrite HdataStart; lia) Hsumall
                (nth_error_range m numMips Hm)) as Hnth.
  rewrite firstn_range in Hnth by lia. fold infos in Hnth.
  unfold Ktx2Reader.read, Ktx2Reader.offset, Ktx2Reader.faceSize.
  rewrite Hsize', Hfmt'.
  unfold reader at 1 2 3 4. cbn [Ktx2Reader.zlib_ Ktx2Reader.levels_
    Ktx2Reader.initialOffset_ Ktx2Reader.stream_].
  rewrite Hnth. cbn [bind lvl_offset].
  rewrite u64_add_r, Z.add_0_l.
  rewrite <- Hlen.
  apply MemoryRead_seek_read_placed.
  - rewrite Hlen, (Z.mul_comm (sizeBytes size m fmt) l). exact Hpl.
  - pose proof (sizeBytes_range size m fmt).
    assert (0 <= fold_right
                   (fun i acc => sizeBytes size i fmt * numLayers * numFaces + acc)
                   0 (range 0 m)).
    { generalize (range 0 m). intros ms.
      induction ms as [| i ms IH]; cbn [fold_right]; [ lia | ].
      pose proof (sizeBytes_range size i fmt).
      assert (0 <= sizeBytes size i fmt * numLayers * numFaces)
        by (apply Z.mul_nonneg_nonneg; [ apply Z.mul_nonneg_nonneg | ]; lia).
      lia. }
    rewrite Hlen. rewrite HdataStart. nia.
  - exact Hbound.
Qed.

End Ktx2Roundtrip.


Section Ktx2Errors.
Context {fu : FormatUtils}.


End Ktx2Errors.

(** ** The size of a tight blob *)

Lemma mipSize_positive (size : Vec3ui) (i : Z) :
  1 <= vx (mipSize size i) /\ 1 <= vy (mipSize size i) /\ 1 <= vz (mipSize size i).
Proof. unfold mipSize. cbn [vx vy vz]. lia. Qed.

Lemma texelsExact_nonneg (extent : Vec3ui) (numLayers : Z) (mips : list Z) :
  0 <= numLayers -> 0 <= texelsExact extent numLayers mips.
Proof.
  intros HL. induction mips as [| i mips IH]; [ cbn; lia | ].
  cbn [texelsExact fold_right]. fold (texelsExact extent numLayers mips).
  pose proof (mipSize_positive extent i). nia.
Qed.

Lemma texelsExact_app (extent : Vec3ui) (numLayers : Z) (a b : list Z) :
  texelsExact extent numLayers (a ++ b)
  = texelsExact extent numLayers a + texelsExact extent numLayers b.
Proof.
  induction a as [| i a IH]; [ reflexivity | ].
  cbn [app texelsExact fold_right]. fold (texelsExact extent numLayers (a ++ b)).
  fold (texelsExact extent numLayers a). rewrite IH. ring.
Qed.

(** Where the exact sum fits 32 bits, it is the sum of the code. *)
Lemma texelSum_exact (extent : Vec3ui) (numLayers : Z) (mips : list Z) :
  0 <= numLayers ->
  texelsExact extent numLayers mips < 2 ^ 32 ->
  texelSum extent numLayers mips = texelsExact extent numLayers mips.
Proof.
  intros HL. induction mips as [| i mips IH]; intros Hfit; [ reflexivity | ].
  cbn [texelSum texelsExact fold_right] in *.
  fold (texelSum extent numLayers mips). fold (texelsExact extent numLayers mips) in *.
  pose proof (texelsExact_nonneg extent numLayers mips HL).
  pose proof (mipSize_positive extent i).
  rewrite IH by nia. unfold mipTexels. cbv zeta.
  rewrite u32_small by nia. reflexivity.
Qed.

Lemma tight_bounds (e t layers l A B T : Z) :
  1 <= e -> 1 <= t -> 0 <= l < layers -> 0 <= A -> 0 <= B ->
  T = A + t * layers + B ->
  e * T < 2 ^ 32 ->
  T < 2 ^ 32
  /\ 0 <= A < 2 ^ 32
  /\ 0 <= l * t < 2 ^ 32
  /\ 0 <= A + l * t < 2 ^ 32
  /\ 0 <= t * e < 2 ^ 32
  /\ 0 <= e * (A + l * t)
  /\ e * (A + l * t) + t * e <= e * T.
Proof.
  intros He Ht Hl HA HB HT Hfit.
  assert (H1 : (l + 1) * t <= layers * t) by (apply Z.mul_le_mono_nonneg_r; lia).
  assert (H2 : 0 <= l * t) by (apply Z.mul_nonneg_nonneg; lia).
  assert (H3 : A + l * t + t <= T) by lia.
  assert (H4 : 0 <= T) by lia.
  assert (H5 : T <= e * T) by nia.
  assert (H6 : e * (A + l * t + t) <= e * T) by (apply Z.mul_le_mono_nonneg_l; lia).
  assert (H7 : t <= T) by lia.
  assert (H8 : e * t <= e * T) by (apply Z.mul_le_mono_nonneg_l; lia).
  assert (H9 : 0 <= e * (A + l * t)) by (apply Z.mul_nonneg_nonneg; lia).
  repeat split; try lia.
Qed.

Section TightBlob.
Context {fu : FormatUtils}.

(** X30: a blob of [formatElementSize * tightTexelCount(size, layers,
    mips)] bytes is enough for the provider [wrapImage] makes over it in
    the tight layout, as long as that size fits 32 bits: [read] of every
    mip level and layer hands out [faceSize] bytes that lie within the
    blob. *)
Theorem wrapImage_tight_in_bounds (size : Vec3ui) (format : Format)
    (mips layers : Z) (data : list Z) (cubemap : bool) (m l : Z) :
  1 <= layers ->
  1 <= formatElementSize format ->
  formatElementSize format * texelsExact size layers (range 0 mips) < 2 ^ 32 ->
  formatElementSize format * tightTexelCount size layers mips 0
  <= Z.of_nat (length data) ->
  0 <= m < mips ->
  0 <= l < layers ->
  tightTexelCount size layers mips 0 = texelsExact size layers (range 0 mips)
  /\ exists span,
       MemImageProvider.read (wrapImage_tight size format mips layers data cubemap)
                             m l
       = Ok span
       /\ Z.of_nat (length span)
          = MemImageProvider.faceSize
              (wrapImage_tight size format mips layers data cubemap) m.
Proof.
  intros HL Hfs Hfit Hdata Hm Hl.
  set (e := formatElementSize format) in *.
  set (t := vx (mipSize size m) * vy (mipSize size m) * vz (mipSize size m)).
  pose proof (mipSize_positive size m) as Hpos.
  assert (Ht : 1 <= t) by (unfold t; nia).
  assert (Hsplit : texelsExact size layers (range 0 mips)
                   = texelsExact size layers (range 0 m) + t * layers
                     + texelsExact size layers (range (m + 1) mips)).
  { rewrite (range_app 0 m mips), texelsExact_app by lia.
    rewrite (range_cons m mips) by lia.
    cbn [texelsExact fold_right]. fold (texelsExact size layers (range (m + 1) mips)).
    fold t. ring. }
  pose proof (texelsExact_nonneg size layers (range 0 m) ltac:(lia)) as Hbefore.
  pose proof (texelsExact_nonneg size layers (range (m + 1) mips) ltac:(lia)) as Hafter.
  pose proof (texelsExact_nonneg size layers (range 0 mips) ltac:(lia)) as Hall.
  assert (Hmipsfit : mips * layers <= texelsExact size layers (range 0 mips)).
  { clear - HL Hm. assert (Hmips : 0 <= mips) by lia. clear Hm.
    assert (H : forall ms,
               Z.of_nat (length ms) * layers <= texelsExact size layers ms).
    { induction ms as [| i ms IH]; [ cbn; lia | ].
      cbn [texelsExact fold_right length]. fold (texelsExact size layers ms).
      pose proof (mipSize_positive size i) as (Hx & Hy & Hz).
      assert (Hxy : 1 <= vx (mipSize size i) * vy (mipSize size i)) by nia.
      assert (Hxyz : 1 <= vx (mipSize size i) * vy (mipSize size i)
                         * vz (mipSize size i)) by nia.
      rewrite Nat2Z.inj_succ. nia. }
    specialize (H (range 0 mips)). rewrite length_range in H.
    rewrite Z2Nat.id in H by lia. replace (mips - 0) with mips in H by ring.
    exact H. }
  set (A := texelsExact size layers (range 0 m)) in *.
  set (B := texelsExact size layers (range (m + 1) mips)) in *.
  set (T := texelsExact size layers (range 0 mips)) in *.
  destruct (tight_bounds e t layers l A B T Hfs Ht Hl Hbefore Hafter Hsplit Hfit)
    as (Htotal & HA & Hlt & HAlt & Hte & Hoff0 & Hend).
  assert (Hidx : 0 <= m * layers + l < 2 ^ 32).
  { assert (m * layers + layers <= mips * layers)
      by (replace (m * layers + layers) with ((m + 1) * layers) by ring;
          apply Z.mul_le_mono_nonneg_r; lia).
    assert (0 <= m * layers) by (apply Z.mul_nonneg_nonneg; lia).
    lia. }
  assert (Hsum : forall k, 0 <= k <= mips ->
                   texelsExact size layers (range 0 k) <= T ->
                   texelSum size layers (range 0 k)
                   = texelsExact size layers (range 0 k)).
  { intros k Hk Hle. apply texelSum_exact; lia. }
  assert (Hcount : tightTexelCount size layers mips 0 = T).
  { unfold tightTexelCount. rewrite Z.add_0_l.
    assert (Hmips32 : 0 <= mips < 2 ^ 32).
    { assert (mips * 1 <= mips * layers) by (apply Z.mul_le_mono_nonneg_l; lia).
      lia. }
    rewrite u32_small by exact Hmips32.
    rewrite addMipTexels_fold by (change (2 ^ 64) with 18446744073709551616; lia).
    rewrite Z.add_0_l, (Hsum mips) by (fold T; lia). fold T.
    apply u64_small. change (2 ^ 64) with (2 ^ 32 * 2 ^ 32). lia. }
  split; [ exact Hcount | ].
  assert (Hnumber : tightTexelNumber size layers m l 0 0 0 0 = A + l * t).
  { unfold tightTexelNumber. cbv zeta.
    rewrite tightLayerTexelNumber_origin, Z.add_0_r.
    rewrite addMipTexels_fold by (change (2 ^ 64) with 18446744073709551616; lia).
    rewrite Z.add_0_l, (Hsum m) by (fold A; lia). fold A.
    replace (l * vx (mipSize size m) * vy (mipSize size m) * vz (mipSize size m))
      with (l * t) by (unfold t; ring).
    rewrite (u32_small (l * t)) by exact Hlt.
    rewrite u64_add_l.
    apply u64_small. change (2 ^ 64) with (2 ^ 32 * 2 ^ 32). lia. }
  set (p := wrapImage_tight size format mips layers data cubemap).
  assert (Hface : MemImageProvider.faceSize p m = t * e).
  { unfold MemImageProvider.faceSize, p, wrapImage_tight.
    cbn [MemImageProvider.size_ MemImageProvider.format_]. fold e.
    change (Z.max (Z.shiftr (vx size) m) 1) with (vx (mipSize size m)).
    change (Z.max (Z.shiftr (vy size) m) 1) with (vy (mipSize size m)).
    change (Z.max (Z.shiftr (vz size) m) 1) with (vz (mipSize size m)).
    fold t. apply u32_small. exact Hte. }
  unfold MemImageProvider.read.
  change (MemImageProvider.layers_ p) with layers.
  rewrite u32_small by exact Hidx.
  change (MemImageProvider.data_ p)
    with (flat_map
            (fun m => map (fun l => mkPtr data
                             (u64 (e * tightTexelNumber size layers m l 0 0 0 0)))
                          (range 0 layers))
            (range 0 mips)).
  replace (m * layers + l) with ((m - 0) * layers + l) by ring.
  rewrite (nth_error_grid
             (fun m l => mkPtr data
                (u64 (e * tightTexelNumber size layers m l 0 0 0 0))))
    by lia.
  unfold spanAt. cbn [off mem].
  rewrite Hnumber, Hface.
  rewrite u64_small by (change (2 ^ 64) with (2 ^ 32 * 2 ^ 32); lia).
  rewrite Hcount in Hdata.
  destruct (Z.leb_spec 0 (e * (A + l * t))); [ | lia ].
  destruct (Z.leb_spec (e * (A + l * t) + t * e) (Z.of_nat (length data)));
    [ | lia ].
  cbn [andb]. eexists. split; [ reflexivity | ].
  rewrite length_firstn, length_skipn. lia.
Qed.

End TightBlob.

(** ** The theorems at concrete inputs

    The registry and the GL values are [sampleUtils] and
    [registryValues]. *)

Lemma keyValues_rounds_witness :
  let s := MemoryRead.mk [4; 0; 0; 0; 107; 61; 118; 0] 0 in
  remaining s < 4 * Z.of_nat 3
  /\ keyValues 3 s 0 8 <> kv_rounds.
Proof.
  intros s. split; [ vm_compute; reflexivity | ].
  apply (keyValues_rounds 3 s 0 8).
  - unfold s, isByte. cbn [MemoryRead.buf_]. repeat constructor; lia.
  - cbn. lia.
  - cbn. lia.
  - vm_compute. reflexivity.
Defined.

Lemma MemImageProvider_faceSize_uncompressed_witness :
  let p := wrapImage (mkVec3ui 1 1 1) r8g8b8a8Unorm face6 in
  blockSize (fu := sampleUtils) (MemImageProvider.format_ p) = mkVec3ui 1 1 1
  /\ forall layer span,
       MemImageProvider.read (fu := sampleUtils) p 0 layer = Ok span ->
       Z.of_nat (length span)
       = sizeBytes (fu := sampleUtils) (MemImageProvider.size_ p) 0
                   (MemImageProvider.format_ p).
Proof.
  intros p. split; [ reflexivity | ].
  apply (@MemImageProvider_faceSize_uncompressed sampleUtils p 0).
  - reflexivity.
  - cbn. lia.
  - cbn. lia.
  - cbn. lia.
  - lia.
Defined.

Lemma MemImageProvider_block_faceSize_witness :
  let data := repeat 7 256 in
  formatElementSize (fu := sampleUtils) bc7UnormBlock = 16
  /\ blockSize (fu := sampleUtils) bc7UnormBlock = mkVec3ui 4 4 1
  /\ length data = 256%nat
  /\ MemImageProvider.read (fu := sampleUtils)
       (wrapImage (mkVec3ui 4 4 1) bc7UnormBlock data) 0 0
     = Ok data
  /\ sizeBytes (fu := sampleUtils) (mkVec3ui 4 4 1) 0 bc7UnormBlock = 16.
Proof.
  intros data.
  split; [ reflexivity | ]. split; [ reflexivity | ]. split; [ reflexivity | ].
  apply (@MemImageProvider_block_faceSize sampleUtils data); reflexivity.
Defined.

Lemma writePng_16bit_gray_witness :
  ImageProvider.format (provider8 (fu := sampleUtils)) = r16g16b16Unorm
  /\ ImageProvider.read (provider8 (fu := sampleUtils)) 0 0 = Ok [1; 2; 3; 4; 5; 6]
  /\ ihdrColorType (snd (writePng (provider8 (fu := sampleUtils))))
     = Some PNG_COLOR_TYPE_GRAY
  /\ fst (writePng (provider8 (fu := sampleUtils))) = Ok WriteError_readError.
Proof.
  split; [ reflexivity | ]. split; [ reflexivity | ].
  destruct (writePng_16bit_gray (provider8 (fu := sampleUtils))
              (or_introl eq_refl)) as [Hgray Herr].
  split; [ exact Hgray | ].
  apply (Herr [1; 2; 3; 4; 5; 6]).
  - reflexivity.
  - cbn. lia.
  - reflexivity.
Defined.

Lemma formatMap_no_d16Unorm :
  forall entry,
    In entry (formatMap (glv := registryValues)) -> vkFormat entry <> d16Unorm.
Proof.
  intros entry He. unfold formatMap in He. cbn [In] in He.
  repeat (destruct He as [<- | He]; [ vm_compute; discriminate | ]).
  contradiction.
Defined.

Lemma writeKtx_unsupported_after_magic_witness :
  (forall entry,
     In entry (formatMap (glv := registryValues)) ->
     vkFormat entry <> ImageProvider.format (provider9 (fu := sampleUtils)))
  /\ writeKtx (fu := sampleUtils) (glv := registryValues) Write.empty
       (provider9 (fu := sampleUtils))
     = (Ok WriteError_unsupportedFormat, Write.mk ktxIdentifier 12).
Proof.
  split; [ exact formatMap_no_d16Unorm | ].
  destruct (@writeKtx_unsupported_after_magic sampleUtils registryValues
              Write.empty (provider9 (fu := sampleUtils)) formatMap_no_d16Unorm)
    as (Hret & _ & _ & Hout).
  rewrite Hret, Hout. reflexivity.
Defined.

Lemma registry_rgba8_range :
  0 <= gl (GLValues := registryValues) GL_RGBA8 < 2 ^ 32
  /\ 0 <= gl (GLValues := registryValues) GL_RGBA < 2 ^ 32
  /\ 0 <= gl (GLValues := registryValues) GL_UNSIGNED_BYTE < 2 ^ 32.
Proof. cbn. lia. Defined.

Lemma registry_rgba8_distinct :
  gl (GLValues := registryValues) GL_R8 <> gl (GLValues := registryValues) GL_RGBA8
  /\ gl (GLValues := registryValues) GL_RG8 <> gl (GLValues := registryValues) GL_RGBA8
  /\ gl (GLValues := registryValues) GL_RGB8 <> gl (GLValues := registryValues) GL_RGBA8.
Proof. cbn. repeat split; discriminate. Defined.

Lemma ktx1_rgba8_1x1_roundtrip_witness :
  formatElementSize (fu := sampleUtils) r8g8b8a8Unorm = 4
  /\ blockSize (fu := sampleUtils) r8g8b8a8Unorm = mkVec3ui 1 1 1
  /\ exists out reader,
       writeKtx (fu := sampleUtils) (glv := registryValues) Write.empty
         (provider6 (fu := sampleUtils))
       = (Ok WriteError_none, out)
       /\ length (Write.data out) = 72%nat
       /\ loadKtx (glv := registryValues) true (MemoryRead.open (Write.data out))
          = (ReadError_none, Some reader)
       /\ KtxReader.read (fu := sampleUtils) reader 0 0 = Ok face6.
Proof.
  split; [ reflexivity | ]. split; [ reflexivity | ].
  exact (@ktx1_rgba8_1x1_roundtrip sampleUtils registryValues eq_refl eq_refl
           registry_rgba8_range registry_rgba8_distinct true).
Defined.


Lemma ktx2_level_index_ignores_padding_witness :
  formatElementSize (fu := sampleUtils) r8Unorm = 1
  /\ blockSize (fu := sampleUtils) r8Unorm = mkVec3ui 1 1 1
  /\ exists out reader,
       writeKtx2 (fu := sampleUtils) Write.empty (provider3 (fu := sampleUtils)) false
       = (Ok WriteError_none, out)
       /\ loadKtx2 (MemoryRead.open (Write.data out)) = (ReadError_none, Some reader)
       /\ Ktx2Reader.levels_ reader = [mkLevel 120 2 2; mkLevel 122 1 1]
       /\ nth 124 (Write.data out) 0 = 3
       /\ ImageProvider.read (provider3 (fu := sampleUtils)) 1 0 = Ok [3]
       /\ Ktx2Reader.read (fu := sampleUtils) reader 1 0 = Ok [0].
Proof.
  split; [ reflexivity | ]. split; [ reflexivity | ].
  exact (@ktx2_level_index_ignores_padding sampleUtils eq_refl eq_refl).
Defined.

Lemma loadKtx_keyValues_overread_witness :
  let h := header10 (glv := registryValues) in
  let file := ktxFile h (keyValue10 ++ le_bytes 4 4 ++ [17]) in
  KtxHeader_wf h
  /\ KtxHeader_accepted (glv := registryValues) h
  /\ bytesKeyValueData h = 12
  /\ length file = 81%nat
  /\ loadKtx (glv := registryValues) true (MemoryRead.open file)
     = (ReadError_unexpectedEnd, None)
  /\ exists reader,
       loadKtx (glv := registryValues) false (MemoryRead.open file)
       = (ReadError_none, Some reader)
       /\ KtxReader.read (fu := sampleUtils) reader 0 0 = Throw out_of_range.
Proof.
  intros h file.
  assert (Hwf : KtxHeader_wf h) by exact (header10_wf registry_rgba8_range).
  assert (Hacc : KtxHeader_accepted (glv := registryValues) h)
    by exact (header10_accepted registry_rgba8_distinct).
  split; [ exact Hwf | ]. split; [ exact Hacc | ].
  split; [ reflexivity | ]. split; [ reflexivity | ].
  destruct (@loadKtx_keyValues_overread registryValues h [17] Hwf Hacc eq_refl
              ltac:(cbn; lia)) as [Hcheck Hplain].
  split; [ exact Hcheck | ].
  eexists. split; [ exact Hplain | ].
  vm_compute. reflexivity.
Defined.

Lemma tightTexelNumber_level0_witness :
  tightTexelNumber (mkVec3ui 4 4 1) 2 0 1 1 1 0 0 = 1 * (4 * 4 * 1) + 0 * (4 * 4) + 1 * 4 + 1.
Proof.
  apply (tightTexelNumber_level0 (mkVec3ui 4 4 1) 2 1 1 1 0); cbn; lia.
Defined.

Lemma engine_roundtrip_bytes_witness :
  byteOrPacked (ioFormat_case r8g8b8a8Unorm) = true
  /\ byteOrPacked (ioFormat_case a2r10g10b10UintPack32) = true
  /\ (exists color,
        read (lib := sampleLib) r8g8b8a8Unorm face6 = Some (color, [])
        /\ write (lib := sampleLib) r8g8b8a8Unorm color = face6)
  /\ (exists color,
        read (lib := sampleLib) a2r10g10b10UintPack32 face6 = Some (color, [])
        /\ write (lib := sampleLib) a2r10g10b10UintPack32 color = face6).
Proof.
  assert (Hbytes : Forall isByte face6)
    by (unfold face6, isByte; repeat constructor; lia).
  split; [ reflexivity | ]. split; [ reflexivity | ].
  split.
  - exact (@engine_roundtrip_bytes sampleLib r8g8b8a8Unorm face6
             eq_refl eq_refl Hbytes).
  - exact (@engine_roundtrip_bytes sampleLib a2r10g10b10UintPack32 face6
             eq_refl eq_refl Hbytes).
Defined.


Lemma alignPOT_align_witness :
  0 <= 4 < 32 /\ 0 <= 100 /\ 100 + 2 ^ 4 <= 2 ^ 32
  /\ alignPOT 100 (2 ^ 4) = align 100 (2 ^ 4).
Proof.
  split; [ lia | ]. split; [ lia | ]. split; [ lia | ].
  apply (alignPOT_align 100 4); lia.
Defined.

Lemma ceilDivide_ceiling_witness :
  (4294967295 <= ceilDivide 4294967295 1 * 1 < 4294967295 + 1)
  /\ ceilDivide 4294967295 4 * 4 < 4294967295.
Proof.
  split.
  - apply (proj1 (ceilDivide_ceiling 4294967295 1 ltac:(lia) ltac:(lia))). lia.
  - apply (proj2 (ceilDivide_ceiling 4294967295 4 ltac:(lia) ltac:(lia))); lia.
Defined.


Lemma tightTexelNumber_origin_count_witness :
  let extent := mkVec3ui 8 8 1 in
  0 <= 1 <= 3 /\ 3 < 2 ^ 32
  /\ tightTexelNumber extent 6 3 0 0 0 0 1 = tightTexelCount extent 6 (3 - 1) 1.
Proof.
  intros extent. split; [ lia | ]. split; [ lia | ].
  apply (tightTexelNumber_origin_count extent 6 3 1); lia.
Defined.

Lemma tightTexelCount_split_witness :
  let extent := mkVec3ui 8 8 1 in
  0 <= 0 /\ 0 <= 2 /\ 0 <= 2 /\ 0 + 2 + 2 < 2 ^ 32
  /\ tightTexelCount extent 6 (2 + 2) 0
     = u64 (tightTexelCount extent 6 2 0 + tightTexelCount extent 6 2 (0 + 2)).
Proof.
  intros extent. repeat (split; [ lia | ]).
  apply (tightTexelCount_split extent 6 2 2 0); lia.
Defined.

Lemma tightTexelNumber_faces_adjacent_witness :
  let extent := mkVec3ui 8 8 1 in
  let t := vx (mipSize extent 1) * vy (mipSize extent 1) * vz (mipSize extent 1) in
  tightTexelNumber extent 6 1 (2 + 1) 0 0 0 0
  = u64 (tightTexelNumber extent 6 1 2 0 0 0 0 + t)
  /\ tightTexelNumber extent 6 (1 + 1) 0 0 0 0 0
     = u64 (tightTexelNumber extent 6 1 0 0 0 0 0 + 6 * t).
Proof.
  intros extent t.
  apply (tightTexelNumber_faces_adjacent extent 6 1 2 0);
    cbn; lia.
Defined.

Lemma wrapImage_tight_read_witness :
  let data := map Z.of_nat (seq 0 20) in
  let p := wrapImage_tight (fu := sampleUtils) (mkVec3ui 2 2 1) r8g8b8a8Unorm
             2 1 data false in
  MemImageProvider.read (fu := sampleUtils) p 1 0
  = Ok (firstn (Z.to_nat (MemImageProvider.faceSize (fu := sampleUtils) p 1))
          (skipn
             (Z.to_nat
                (u64 (formatElementSize (fu := sampleUtils) r8g8b8a8Unorm
                      * tightTexelNumber (mkVec3ui 2 2 1) 1 1 0 0 0 0 0)))
             data)).
Proof.
  intros data p.
  apply (@wrapImage_tight_read sampleUtils (mkVec3ui 2 2 1) r8g8b8a8Unorm 2 1
           data false 1 0).
  - lia.
  - lia.
  - lia.
  - vm_compute. discriminate.
Defined.

Lemma convert_rgba_bgra_witness :
  convert (lib := sampleLib) b8g8r8a8Unorm r8g8b8a8Unorm [10; 20; 30; 255]
  = Some ([30; 20; 10; 255], [])
  /\ convert (lib := sampleLib) r8g8b8a8Unorm b8g8r8a8Unorm [10; 20; 30; 255]
     = Some ([30; 20; 10; 255], []).
Proof.
  apply (@convert_rgba_bgra sampleLib r8g8b8a8Unorm b8g8r8a8Unorm U8 255
           10 20 30 255);
    try reflexivity; try (left; reflexivity); unfold isByte; lia.
Defined.


Lemma convert_bgra_snorm_same_order_witness :
  formatSwizzle_case b8g8r8a8Snorm = None
  /\ convert (lib := sampleLib) r8g8b8a8Snorm b8g8r8a8Snorm [10; 20; 30; 127]
     = Some ([10; 20; 30; 127], []).
Proof.
  apply (@convert_bgra_snorm_same_order sampleLib 10 20 30 127);
    unfold isByte; lia.
Defined.

Lemma registry_gl_u32 : forall g, 0 <= gl (GLValues := registryValues) g < 2 ^ 32.
Proof. intros g. destruct g; cbn; lia. Defined.

Lemma registry_formats_distinct :
  NoDup (map glFormat (formatMap (glv := registryValues))).
Proof. apply distinct_NoDup. vm_compute. reflexivity. Defined.

Lemma formatMap_roundtrip_witness :
  let entry :=
    mkFormatEntry (gl (GLValues := registryValues) GL_RGBA8)
                  (gl (GLValues := registryValues) GL_RGBA)
                  (gl (GLValues := registryValues) GL_UNSIGNED_BYTE)
                  r8g8b8a8Unorm in
  vulkanFromGLFormat (glv := registryValues) (glFormat entry) = vkFormat entry
  /\ vkFormat entry <> undefined
  /\ find (fun ientry => vkFormat ientry =? vkFormat entry)
          (formatMap (glv := registryValues))
     = Some entry.
Proof.
  intros entry.
  apply (@formatMap_roundtrip registryValues entry registry_formats_distinct).
  unfold formatMap, entry. cbn [In]. tauto.
Defined.

Lemma ktx1_roundtrip_witness :
  let data := map Z.of_nat (seq 0 20) in
  let image :=
    MemImageProvider.provider (fu := sampleUtils)
      (wrapImage_tight (fu := sampleUtils) (mkVec3ui 2 2 1) r8g8b8a8Unorm 2 1
                       data false) in
  let w := snd (writeKtx (fu := sampleUtils) (glv := registryValues)
                         Write.empty image) in
  writeKtx (fu := sampleUtils) (glv := registryValues) Write.empty image
  = (Ok WriteError_none, w)
  /\ exists reader,
       loadKtx (glv := registryValues) true (MemoryRead.open (Write.data w))
       = (ReadError_none, Some reader)
       /\ ImageProvider.size (KtxReader.provider (fu := sampleUtils) reader)
          = ImageProvider.size image
       /\ ImageProvider.format (KtxReader.provider (fu := sampleUtils) reader)
          = ImageProvider.format image
       /\ ImageProvider.mipLevels (KtxReader.provider (fu := sampleUtils) reader)
          = Z.max (ImageProvider.mipLevels image) 1
       /\ ImageProvider.layers (KtxReader.provider (fu := sampleUtils) reader)
          = Z.max (ImageProvider.layers image) 1
       /\ ImageProvider.cubemap (KtxReader.provider (fu := sampleUtils) reader)
          = ImageProvider.cubemap image
       /\ forall m l,
            0 <= m < Z.max (ImageProvider.mipLevels image) 1 ->
            0 <= l < Z.max (ImageProvider.layers image) 1 ->
            KtxReader.read (fu := sampleUtils) reader m l
            = ImageProvider.read image m l.
Proof.
  intros data image w.
  assert (Hw : writeKtx (fu := sampleUtils) (glv := registryValues)
                 Write.empty image = (Ok WriteError_none, w))
    by (vm_compute; reflexivity).
  split; [ exact Hw | ].
  apply (@ktx1_roundtrip sampleUtils registryValues true image w
           registry_gl_u32 registry_formats_distinct).
  - reflexivity.
  - cbn. lia.
  - cbn. lia.
  - cbn. lia.
  - cbn. lia.
  - cbn. lia.
  - cbn. lia.
  - discriminate.
  - left. reflexivity.
  - exact Hw.
  - vm_compute. reflexivity.
Defined.

Lemma normalised8_range_witness :
  redWithin (lib := sampleLib) r8Unorm 0%float 1%float 255 = true
  /\ redWithin (lib := sampleLib) r8Snorm (-1)%float 1%float 255 = negb (255 =? 128)
  /\ read (lib := sampleLib) r8Snorm [128]
     = Some (mkVec4d (-128 / 127)%float 0%float 0%float 0%float, []).
Proof.
  apply (normalised8_range sampleLib 255). unfold isByte. lia.
Defined.

Lemma loadKtx_short_or_foreign_witness :
  loadKtx (glv := registryValues) true (MemoryRead.open [])
  = (ReadError_unexpectedEnd, None)
  /\ loadKtx (glv := registryValues) true
       (MemoryRead.open (repeat 0 12))
     = (ReadError_invalidType, None)
  /\ loadKtx (glv := registryValues) true
       (MemoryRead.open ktxIdentifier)
     = (ReadError_unexpectedEnd, None).
Proof.
  split; [ | split ].
  - apply (proj1 (@loadKtx_short_or_foreign registryValues true []
                    ltac:(cbn; lia))).
    cbn. lia.
  - apply (proj1 (proj2 (@loadKtx_short_or_foreign registryValues true
                           (repeat 0 12) ltac:(cbn; lia)))).
    + cbn. lia.
    + cbn. discriminate.
  - apply (proj2 (proj2 (@loadKtx_short_or_foreign registryValues true
                           ktxIdentifier ltac:(cbn; lia)))).
    + reflexivity.
    + cbn. lia.
Defined.

Lemma loadKtx_header_errors_witness :
  let h := mkKtxHeader 0x01020304 0 0 0 0 0 0 0 0 0 0 0 0 in
  loadKtx (glv := registryValues) true (MemoryRead.open (ktxFile h []))
  = (ReadError_invalidEndianess, None).
Proof.
  intros h.
  assert (Hwf : KtxHeader_wf h).
  { unfold KtxHeader_wf, KtxHeader_fields, h.
    cbn [endianness glType glTypeSize glFormat_ glInternalFormat
         glBaseInternalFormat pixelWidth pixelHeight pixelDepth
         numberArrayElements numberFaces numberMipmapLevels bytesKeyValueData].
    repeat (apply Forall_cons; [ lia | ]). apply Forall_nil. }
  assert (Hlen : Z.of_nat (length (ktxFile h [])) < 2 ^ 63) by (cbn; lia).
  apply (proj1 (@loadKtx_header_errors registryValues true h [] Hwf Hlen)).
  cbn. discriminate.
Defined.


Lemma ktx2_roundtrip_witness :
  let data := map Z.of_nat (seq 0 20) in
  let img :=
    MemImageProvider.provider (fu := sampleUtils)
      (wrapImage_tight (fu := sampleUtils) (mkVec3ui 2 2 1) r8g8b8a8Unorm 2 1
                       data false) in
  let w := snd (writeKtx2 (fu := sampleUtils) Write.empty img false) in
  writeKtx2 (fu := sampleUtils) Write.empty img false = (Ok WriteError_none, w)
  /\ exists reader,
       loadKtx2 (MemoryRead.open (Write.data w)) = (ReadError_none, Some reader)
       /\ ImageProvider.size (Ktx2Reader.provider (fu := sampleUtils) reader)
          = ImageProvider.size img
       /\ ImageProvider.format (Ktx2Reader.provider (fu := sampleUtils) reader)
          = ImageProvider.format img
       /\ ImageProvider.mipLevels (Ktx2Reader.provider (fu := sampleUtils) reader)
          = ImageProvider.mipLevels img
       /\ ImageProvider.layers (Ktx2Reader.provider (fu := sampleUtils) reader)
          = ImageProvider.layers img
       /\ ImageProvider.cubemap (Ktx2Reader.provider (fu := sampleUtils) reader)
          = ImageProvider.cubemap img
       /\ forall m l,
            0 <= m < ImageProvider.mipLevels img ->
            0 <= l < ImageProvider.layers img ->
            Ktx2Reader.read (fu := sampleUtils) reader m l
            = ImageProvider.read img m l.
Proof.
  intros data img w.
  assert (Hw : writeKtx2 (fu := sampleUtils) Write.empty img false
               = (Ok WriteError_none, w))
    by (vm_compute; reflexivity).
  split; [ exact Hw | ].
  apply (@ktx2_roundtrip sampleUtils img w).
  - vm_compute. split; reflexivity.
  - vm_compute. split; [ discriminate | reflexivity ].
  - vm_compute. split; [ discriminate | reflexivity ].
  - vm_compute. split; [ discriminate | reflexivity ].
  - vm_compute. split; [ discriminate | reflexivity ].
  - vm_compute. split; [ discriminate | reflexivity ].
  - vm_compute. split; [ discriminate | reflexivity ].
  - discriminate.
  - reflexivity.
  - intros m Hm. change (ImageProvider.mipLevels img) with 2 in Hm.
    assert (Hcases : m = 0 \/ m = 1) by lia.
    destruct Hcases as [-> | ->]; reflexivity.
  - exact Hw.
  - vm_compute. reflexivity.
Defined.


Lemma wrapImage_tight_in_bounds_witness :
  let data := map Z.of_nat (seq 0 20) in
  let p := wrapImage_tight (fu := sampleUtils) (mkVec3ui 2 2 1) r8g8b8a8Unorm
             2 1 data false in
  tightTexelCount (mkVec3ui 2 2 1) 1 2 0
  = texelsExact (mkVec3ui 2 2 1) 1 (range 0 2)
  /\ exists span,
       MemImageProvider.read (fu := sampleUtils) p 1 0 = Ok span
       /\ Z.of_nat (length span) = MemImageProvider.faceSize (fu := sampleUtils) p 1.
Proof.
  intros data p.
  apply (@wrapImage_tight_in_bounds sampleUtils (mkVec3ui 2 2 1) r8g8b8a8Unorm
           2 1 data false 1 0).
  - lia.
  - vm_compute. discriminate.
  - vm_compute. reflexivity.
  - vm_compute. discriminate.
  - lia.
  - lia.
Defined.
